(** * shess_server: board engine, room store, connection registry, session loop

    A shallow embedding of the Python server (board_state.py, game_manager.py,
    websocket_manager.py, main.py, config.py) and the properties of its
    specification that were checked against it.

    Conventions of the embedding.
    - Python [int] is [Z]; [str] is [string]; [Optional[T]] is [option T].
    - A raised exception is the [Raise] outcome of [result].
    - A [Piece] is a mutable object shared by the two index dictionaries of a
      board: the board owns a store [objects] from references to the current
      field values, and the dictionaries hold references.
    - The clock ([time.time()]) is an explicit argument.
    - Redis holds the decoded form of the JSON text that the code writes. *)

From Stdlib Require Import ZArith QArith String Ascii.
From stdpp Require Import base option list gmap strings pretty functions.

#[local] Set Warnings "-clear-no-such-hyp".
Local Open Scope Z_scope.

(* ===================================================================== *)
(** ** Python values and exceptions *)

Inductive exn :=
| IndexError
| KeyError
| TypeError
| AttributeError
| RuntimeError
| ValueError (msg : string).

Inductive result (A : Type) :=
| Ok (a : A)
| Raise (e : exn).
Arguments Ok {A} a.
Arguments Raise {A} e.

#[global] Instance result_ret : MRet result := @Ok.
#[global] Instance result_bind : MBind result := λ A B f m,
  match m with Ok a => f a | Raise e => Raise e end.
#[global] Instance result_fmap : FMap result := λ A B f m,
  match m with Ok a => Ok (f a) | Raise e => Raise e end.

(** [l[i]] for a Python list: negative indexes count from the end. *)
Definition list_index {A} (l : list A) (i : Z) : result nat :=
  let n := Z.of_nat (length l) in
  if bool_decide (0 ≤ i < n) then Ok (Z.to_nat i)
  else if bool_decide (- n ≤ i < 0) then Ok (Z.to_nat (i + n))
  else Raise IndexError.

Definition list_getitem {A} (l : list A) (i : Z) : result A :=
  k ← list_index l i;
  match l !! k with Some x => Ok x | None => Raise IndexError end.

Definition list_setitem {A} (l : list A) (i : Z) (x : A) : result (list A) :=
  k ← list_index l i; Ok (<[k := x]> l).

(** A Python [dict] whose iteration order is observed: entries in insertion
    order, keys unique. *)
Definition dict (V : Type) : Type := list (string * V).

Fixpoint dict_get {V} (k : string) (d : dict V) : option V :=
  match d with
  | [] => None
  | (k', v) :: d' => if decide (k' = k) then Some v else dict_get k d'
  end.

(** [d[k] = v]: an existing key keeps its position. *)
Fixpoint dict_set {V} (k : string) (v : V) (d : dict V) : dict V :=
  match d with
  | [] => [(k, v)]
  | (k', v') :: d' =>
      if decide (k' = k) then (k, v) :: d' else (k', v') :: dict_set k v d'
  end.

(** [if k in d: del d[k]] *)
Fixpoint dict_del {V} (k : string) (d : dict V) : dict V :=
  match d with
  | [] => []
  | (k', v') :: d' =>
      if decide (k' = k) then d' else (k', v') :: dict_del k d'
  end.

Definition dict_values {V} (d : dict V) : list V := d.*2.

(** [needle in hay] on strings. *)
Fixpoint str_contains (needle hay : string) : bool :=
  String.prefix needle hay ||
  match hay with
  | EmptyString => false
  | String _ hay' => str_contains needle hay'
  end.

(** [all(P(a) for a in s)] *)
Fixpoint str_all (P : ascii → bool) (s : string) : bool :=
  match s with
  | EmptyString => true
  | String a s' => P a && str_all P s'
  end.
Definition not_underscore (a : ascii) : bool := negb (Ascii.eqb a "_").

(** [uuid.UUID]: a value is identified by its canonical text [str(u)]. *)
Record UUID := { uuid_str : string }.
#[global] Instance UUID_eq_dec : EqDecision UUID.
Proof. solve_decision. Defined.

(** [time.time()] readings; [int(t)] truncates. *)
Definition timestamp : Type := Q.
Definition int_of_timestamp (t : timestamp) : Z := Z.quot (Qnum t) (Zpos (Qden t)).

(* ===================================================================== *)
(** ** board_state.py *)

Inductive GameStatus :=
| WAITING | IN_PROGRESS | FINISHED | RESIGNED | DRAW | CHECK | CHECKMATE | STALEMATE.
#[global] Instance GameStatus_eq_dec : EqDecision GameStatus.
Proof. solve_decision. Defined.

Definition GameStatus_value (s : GameStatus) : string :=
  match s with
  | WAITING => "waiting"
  | IN_PROGRESS => "in_progress"
  | FINISHED => "finished"
  | RESIGNED => "resigned"
  | DRAW => "draw"
  | CHECK => "check"
  | CHECKMATE => "checkmate"
  | STALEMATE => "stalemate"
  end.

(** [GameStatus(v)]; the text of the error is written for a value whose
    [repr] is the value between single quotes. *)
Definition GameStatus_of_value (v : string) : result GameStatus :=
  if decide (v = "waiting") then Ok WAITING
  else if decide (v = "in_progress") then Ok IN_PROGRESS
  else if decide (v = "finished") then Ok FINISHED
  else if decide (v = "resigned") then Ok RESIGNED
  else if decide (v = "draw") then Ok DRAW
  else if decide (v = "check") then Ok CHECK
  else if decide (v = "checkmate") then Ok CHECKMATE
  else if decide (v = "stalemate") then Ok STALEMATE
  else Raise (ValueError ("'" +:+ v +:+ "' is not a valid GameStatus")).

Record Piece := mkPiece {
  figure_id : string;
  name : string;
  color : string;
  row : Z;
  col : Z;
  is_first_move : bool;
  description : string;
  copied_figure : option string;
  unavailable_copy : list string;
  mode : Z;
  hero : option string;
  death : Z;
  aura : Z;
  condition : Z;
  move_creation : Z;
  walk_count : Z
}.
#[global] Instance Piece_eq_dec : EqDecision Piece.
Proof. solve_decision. Defined.

(** The four assignments of a successful move ([piece.row = ...] to
    [piece.walk_count += 1]). *)
Definition piece_moved_to (new_row new_col : Z) (p : Piece) : Piece :=
  {| figure_id := figure_id p; name := name p; color := color p;
     row := new_row; col := new_col; is_first_move := false;
     description := description p; copied_figure := copied_figure p;
     unavailable_copy := unavailable_copy p; mode := mode p; hero := hero p;
     death := death p; aura := aura p; condition := condition p;
     move_creation := move_creation p; walk_count := walk_count p + 1 |}.

(** Entries of the hands: carried, never inspected. *)
Definition card : Type := list (string * string).

(** The dictionary read by [BoardState.__init__] and written by
    [to_json_serializable]; a missing key is [None]. *)
Module GameState.
Record t := mk {
  board_size : option Z;
  board_pieces : option (list Piece);
  current_player : option string;
  white_hand : option (list card);
  black_hand : option (list card);
  white_double_add : option Z;
  black_double_add : option Z;
  game_log : option (list string);
  moves_log : option (list string);
  cards_count : option Z;
  game_status : option string;
  day_night_cycle : option string;
  turn_number : option Z;
  players : option (gmap string (option string));
  last_move_at : option timestamp
}.
End GameState.

(** References to [Piece] objects. *)
Definition ref : Type := nat.

(** [self.board_size]: assigned once by [__init__], the same in every board. *)
Definition board_size : Z := 8.

Record BoardState := mkBoardState {
  current_player : string;
  white_hand : list card;
  black_hand : list card;
  white_double_add : Z;
  black_double_add : Z;
  game_log : list string;
  moves_log : list string;
  cards_count : Z;
  game_status : GameStatus;
  day_night_cycle : string;
  turn_number : Z;
  players : gmap string (option string);
  last_move_at : option timestamp;
  board : list (list (option Piece));
  _figure_id_to_piece_map : dict ref;
  _coord_to_piece_map : gmap string ref;
  objects : ref → Piece
}.

Definition set_current_player (v : string) (self : BoardState) : BoardState :=
  {| current_player := v;
     white_hand := white_hand self;
     black_hand := black_hand self;
     white_double_add := white_double_add self;
     black_double_add := black_double_add self;
     game_log := game_log self;
     moves_log := moves_log self;
     cards_count := cards_count self;
     game_status := game_status self;
     day_night_cycle := day_night_cycle self;
     turn_number := turn_number self;
     players := players self;
     last_move_at := last_move_at self;
     board := board self;
     _figure_id_to_piece_map := _figure_id_to_piece_map self;
     _coord_to_piece_map := _coord_to_piece_map self;
     objects := objects self |}.

Definition set_game_log (v : list string) (self : BoardState) : BoardState :=
  {| current_player := current_player self;
     white_hand := white_hand self;
     black_hand := black_hand self;
     white_double_add := white_double_add self;
     black_double_add := black_double_add self;
     game_log := v;
     moves_log := moves_log self;
     cards_count := cards_count self;
     game_status := game_status self;
     day_night_cycle := day_night_cycle self;
     turn_number := turn_number self;
     players := players self;
     last_move_at := last_move_at self;
     board := board self;
     _figure_id_to_piece_map := _figure_id_to_piece_map self;
     _coord_to_piece_map := _coord_to_piece_map self;
     objects := objects self |}.

Definition set_moves_log (v : list string) (self : BoardState) : BoardState :=
  {| current_player := current_player self;
     white_hand := white_hand self;
     black_hand := black_hand self;
     white_double_add := white_double_add self;
     black_double_add := black_double_add self;
     game_log := game_log self;
     moves_log := v;
     cards_count := cards_count self;
     game_status := game_status self;
     day_night_cycle := day_night_cycle self;
     turn_number := turn_number self;
     players := players self;
     last_move_at := last_move_at self;
     board := board self;
     _figure_id_to_piece_map := _figure_id_to_piece_map self;
     _coord_to_piece_map := _coord_to_piece_map self;
     objects := objects self |}.

Definition set_game_status (v : GameStatus) (self : BoardState) : BoardState :=
  {| current_player := current_player self;
     white_hand := white_hand self;
     black_hand := black_hand self;
     white_double_add := white_double_add self;
     black_double_add := black_double_add self;
     game_log := game_log self;
     moves_log := moves_log self;
     cards_count := cards_count self;
     game_status := v;
     day_night_cycle := day_night_cycle self;
     turn_number := turn_number self;
     players := players self;
     last_move_at := last_move_at self;
     board := board self;
     _figure_id_to_piece_map := _figure_id_to_piece_map self;
     _coord_to_piece_map := _coord_to_piece_map self;
     objects := objects self |}.

Definition set_turn_number (v : Z) (self : BoardState) : BoardState :=
  {| current_player := current_player self;
     white_hand := white_hand self;
     black_hand := black_hand self;
     white_double_add := white_double_add self;
     black_double_add := black_double_add self;
     game_log := game_log self;
     moves_log := moves_log self;
     cards_count := cards_count self;
     game_status := game_status self;
     day_night_cycle := day_night_cycle self;
     turn_number := v;
     players := players self;
     last_move_at := last_move_at self;
     board := board self;
     _figure_id_to_piece_map := _figure_id_to_piece_map self;
     _coord_to_piece_map := _coord_to_piece_map self;
     objects := objects self |}.

Definition set_players (v : gmap string (option string)) (self : BoardState) : BoardState :=
  {| current_player := current_player self;
     white_hand := white_hand self;
     black_hand := black_hand self;
     white_double_add := white_double_add self;
     black_double_add := black_double_add self;
     game_log := game_log self;
     moves_log := moves_log self;
     cards_count := cards_count self;
     game_status := game_status self;
     day_night_cycle := day_night_cycle self;
     turn_number := turn_number self;
     players := v;
     last_move_at := last_move_at self;
     board := board self;
     _figure_id_to_piece_map := _figure_id_to_piece_map self;
     _coord_to_piece_map := _coord_to_piece_map self;
     objects := objects self |}.

Definition set_last_move_at (v : option timestamp) (self : BoardState) : BoardState :=
  {| current_player := current_player self;
     white_hand := white_hand self;
     black_hand := black_hand self;
     white_double_add := white_double_add self;
     black_double_add := black_double_add self;
     game_log := game_log self;
     moves_log := moves_log self;
     cards_count := cards_count self;
     game_status := game_status self;
     day_night_cycle := day_night_cycle self;
     turn_number := turn_number self;
     players := players self;
     last_move_at := v;
     board := board self;
     _figure_id_to_piece_map := _figure_id_to_piece_map self;
     _coord_to_piece_map := _coord_to_piece_map self;
     objects := objects self |}.

Definition set_board (v : list (list (option Piece))) (self : BoardState) : BoardState :=
  {| current_player := current_player self;
     white_hand := white_hand self;
     black_hand := black_hand self;
     white_double_add := white_double_add self;
     black_double_add := black_double_add self;
     game_log := game_log self;
     moves_log := moves_log self;
     cards_count := cards_count self;
     game_status := game_status self;
     day_night_cycle := day_night_cycle self;
     turn_number := turn_number self;
     players := players self;
     last_move_at := last_move_at self;
     board := v;
     _figure_id_to_piece_map := _figure_id_to_piece_map self;
     _coord_to_piece_map := _coord_to_piece_map self;
     objects := objects self |}.

Definition set_figure_id_to_piece_map (v : dict ref) (self : BoardState) : BoardState :=
  {| current_player := current_player self;
     white_hand := white_hand self;
     black_hand := black_hand self;
     white_double_add := white_double_add self;
     black_double_add := black_double_add self;
     game_log := game_log self;
     moves_log := moves_log self;
     cards_count := cards_count self;
     game_status := game_status self;
     day_night_cycle := day_night_cycle self;
     turn_number := turn_number self;
     players := players self;
     last_move_at := last_move_at self;
     board := board self;
     _figure_id_to_piece_map := v;
     _coord_to_piece_map := _coord_to_piece_map self;
     objects := objects self |}.

Definition set_coord_to_piece_map (v : gmap string ref) (self : BoardState) : BoardState :=
  {| current_player := current_player self;
     white_hand := white_hand self;
     black_hand := black_hand self;
     white_double_add := white_double_add self;
     black_double_add := black_double_add self;
     game_log := game_log self;
     moves_log := moves_log self;
     cards_count := cards_count self;
     game_status := game_status self;
     day_night_cycle := day_night_cycle self;
     turn_number := turn_number self;
     players := players self;
     last_move_at := last_move_at self;
     board := board self;
     _figure_id_to_piece_map := _figure_id_to_piece_map self;
     _coord_to_piece_map := v;
     objects := objects self |}.

Definition set_objects (v : ref → Piece) (self : BoardState) : BoardState :=
  {| current_player := current_player self;
     white_hand := white_hand self;
     black_hand := black_hand self;
     white_double_add := white_double_add self;
     black_double_add := black_double_add self;
     game_log := game_log self;
     moves_log := moves_log self;
     cards_count := cards_count self;
     game_status := game_status self;
     day_night_cycle := day_night_cycle self;
     turn_number := turn_number self;
     players := players self;
     last_move_at := last_move_at self;
     board := board self;
     _figure_id_to_piece_map := _figure_id_to_piece_map self;
     _coord_to_piece_map := _coord_to_piece_map self;
     objects := v |}.


(** [f"{row}_{col}"], the key of the coordinate index. *)
Definition coord_key (r c : Z) : string := pretty r +:+ "_" +:+ pretty c.

(** [self.players.get(color)] *)
Definition players_get (c : string) (ps : gmap string (option string)) : option string :=
  match ps !! c with Some v => v | None => None end.

(** [self.board[r][c] = v]: the row is fetched, then written in place. *)
Definition board_setitem (b : list (list (option Piece))) (r c : Z)
    (v : option Piece) : result (list (list (option Piece))) :=
  cells ← list_getitem b r;
  cells' ← list_setitem cells c v;
  list_setitem b r cells'.

(** The cell of the grid at board coordinates, [None] off the board. *)
Definition board_at (b : list (list (option Piece))) (r c : Z) : option Piece :=
  if bool_decide (0 ≤ r ∧ 0 ≤ c) then
    match b !! Z.to_nat r with
    | Some cells => match cells !! Z.to_nat c with Some v => v | None => None end
    | None => None
    end
  else None.

Definition append_game_log (entry : string) (self : BoardState) : BoardState :=
  set_game_log (game_log self ++ [entry]) self.

(** The value of a store cell nothing refers to. *)
Definition unallocated : Piece :=
  mkPiece "" "" "" 0 0 true "" None [] 1 None 0 0 0 0 0.

(** The loop of [__init__] over [board_pieces]; [next] is the reference of the
    object that the [Piece] constructor creates from [piece_data]. *)
Fixpoint init_pieces (board_pieces : list Piece) (next : ref) (self : BoardState)
    : result BoardState :=
  match board_pieces with
  | [] => Ok self
  | piece_data :: rest =>
      let piece := next in
      board' ← board_setitem (board self) (row piece_data) (col piece_data)
                 (Some piece_data);
      init_pieces rest (S next)
        (set_coord_to_piece_map
           (<[coord_key (row piece_data) (col piece_data) := piece]>
              (_coord_to_piece_map self))
           (set_figure_id_to_piece_map
              (dict_set (figure_id piece_data) piece (_figure_id_to_piece_map self))
              (set_board board'
                 (set_objects (<[piece := piece_data]> (objects self)) self))))
  end.

Definition default_players : gmap string (option string) :=
  <["black" := None]> (<["white" := None]> ∅).

(** [BoardState.__init__] *)
Definition BoardState_init (initial_data : GameState.t) : result BoardState :=
  status ← GameStatus_of_value (default "waiting" (GameState.game_status initial_data));
  init_pieces (default [] (GameState.board_pieces initial_data)) 0%nat
    {| current_player := default "white" (GameState.current_player initial_data);
       white_hand := default [] (GameState.white_hand initial_data);
       black_hand := default [] (GameState.black_hand initial_data);
       white_double_add := default 0 (GameState.white_double_add initial_data);
       black_double_add := default 0 (GameState.black_double_add initial_data);
       game_log := default [] (GameState.game_log initial_data);
       moves_log := default [] (GameState.moves_log initial_data);
       cards_count := default 0 (GameState.cards_count initial_data);
       game_status := status;
       day_night_cycle := default "day" (GameState.day_night_cycle initial_data);
       turn_number := default 0 (GameState.turn_number initial_data);
       players := default default_players (GameState.players initial_data);
       last_move_at := GameState.last_move_at initial_data;
       board := replicate (Z.to_nat board_size) (replicate (Z.to_nat board_size) None);
       _figure_id_to_piece_map := [];
       _coord_to_piece_map := ∅;
       objects := λ _, unallocated |}.

Definition _remove_piece_from_board (piece : ref) (self : BoardState)
    : result BoardState :=
  let p := objects self piece in
  board' ← board_setitem (board self) (row p) (col p) None;
  Ok (set_figure_id_to_piece_map
        (dict_del (figure_id p) (_figure_id_to_piece_map self))
        (set_coord_to_piece_map
           (delete (coord_key (row p) (col p)) (_coord_to_piece_map self))
           (set_board board' self))).

Definition _get_piece_at (r c : Z) (self : BoardState) : option ref :=
  _coord_to_piece_map self !! coord_key r c.

Definition to_json_serializable (self : BoardState) : GameState.t :=
  {| GameState.board_size := Some board_size;
     GameState.board_pieces :=
       Some (objects self <$> dict_values (_figure_id_to_piece_map self));
     GameState.current_player := Some (current_player self);
     GameState.white_hand := Some (white_hand self);
     GameState.black_hand := Some (black_hand self);
     GameState.white_double_add := Some (white_double_add self);
     GameState.black_double_add := Some (black_double_add self);
     GameState.game_log := Some (game_log self);
     GameState.moves_log := Some (moves_log self);
     GameState.cards_count := Some (cards_count self);
     GameState.game_status := Some (GameStatus_value (game_status self));
     GameState.day_night_cycle := Some (day_night_cycle self);
     GameState.turn_number := Some (turn_number self);
     GameState.players := Some (players self);
     GameState.last_move_at := last_move_at self |}.

(** The log lines of [move_piece]. *)
Definition msg_piece_not_found (figure_id : string) : string :=
  "Error: Piece with ID " +:+ figure_id +:+ " not found.".

Definition msg_not_registered (player : UUID) : string :=
  "Error: Player " +:+ uuid_str player +:+ " is not a registered player in this game.".

Definition msg_out_of_turn (current actual : string) : string :=
  "Error: It's " +:+ current +:+ "'s turn, but " +:+ actual +:+ " player tried to move.".

Definition msg_wrong_color (actual piece_color : string) : string :=
  "Error: " +:+ actual +:+ " player tried to move a " +:+ piece_color +:+ " piece.".

Definition msg_invalid_coordinates (new_row new_col : Z) (p : Piece) : string :=
  "Error: Invalid coordinates (" +:+ pretty new_row +:+ ", " +:+ pretty new_col
    +:+ ") for piece " +:+ figure_id p +:+ ".".

Definition msg_own_piece (new_row new_col : Z) (target : Piece) : string :=
  "Error: Destination (" +:+ pretty new_row +:+ ", " +:+ pretty new_col
    +:+ ") occupied by own piece " +:+ name target +:+ " (" +:+ figure_id target +:+ ").".

Definition msg_capture (p target : Piece) (new_row new_col : Z) : string :=
  "Piece " +:+ figure_id p +:+ " (" +:+ name p +:+ " " +:+ color p +:+ ") took "
    +:+ figure_id target +:+ " (" +:+ name target +:+ " " +:+ color target
    +:+ ") at (" +:+ pretty new_row +:+ ", " +:+ pretty new_col +:+ ").".

Definition msg_move_record (current : string) (p : Piece)
    (old_row old_col new_row new_col : Z) : string :=
  current +:+ " " +:+ name p +:+ " from (" +:+ pretty old_row +:+ "," +:+ pretty old_col
    +:+ ") to (" +:+ pretty new_row +:+ "," +:+ pretty new_col +:+ ")".

Definition msg_successful_move (p : Piece) (old_row old_col new_row new_col : Z)
    (next_player : string) : string :=
  "Successful move: " +:+ name p +:+ " " +:+ color p +:+ " from (" +:+ pretty old_row
    +:+ ", " +:+ pretty old_col +:+ ") to (" +:+ pretty new_row +:+ ", "
    +:+ pretty new_col +:+ "). New current player: " +:+ next_player +:+ ".".

(** The color that [move_piece] resolves for the acting player. *)
Definition actual_player_color (player : UUID) (self : BoardState) : option string :=
  if decide (players_get "white" (players self) = Some (uuid_str player)) then Some "white"
  else if decide (players_get "black" (players self) = Some (uuid_str player)) then Some "black"
  else None.

(** The tail of [move_piece] from "clear the old position" to the end. *)
Definition execute_move (piece : ref) (old_row old_col new_row new_col : Z)
    (now : timestamp) (self : BoardState) : result BoardState :=
  board1 ← board_setitem (board self) old_row old_col None;
  let coord1 := delete (coord_key old_row old_col) (_coord_to_piece_map self) in
  let p := piece_moved_to new_row new_col (objects self piece) in
  let coord2 := <[coord_key new_row new_col := piece]> coord1 in
  board2 ← board_setitem board1 new_row new_col (Some p);
  let moved := msg_move_record (current_player self) p old_row old_col new_row new_col in
  let next_player :=
    if decide (current_player self = "white") then "black" else "white" in
  Ok (append_game_log
        (msg_successful_move p old_row old_col new_row new_col next_player)
        (set_last_move_at (Some now)
           (set_turn_number (turn_number self + 1)
              (set_current_player next_player
                 (set_moves_log (moves_log self ++ [moved])
                    (set_board board2
                       (set_coord_to_piece_map coord2
                          (set_objects (<[piece := p]> (objects self)) self)))))))).

Definition move_piece (figure_id : string) (new_row new_col : Z)
    (player_making_move_id : UUID) (now : timestamp) (self : BoardState)
    : result BoardState :=
  match dict_get figure_id (_figure_id_to_piece_map self) with
  | None => Ok (append_game_log (msg_piece_not_found figure_id) self)
  | Some piece =>
      let p := objects self piece in
      match actual_player_color player_making_move_id self with
      | None => Ok (append_game_log (msg_not_registered player_making_move_id) self)
      | Some actual =>
          if decide (actual ≠ current_player self) then
            Ok (append_game_log (msg_out_of_turn (current_player self) actual) self)
          else if decide (color p ≠ actual) then
            Ok (append_game_log (msg_wrong_color actual (color p)) self)
          else if decide (¬ (0 ≤ new_row < board_size ∧ 0 ≤ new_col < board_size)) then
            Ok (append_game_log (msg_invalid_coordinates new_row new_col p) self)
          else
            let old_row := row p in
            let old_col := col p in
            match _get_piece_at new_row new_col self with
            | Some target_piece =>
                let target := objects self target_piece in
                if decide (color target ≠ color p) then
                  self' ← _remove_piece_from_board target_piece self;
                  execute_move piece old_row old_col new_row new_col now
                    (append_game_log (msg_capture p target new_row new_col) self')
                else
                  Ok (append_game_log (msg_own_piece new_row new_col target) self)
            | None =>
                execute_move piece old_row old_col new_row new_col now self
            end
      end
  end.

(* ===================================================================== *)
(** ** config.py *)

(** One entry of [INITIAL_BOARD_STATE_PIECES]; [is_first_move] is absent from
    the entries and takes the default of the model. *)
Definition initial_piece (fid name color : string) (r c : Z) : Piece :=
  mkPiece fid name color r c true "" None [] 1 None 0 0 0 0 0.

(** [generate_figure_id()] draws a random UUID at import time; [gen n] is the
    text of the n-th draw. *)
Definition INITIAL_BOARD_STATE_PIECES (gen : nat → string) : list Piece :=
  [ initial_piece (gen 0%nat) "Rook" "black" 0 0;
    initial_piece (gen 1%nat) "Knight" "black" 0 1;
    initial_piece (gen 2%nat) "Bishop" "black" 0 2;
    initial_piece (gen 3%nat) "Queen" "black" 0 3;
    initial_piece (gen 4%nat) "King" "black" 0 4;
    initial_piece (gen 5%nat) "Bishop" "black" 0 5;
    initial_piece (gen 6%nat) "Knight" "black" 0 6;
    initial_piece (gen 7%nat) "Rook" "black" 0 7;
    initial_piece (gen 8%nat) "Pawn" "black" 1 0;
    initial_piece (gen 9%nat) "Pawn" "black" 1 1;
    initial_piece (gen 10%nat) "Pawn" "black" 1 2;
    initial_piece (gen 11%nat) "Pawn" "black" 1 3;
    initial_piece (gen 12%nat) "Pawn" "black" 1 4;
    initial_piece (gen 13%nat) "Pawn" "black" 1 5;
    initial_piece (gen 14%nat) "Pawn" "black" 1 6;
    initial_piece (gen 15%nat) "Pawn" "black" 1 7;
    initial_piece (gen 16%nat) "Pawn" "white" 6 0;
    initial_piece (gen 17%nat) "Pawn" "white" 6 1;
    initial_piece (gen 18%nat) "Pawn" "white" 6 2;
    initial_piece (gen 19%nat) "Pawn" "white" 6 3;
    initial_piece (gen 20%nat) "Pawn" "white" 6 4;
    initial_piece (gen 21%nat) "Pawn" "white" 6 5;
    initial_piece (gen 22%nat) "Pawn" "white" 6 6;
    initial_piece (gen 23%nat) "Pawn" "white" 6 7;
    initial_piece (gen 24%nat) "Rook" "white" 7 0;
    initial_piece (gen 25%nat) "Knight" "white" 7 1;
    initial_piece (gen 26%nat) "Bishop" "white" 7 2;
    initial_piece (gen 27%nat) "Queen" "white" 7 3;
    initial_piece (gen 28%nat) "King" "white" 7 4;
    initial_piece (gen 29%nat) "Bishop" "white" 7 5;
    initial_piece (gen 30%nat) "Knight" "white" 7 6;
    initial_piece (gen 31%nat) "Rook" "white" 7 7 ].

Definition INITIAL_GAME_STATE (gen : nat → string) : GameState.t :=
  {| GameState.board_size := None;
     GameState.board_pieces := Some (INITIAL_BOARD_STATE_PIECES gen);
     GameState.current_player := Some "white";
     GameState.white_hand := Some [];
     GameState.black_hand := Some [];
     GameState.white_double_add := Some 0;
     GameState.black_double_add := Some 0;
     GameState.game_log := Some [];
     GameState.moves_log := Some [];
     GameState.cards_count := Some 0;
     GameState.game_status := Some "waiting";
     GameState.day_night_cycle := Some "day";
     GameState.turn_number := Some 0;
     GameState.players := Some default_players;
     GameState.last_move_at := None |}.

(* ===================================================================== *)
(** ** The process state shared by game_manager.py, websocket_manager.py
       and main.py *)

(** Decoded JSON, as [receive_json] returns it. *)
#[warnings="-register-all"]
Inductive json :=
| JNull
| JBool (b : bool)
| JInt (n : Z)
| JFloat (q : Q)
| JStr (s : string)
| JList (l : list json)
| JDict (d : list (string * json)).

(** The dictionary that [GameRoomInfo.to_json] dumps. *)
Module RoomJson.
Record t := mk {
  id : string;
  name : string;
  player1_id : option string;
  player2_id : option string;
  status : string;
  board_state : GameState.t;
  created_at : Z;
  updated_at : Z
}.
End RoomJson.

(** What the [status] field of a room holds. The default and an assignment
    leave a member of [GameStatus] there; the validation of the model, which
    is configured with [use_enum_values=True], leaves the member's value, a
    plain [str]. *)
Inductive room_status :=
| EnumMember (s : GameStatus)
| EnumValue (s : GameStatus).

(** The text of the field, as [model_dump] and JSON show it. *)
Definition status_text (f : room_status) : string :=
  match f with
  | EnumMember s => GameStatus_value s
  | EnumValue s => GameStatus_value s
  end.

(** [f.value]: a plain [str] has no such attribute. *)
Definition status_value (f : room_status) : result string :=
  match f with
  | EnumMember s => Ok (GameStatus_value s)
  | EnumValue _ => Raise AttributeError
  end.

Module GameRoomInfo.
Record t := mk {
  id : UUID;
  name : string;
  player1_id : option UUID;
  player2_id : option UUID;
  status : room_status;
  board_state : BoardState;
  created_at : Z;
  updated_at : Z
}.
End GameRoomInfo.

(** Messages that leave the server, on a socket or on a Redis channel. *)
Inductive message :=
| ErrorMessage (text : string)
| ServerError (e : exn)
| CriticalError (e : exn)
| GameStateUpdate (state : GameState.t)
| ChatMessage (sender : string) (text : json).

Definition websocket : Type := nat.

(** The [asyncio.Task] of a listener; the field is [Task.done()]. *)
Inductive task := Task (done : bool).

#[global] Instance UUID_countable : Countable UUID.
Proof. by apply (inj_countable' uuid_str Build_UUID); intros []. Defined.

Record World := mkWorld {
  redis : gmap string RoomJson.t;
  published : list (string * message);
  active_connections : gmap UUID (gset websocket);
  _pubsub_listeners : gmap UUID task;
  closed : gset websocket;
  sent : list (websocket * message)
}.

Definition set_redis (v : gmap string RoomJson.t) (w : World) : World :=
  {| redis := v;
     published := published w;
     active_connections := active_connections w;
     _pubsub_listeners := _pubsub_listeners w;
     closed := closed w;
     sent := sent w |}.

Definition set_published (v : list (string * message)) (w : World) : World :=
  {| redis := redis w;
     published := v;
     active_connections := active_connections w;
     _pubsub_listeners := _pubsub_listeners w;
     closed := closed w;
     sent := sent w |}.

Definition set_active_connections (v : gmap UUID (gset websocket)) (w : World) : World :=
  {| redis := redis w;
     published := published w;
     active_connections := v;
     _pubsub_listeners := _pubsub_listeners w;
     closed := closed w;
     sent := sent w |}.

Definition set_pubsub_listeners (v : gmap UUID task) (w : World) : World :=
  {| redis := redis w;
     published := published w;
     active_connections := active_connections w;
     _pubsub_listeners := v;
     closed := closed w;
     sent := sent w |}.

Definition set_sent (v : list (websocket * message)) (w : World) : World :=
  {| redis := redis w;
     published := published w;
     active_connections := active_connections w;
     _pubsub_listeners := _pubsub_listeners w;
     closed := closed w;
     sent := v |}.

(** Code that reads and writes the process state and may raise. *)
Definition io (A : Type) : Type := World → result A * World.

#[global] Instance io_ret : MRet io := λ A a w, (Ok a, w).
#[global] Instance io_bind : MBind io := λ A B f m w,
  match m w with
  | (Ok a, w') => f a w'
  | (Raise e, w') => (Raise e, w')
  end.

#[global] Instance io_fmap : FMap io := λ A B f m w,
  match m w with
  | (Ok a, w') => (Ok (f a), w')
  | (Raise e, w') => (Raise e, w')
  end.

Definition io_raise {A} (e : exn) : io A := λ w, (Raise e, w).
Definition io_lift {A} (r : result A) : io A := λ w, (r, w).
(** [try: body  except Exception as e: handler(e)] *)
Definition io_try {A} (body : io A) (handler : exn → io A) : io A := λ w,
  match body w with
  | (Ok a, w') => (Ok a, w')
  | (Raise e, w') => handler e w'
  end.
Definition io_get : io World := λ w, (Ok w, w).
Definition io_modify (f : World → World) : io unit := λ w, (Ok tt, f w).

(** [await websocket.send_json(message)] *)
Definition send_json (ws : websocket) (m : message) : io unit := λ w,
  if decide (ws ∈ closed w) then (Raise RuntimeError, w)
  else (Ok tt, set_sent (sent w ++ [(ws, m)]) w).

(* ===================================================================== *)
(** ** game_manager.py *)

Section game_manager.
(** [uuid.UUID(hex)] on a string. *)
Variable UUID_of_str : string → result UUID.

(** The record of a room, with the text of its status: what [to_json] dumps
    when it gets that far, and what the dump of the model shows. *)
Definition room_record (self : GameRoomInfo.t) : RoomJson.t :=
  {| RoomJson.id := uuid_str (GameRoomInfo.id self);
     RoomJson.name := GameRoomInfo.name self;
     RoomJson.player1_id := uuid_str <$> GameRoomInfo.player1_id self;
     RoomJson.player2_id := uuid_str <$> GameRoomInfo.player2_id self;
     RoomJson.status := status_text (GameRoomInfo.status self);
     RoomJson.board_state := to_json_serializable (GameRoomInfo.board_state self);
     RoomJson.created_at := GameRoomInfo.created_at self;
     RoomJson.updated_at := GameRoomInfo.updated_at self |}.

(** [GameRoomInfo.to_json]: it reads [self.status.value]. *)
Definition GameRoomInfo_to_json (self : GameRoomInfo.t) : result RoomJson.t :=
  status ← status_value (GameRoomInfo.status self);
  Ok {| RoomJson.id := uuid_str (GameRoomInfo.id self);
        RoomJson.name := GameRoomInfo.name self;
        RoomJson.player1_id := uuid_str <$> GameRoomInfo.player1_id self;
        RoomJson.player2_id := uuid_str <$> GameRoomInfo.player2_id self;
        RoomJson.status := status;
        RoomJson.board_state := to_json_serializable (GameRoomInfo.board_state self);
        RoomJson.created_at := GameRoomInfo.created_at self;
        RoomJson.updated_at := GameRoomInfo.updated_at self |}.

(** [if data[k]: data[k] = uuid.UUID(data[k])]: an empty text is left as it
    is, for the validation of the model to judge. *)
Definition optional_UUID (v : option string) : result (option UUID) :=
  match v with
  | None => Ok None
  | Some s => if decide (s = "") then Ok None else Some <$> UUID_of_str s
  end.

(** The [ValidationError] of the model, a [ValueError]; its text is the
    library's and is not written out. *)
Definition validation_error : exn := ValueError "validation error for GameRoomInfo".

(** [GameRoomInfo.from_json]. The conversions and the construction of the
    board come first; the validation of the model then refuses a player id
    that is still an empty text and a status that is no value of
    [GameStatus], and leaves the value of the status in the field. *)
Definition GameRoomInfo_from_json (data : RoomJson.t) : result GameRoomInfo.t :=
  room_id ← UUID_of_str (RoomJson.id data);
  p1 ← optional_UUID (RoomJson.player1_id data);
  p2 ← optional_UUID (RoomJson.player2_id data);
  bs ← BoardState_init (RoomJson.board_state data);
  if decide (RoomJson.player1_id data = Some "" ∨ RoomJson.player2_id data = Some "")
  then Raise validation_error
  else
    match GameStatus_of_value (RoomJson.status data) with
    | Raise _ => Raise validation_error
    | Ok st =>
        Ok {| GameRoomInfo.id := room_id;
              GameRoomInfo.name := RoomJson.name data;
              GameRoomInfo.player1_id := p1;
              GameRoomInfo.player2_id := p2;
              GameRoomInfo.status := EnumValue st;
              GameRoomInfo.board_state := bs;
              GameRoomInfo.created_at := RoomJson.created_at data;
              GameRoomInfo.updated_at := RoomJson.updated_at data |}
    end.

Definition ROOM_PREFIX : string := "room:".
Definition room_key (room_id : UUID) : string := ROOM_PREFIX +:+ uuid_str room_id.

(** [self.redis.set(key, room.to_json())]: nothing is written when [to_json]
    raises. *)
Definition redis_set_room (room : GameRoomInfo.t) : io unit :=
  room_data ← io_lift (GameRoomInfo_to_json room);
  io_modify (λ w, set_redis
    (<[room_key (GameRoomInfo.id room) := room_data]> (redis w)) w).

(** [initial_board_state_data["players"]["white"] = v] on the copy of
    [INITIAL_GAME_STATE]. *)
Definition with_white_player (v : string) (d : GameState.t) : GameState.t :=
  {| GameState.board_size := GameState.board_size d;
     GameState.board_pieces := GameState.board_pieces d;
     GameState.current_player := GameState.current_player d;
     GameState.white_hand := GameState.white_hand d;
     GameState.black_hand := GameState.black_hand d;
     GameState.white_double_add := GameState.white_double_add d;
     GameState.black_double_add := GameState.black_double_add d;
     GameState.game_log := GameState.game_log d;
     GameState.moves_log := GameState.moves_log d;
     GameState.cards_count := GameState.cards_count d;
     GameState.game_status := GameState.game_status d;
     GameState.day_night_cycle := GameState.day_night_cycle d;
     GameState.turn_number := GameState.turn_number d;
     GameState.players :=
       (λ ps, <["white" := Some v]> ps) <$> GameState.players d;
     GameState.last_move_at := GameState.last_move_at d |}.

(** [new_id] is the [uuid4()] drawn for the room; [t_created] and [t_updated]
    are the clock readings of the two timestamp defaults. *)
Definition create_room (gen : nat → string) (new_id : UUID) (room_name : string)
    (player1_id : UUID) (t_created t_updated : timestamp) : io GameRoomInfo.t :=
  let initial_board_state_data :=
    with_white_player (uuid_str player1_id) (INITIAL_GAME_STATE gen) in
  board_state ← io_lift (BoardState_init initial_board_state_data);
  let room :=
    {| GameRoomInfo.id := new_id;
       GameRoomInfo.name := room_name;
       GameRoomInfo.player1_id := Some player1_id;
       GameRoomInfo.player2_id := None;
       GameRoomInfo.status := EnumMember WAITING;
       GameRoomInfo.board_state := board_state;
       GameRoomInfo.created_at := int_of_timestamp t_created;
       GameRoomInfo.updated_at := int_of_timestamp t_updated |} in
  redis_set_room room;;
  mret room.

Definition get_room (room_id : UUID) : io (option GameRoomInfo.t) :=
  w ← io_get;
  match redis w !! room_key room_id with
  | Some room_data => Some <$> io_lift (GameRoomInfo_from_json room_data)
  | None => mret None
  end.

Definition with_board_state (bs : BoardState) (room : GameRoomInfo.t) : GameRoomInfo.t :=
  {| GameRoomInfo.id := GameRoomInfo.id room;
     GameRoomInfo.name := GameRoomInfo.name room;
     GameRoomInfo.player1_id := GameRoomInfo.player1_id room;
     GameRoomInfo.player2_id := GameRoomInfo.player2_id room;
     GameRoomInfo.status := GameRoomInfo.status room;
     GameRoomInfo.board_state := bs;
     GameRoomInfo.created_at := GameRoomInfo.created_at room;
     GameRoomInfo.updated_at := GameRoomInfo.updated_at room |}.

Definition with_updated_at (t : Z) (room : GameRoomInfo.t) : GameRoomInfo.t :=
  {| GameRoomInfo.id := GameRoomInfo.id room;
     GameRoomInfo.name := GameRoomInfo.name room;
     GameRoomInfo.player1_id := GameRoomInfo.player1_id room;
     GameRoomInfo.player2_id := GameRoomInfo.player2_id room;
     GameRoomInfo.status := GameRoomInfo.status room;
     GameRoomInfo.board_state := GameRoomInfo.board_state room;
     GameRoomInfo.created_at := GameRoomInfo.created_at room;
     GameRoomInfo.updated_at := t |}.

(** [room.status = s] for a member [s] of [GameStatus]. *)
Definition with_status (s : GameStatus) (room : GameRoomInfo.t) : GameRoomInfo.t :=
  {| GameRoomInfo.id := GameRoomInfo.id room;
     GameRoomInfo.name := GameRoomInfo.name room;
     GameRoomInfo.player1_id := GameRoomInfo.player1_id room;
     GameRoomInfo.player2_id := GameRoomInfo.player2_id room;
     GameRoomInfo.status := EnumMember s;
     GameRoomInfo.board_state := GameRoomInfo.board_state room;
     GameRoomInfo.created_at := GameRoomInfo.created_at room;
     GameRoomInfo.updated_at := GameRoomInfo.updated_at room |}.

Definition with_player2_id (p : option UUID) (room : GameRoomInfo.t) : GameRoomInfo.t :=
  {| GameRoomInfo.id := GameRoomInfo.id room;
     GameRoomInfo.name := GameRoomInfo.name room;
     GameRoomInfo.player1_id := GameRoomInfo.player1_id room;
     GameRoomInfo.player2_id := p;
     GameRoomInfo.status := GameRoomInfo.status room;
     GameRoomInfo.board_state := GameRoomInfo.board_state room;
     GameRoomInfo.created_at := GameRoomInfo.created_at room;
     GameRoomInfo.updated_at := GameRoomInfo.updated_at room |}.

Definition join_room (room_id player2_id : UUID) (now : timestamp)
    : io (option GameRoomInfo.t) :=
  found ← get_room room_id;
  match found with
  | None => mret None
  | Some room =>
      if decide (GameRoomInfo.player2_id room ≠ None) then
        io_raise (ValueError "Room is already full.")
      else if decide (GameRoomInfo.player1_id room = Some player2_id) then
        io_raise (ValueError "Player is already player1 in this room.")
      else
        let room := with_player2_id (Some player2_id) room in
        let room := with_status IN_PROGRESS room in
        let room := with_updated_at (int_of_timestamp now) room in
        let room := with_board_state
          (set_players (<["black" := Some (uuid_str player2_id)]>
                          (players (GameRoomInfo.board_state room)))
             (GameRoomInfo.board_state room)) room in
        redis_set_room room;;
        mret (Some room)
  end.

Definition update_room_state (room_id : UUID) (updated_board_state_obj : BoardState)
    (now : timestamp) : io (option GameRoomInfo.t) :=
  found ← get_room room_id;
  match found with
  | None => mret None
  | Some room =>
      let room := with_board_state updated_board_state_obj room in
      let room := with_updated_at (int_of_timestamp now) room in
      redis_set_room room;;
      mret (Some room)
  end.

Definition msg_resigned (player_id : UUID) : string :=
  "Player " +:+ uuid_str player_id +:+ " resigned the game.".

(** [str(room.player1_id)]; the text of [None] is ["None"]. *)
Definition str_optional_UUID (v : option UUID) : string :=
  match v with Some u => uuid_str u | None => "None" end.

Definition surrender_room (room_id player_id : UUID) (now : timestamp)
    : io (option GameRoomInfo.t) :=
  found ← get_room room_id;
  match found with
  | None => mret None
  | Some room =>
      if decide (uuid_str player_id ≠ str_optional_UUID (GameRoomInfo.player1_id room)
                 ∧ uuid_str player_id ≠ str_optional_UUID (GameRoomInfo.player2_id room)) then
        io_raise (ValueError "Player is not a participant of this room.")
      else
        let room := with_status RESIGNED room in
        let room := with_board_state
          (append_game_log (msg_resigned player_id)
             (set_game_status RESIGNED (GameRoomInfo.board_state room))) room in
        let room := with_updated_at (int_of_timestamp now) room in
        redis_set_room room;;
        mret (Some room)
  end.

End game_manager.

(* ===================================================================== *)
(** ** websocket_manager.py *)

Definition connect (ws : websocket) (room_id : UUID) : io unit :=
  io_modify (λ w,
    let conns := default ∅ (active_connections w !! room_id) in
    let w := set_active_connections
               (<[room_id := {[ws]} ∪ conns]> (active_connections w)) w in
    match _pubsub_listeners w !! room_id with
    | Some (Task false) => w
    | _ => set_pubsub_listeners (<[room_id := Task false]> (_pubsub_listeners w)) w
    end).

(** [cancel()] and [del] of the listener of a room, when there is one. *)
Definition stop_listener (room_id : UUID) (w : World) : World :=
  match _pubsub_listeners w !! room_id with
  | Some _ => set_pubsub_listeners (delete room_id (_pubsub_listeners w)) w
  | None => w
  end.

Definition disconnect (ws : websocket) (room_id : UUID) : io unit := λ w,
  match active_connections w !! room_id with
  | Some conns =>
      (* [set.remove] raises when the element is absent *)
      if decide (ws ∈ conns) then
        let conns := conns ∖ {[ws]} in
        let w := set_active_connections
                   (<[room_id := conns]> (active_connections w)) w in
        if decide (conns = ∅) then
          (Ok tt, stop_listener room_id
                    (set_active_connections (delete room_id (active_connections w)) w))
        else (Ok tt, w)
      else (Raise KeyError, w)
  | None => (Ok tt, w)
  end.

(** The sending loop of [broadcast]; the result is [closed_websockets]. *)
Fixpoint send_each (connections : list websocket) (m : message) : io (list websocket) :=
  match connections with
  | [] => mret []
  | connection :: rest =>
      failed ← io_try (send_json connection m;; mret false) (λ _, mret true);
      closed_websockets ← send_each rest m;
      mret (if failed : bool then connection :: closed_websockets else closed_websockets)
  end.

(** The clean-up loop of [broadcast]. *)
Definition remove_each (closed_websockets : list websocket) (conns : gset websocket)
    : gset websocket :=
  foldl (λ s ws, if decide (ws ∈ s) then s ∖ {[ws]} else s) conns closed_websockets.

Definition broadcast (room_id : UUID) (m : message) : io unit :=
  w ← io_get;
  match active_connections w !! room_id with
  | Some conns =>
      closed_websockets ← send_each (elements conns) m;
      io_modify (λ w,
        let conns := remove_each closed_websockets conns in
        let w := set_active_connections
                   (<[room_id := conns]> (active_connections w)) w in
        if decide (conns = ∅) then stop_listener room_id w else w)
  | None => mret tt
  end.

Definition channel_name (room_id : UUID) : string := "game_updates:" +:+ uuid_str room_id.

Definition publish_to_redis_channel (room_id : UUID) (m : message) : io unit :=
  io_modify (λ w, set_published (published w ++ [(channel_name room_id, m)]) w).

(* ===================================================================== *)
(** ** main.py *)

(** [j[k]] *)
Definition py_getitem (j : json) (k : string) : result json :=
  match j with
  | JDict d => match dict_get k d with Some v => Ok v | None => Raise KeyError end
  | _ => Raise TypeError
  end.

(** [j.get(k, dflt)] *)
Definition py_get (j : json) (k : string) (dflt : json) : result json :=
  match j with
  | JDict d => Ok (default dflt (dict_get k d))
  | _ => Raise AttributeError
  end.

Definition truthy (j : json) : bool :=
  match j with
  | JNull => false
  | JBool b => b
  | JInt n => negb (n =? 0)
  | JFloat q => negb (Qeq_bool q 0)
  | JStr s => negb (bool_decide (s = ""))
  | JList l => negb (bool_decide (length l = 0%nat))
  | JDict d => negb (bool_decide (length d = 0%nat))
  end.

Definition is_None (j : json) : bool :=
  match j with JNull => true | _ => false end.

(** [j == s] for a string literal [s] *)
Definition eq_str (j : json) (s : string) : bool :=
  match j with JStr s' => bool_decide (s' = s) | _ => false end.

(** What [receive_json] delivers while the connection is open. *)
Inductive received :=
| Decoded (message : json)
| Undecodable.

(** The outcome of a move frame up to the assignment of
    [player_making_move_id]. *)
Inductive parsed_move :=
| MissingParameters
| InvalidPlayerId
| ParseFails (e : exn)
| Parsed (figure_id new_row new_col : json) (player_making_move_id : UUID).

(** How far the loop of a connection got. *)
Inductive served :=
| StillOpen
| Ended (r : result unit).

Section main.
Variable UUID_of_str : string → result UUID.
(** [move_piece] called with arguments outside its annotations (a figure id
    that is not a string, a coordinate that is not an integer). *)
Variable move_piece_untyped :
  json → json → json → UUID → timestamp → BoardState → result BoardState.

(** [uuid.UUID(v)]: a value that is not a string has no [replace]. *)
Definition UUID_of_json (v : json) : result UUID :=
  match v with JStr s => UUID_of_str s | _ => Raise AttributeError end.

Definition move_parameters (message : json) : result (json * json * json * json) :=
  payload ← py_getitem message "payload";
  figure_id ← py_get payload "figure_id" JNull;
  new_row ← py_get payload "new_row" JNull;
  new_col ← py_get payload "new_col" JNull;
  player_making_move_id_str ← py_get payload "player_id" JNull;
  Ok (figure_id, new_row, new_col, player_making_move_id_str).

Definition parse_move (message : json) : parsed_move :=
  match move_parameters message with
  | Raise e => ParseFails e
  | Ok (figure_id, new_row, new_col, player_making_move_id_str) =>
      if negb (truthy figure_id && negb (is_None new_row) && negb (is_None new_col)
               && truthy player_making_move_id_str)
      then MissingParameters
      else
        match UUID_of_json player_making_move_id_str with
        | Ok player_making_move_id =>
            Parsed figure_id new_row new_col player_making_move_id
        | Raise (ValueError _) => InvalidPlayerId
        | Raise e => ParseFails e
        end
  end.

(** The move branch from the reload of the room to its end. *)
Definition process_move (ws : websocket) (room_id : UUID)
    (figure_id new_row new_col : json) (player_making_move_id : UUID)
    (t_move t_store : timestamp) : io unit :=
  room_before_move ← get_room UUID_of_str room_id;
  match room_before_move with
  | None =>
      send_json ws
        (ErrorMessage "Game room not found during move processing. Disconnecting.");;
      disconnect ws room_id
  | Some room =>
      board_state ← io_lift
        match figure_id, new_row, new_col with
        | JStr f, JInt r, JInt c =>
            move_piece f r c player_making_move_id t_move (GameRoomInfo.board_state room)
        | _, _, _ =>
            move_piece_untyped figure_id new_row new_col player_making_move_id t_move
              (GameRoomInfo.board_state room)
        end;
      update_room_state UUID_of_str room_id board_state t_store;;
      publish_to_redis_channel room_id
        (GameStateUpdate (to_json_serializable board_state));;
      let last_log_entry := List.last (game_log board_state) "" in
      if str_contains "Error:" last_log_entry
      then send_json ws (ErrorMessage last_log_entry)
      else mret tt
  end.

(** The sender of a chat message: [player_making_move_id] when the name is
    bound in [locals()]. *)
Definition sender_id (local : option UUID) : string :=
  match local with Some u => uuid_str u | None => "Anonymous" end.

Definition process_chat (ws : websocket) (room_id : UUID) (message : json)
    (local : option UUID) : io unit :=
  payload ← io_lift (py_get message "payload" (JDict []));
  message_text ← io_lift (py_get payload "message" JNull);
  if negb (truthy message_text)
  then send_json ws (ErrorMessage "Chat message cannot be empty.")
  else publish_to_redis_channel room_id (ChatMessage (sender_id local) message_text).

(** The body of the inner [try] for one decoded frame. [local] is the binding
    of [player_making_move_id] before the frame; the first component of the
    result is the binding after it. *)
Definition on_message (ws : websocket) (room_id : UUID) (message : json)
    (t_move t_store : timestamp) (local : option UUID) (w : World)
    : option UUID * (result unit * World) :=
  match py_getitem message "type" with
  | Raise e => (local, (Raise e, w))
  | Ok type =>
      if eq_str type "move" then
        match parse_move message with
        | MissingParameters =>
            (local, send_json ws (ErrorMessage
               "Missing move parameters (figure_id, new_row, new_col, player_id).") w)
        | InvalidPlayerId =>
            (local, send_json ws (ErrorMessage "Invalid player_id format.") w)
        | ParseFails e => (local, (Raise e, w))
        | Parsed figure_id new_row new_col player_making_move_id =>
            (Some player_making_move_id,
             process_move ws room_id figure_id new_row new_col player_making_move_id
               t_move t_store w)
        end
      else if eq_str type "chat_message" then
        (local, process_chat ws room_id message local w)
      else (local, send_json ws (ErrorMessage "Unknown message type.") w)
  end.

(** One turn of the [while True] loop: the inner [try] with its two handlers. *)
Definition on_received (ws : websocket) (room_id : UUID) (r : received)
    (t_move t_store : timestamp) (local : option UUID) (w : World)
    : option UUID * (result unit * World) :=
  match r with
  | Undecodable => (local, send_json ws (ErrorMessage "Invalid JSON format.") w)
  | Decoded message =>
      match on_message ws room_id message t_move t_store local w with
      | (local', (Ok _, w')) => (local', (Ok tt, w'))
      | (local', (Raise e, w')) => (local', send_json ws (ServerError e) w')
      end
  end.

(** The outer handler: an exception that leaves a turn of the loop. *)
Definition on_critical_error (ws : websocket) (room_id : UUID) (e : exn) : io unit :=
  send_json ws (CriticalError e);;
  disconnect ws room_id.

(** The loop over the frames received while the connection is open, each with
    the two clock readings of its processing. The loop is [StillOpen] when it
    has processed every frame; it has [Ended] when an exception left a turn
    and the outer handler ran, with the result of that handler. *)
Fixpoint serve (ws : websocket) (room_id : UUID)
    (frames : list (received * timestamp * timestamp)) (local : option UUID)
    (w : World) : option UUID * (served * World) :=
  match frames with
  | [] => (local, (StillOpen, w))
  | (r, t_move, t_store) :: rest =>
      match on_received ws room_id r t_move t_store local w with
      | (local', (Ok _, w')) => serve ws room_id rest local' w'
      | (local', (Raise e, w')) =>
          let '(r, w'') := on_critical_error ws room_id e w' in
          (local', (Ended r, w''))
      end
  end.

Definition websocket_endpoint (ws : websocket) (room_id : UUID)
    (frames : list (received * timestamp * timestamp)) : io unit :=
  connect ws room_id;;
  room ← get_room UUID_of_str room_id;
  match room with
  | None =>
      send_json ws (ErrorMessage "Game room not found. Disconnecting.");;
      disconnect ws room_id
  | Some _ =>
      (λ w, match (serve ws room_id frames None w).2 with
            | (StillOpen, w') => (Ok tt, w')
            | (Ended r, w') => (r, w')
            end) : io unit
  end.

End main.

(* ===================================================================== *)
(** ** Further operations of board_state.py and game_manager.py *)

(** [BoardState.clone]: the dictionary it builds has no "board_size" key and
    holds copies of the lists. *)
Definition clone (self : BoardState) : result BoardState :=
  BoardState_init
    {| GameState.board_size := None;
       GameState.board_pieces :=
         Some (objects self <$> dict_values (_figure_id_to_piece_map self));
       GameState.current_player := Some (current_player self);
       GameState.white_hand := Some (white_hand self);
       GameState.black_hand := Some (black_hand self);
       GameState.white_double_add := Some (white_double_add self);
       GameState.black_double_add := Some (black_double_add self);
       GameState.game_log := Some (game_log self);
       GameState.moves_log := Some (moves_log self);
       GameState.cards_count := Some (cards_count self);
       GameState.game_status := Some (GameStatus_value (game_status self));
       GameState.day_night_cycle := Some (day_night_cycle self);
       GameState.turn_number := Some (turn_number self);
       GameState.players := Some (players self);
       GameState.last_move_at := last_move_at self |}.

(** A key that matches the pattern ["room:*"]. *)
Definition is_room_key (k : string) : bool := String.prefix ROOM_PREFIX k.

(** The loop of [get_all_rooms] over the keys that [redis.keys] returned. *)
Fixpoint read_rooms (UUID_of_str : string → result UUID) (redis_keys : list string)
    (w : World) : result (list GameRoomInfo.t) :=
  match redis_keys with
  | [] => Ok []
  | key :: rest =>
      match redis w !! key with
      | Some room_data =>
          room ← GameRoomInfo_from_json UUID_of_str room_data;
          rooms ← read_rooms UUID_of_str rest w;
          Ok (room :: rooms)
      | None => read_rooms UUID_of_str rest w
      end
  end.

(** [GameManager.get_all_rooms]; [redis_keys] is the list that
    [redis.keys("room:*")] returned, in the order Redis chose. *)
Definition get_all_rooms (UUID_of_str : string → result UUID)
    (redis_keys : list string) : io (list GameRoomInfo.t) :=
  w ← io_get; io_lift (read_rooms UUID_of_str redis_keys w).

(** [GameManager.delete_all_rooms] *)
Definition delete_all_rooms : io unit :=
  io_modify (λ w,
    set_redis (filter (λ kv, is_room_key kv.1 = false) (redis w)) w).

(* ===================================================================== *)
(** ** api/rooms.py *)

(** [s.replace(old, new)] for a non-empty [old]; [skip] counts the characters
    of the occurrence being replaced that are still to be passed over. *)
Fixpoint str_replace_from (skip : nat) (old new s : string) : string :=
  match s with
  | EmptyString => EmptyString
  | String c s' =>
      match skip with
      | S k => str_replace_from k old new s'
      | O =>
          if String.prefix old s
          then new +:+ str_replace_from (String.length old - 1) old new s'
          else String c (str_replace_from 0 old new s')
      end
  end.

Definition str_replace (old new s : string) : string := str_replace_from 0 old new s.

(** The "room_update" message that the join endpoint publishes. *)
Record room_update := mkRoomUpdate {
  update_room_id : string;
  update_status : string;
  update_player1_id : string;
  update_player2_id : string;
  update_board_state : GameState.t;
  update_message : string
}.

(** The body of a [RoomInfoResponse]. *)
Module RoomInfoResponse.
Record t := mk {
  id : string;
  name : string;
  status : string;
  player1_id : option string;
  player2_id : option string
}.
End RoomInfoResponse.

(** What leaves an endpoint in place of a return value: an exception of the
    modules above that nothing catches, or an [HTTPException]. *)
Inductive api_exn :=
| Unhandled (e : exn)
| HTTPException (status_code : Z) (detail : string).

Inductive answer (A : Type) :=
| Returned (body : A)
| Failed (e : api_exn).
Arguments Returned {A} body.
Arguments Failed {A} e.

(** The process state together with the room updates published so far. *)
Record ApiWorld := mkApiWorld {
  process : World;
  room_updates : list (string * room_update)
}.

Definition api (A : Type) : Type := ApiWorld → answer A * ApiWorld.

#[global] Instance api_ret : MRet api := λ A a w, (Returned a, w).
#[global] Instance api_bind : MBind api := λ A B f m w,
  match m w with
  | (Returned a, w') => f a w'
  | (Failed e, w') => (Failed e, w')
  end.

Definition api_raise {A} (e : api_exn) : api A := λ w, (Failed e, w).

(** A call into the modules above. *)
Definition api_call {A} (m : io A) : api A := λ w,
  match m (process w) with
  | (Ok a, p) => (Returned a, {| process := p; room_updates := room_updates w |})
  | (Raise e, p) =>
      (Failed (Unhandled e), {| process := p; room_updates := room_updates w |})
  end.

(** [websocket_manager.publish_to_redis_channel] with a room update. *)
Definition publish_room_update (room_id : UUID) (m : room_update) : api unit := λ w,
  (Returned tt,
   {| process := process w;
      room_updates := room_updates w ++ [(channel_name room_id, m)] |}).

Module rooms.
Section router.
Variable UUID_of_str : string → result UUID.
(** [str(e)], the text of an exception. *)
Variable str_exception : api_exn → string.

(** [try: body  except ValueError as e: raise HTTPException(400, str(e))
    except Exception as e: raise HTTPException(500, ...)]; the text of a
    [ValueError] is its message. *)
Definition guarded {A} (body : api A) : api A := λ w,
  match body w with
  | (Returned a, w') => (Returned a, w')
  | (Failed (Unhandled (ValueError msg)), w') => (Failed (HTTPException 400 msg), w')
  | (Failed e, w') =>
      (Failed (HTTPException 500
                 ("An unexpected error occurred: " +:+ str_exception e)), w')
  end.

(** The body that FastAPI sends for [room_data]: the dump of the room with
    its board serialised, through [FullGameInfoResponse]. *)
Definition room_data (room : GameRoomInfo.t) : RoomJson.t :=
  room_record room.

(** [player1_id] is the [uuid4()] drawn for the creator. *)
Definition create_room (gen : nat → string) (new_id : UUID) (room_name : string)
    (player1_id : UUID) (t_created t_updated : timestamp) : api RoomJson.t :=
  new_room ← api_call
    (create_room gen new_id room_name player1_id t_created t_updated);
  mret (room_data new_room).

Definition get_rooms (redis_keys : list string) : api (list RoomInfoResponse.t) :=
  rooms ← api_call (get_all_rooms UUID_of_str redis_keys);
  mret ((λ room,
           {| RoomInfoResponse.id := uuid_str (GameRoomInfo.id room);
              RoomInfoResponse.name := GameRoomInfo.name room;
              RoomInfoResponse.status := status_text (GameRoomInfo.status room);
              RoomInfoResponse.player1_id := uuid_str <$> GameRoomInfo.player1_id room;
              RoomInfoResponse.player2_id := uuid_str <$> GameRoomInfo.player2_id room
           |}) <$> rooms).

Definition get_room_info (room_id : UUID) : api RoomJson.t :=
  room ← api_call (get_room UUID_of_str room_id);
  match room with
  | None => api_raise (HTTPException 404 "Room not found.")
  | Some room => mret (room_data room)
  end.

(** [player2_id] is the [uuid4()] drawn for the joining player. *)
Definition join_room (room_id player2_id : UUID) (now : timestamp) : api RoomJson.t :=
  guarded
    (updated_room ← api_call (join_room UUID_of_str room_id player2_id now);
     match updated_room with
     | None => api_raise (HTTPException 404 "Room not found.")
     | Some updated_room =>
         status ← api_call (io_lift (status_value (GameRoomInfo.status updated_room)));
         publish_room_update room_id
           {| update_room_id := uuid_str (GameRoomInfo.id updated_room);
              update_status := status;
              update_player1_id :=
                str_optional_UUID (GameRoomInfo.player1_id updated_room);
              update_player2_id :=
                str_optional_UUID (GameRoomInfo.player2_id updated_room);
              update_board_state :=
                to_json_serializable (GameRoomInfo.board_state updated_room);
              update_message :=
                "Player " +:+ uuid_str player2_id +:+ " joined the room." |};;
         mret (room_data updated_room)
     end).

Definition make_move (room_id : UUID) (figure_id : string) (new_row new_col : Z)
    (player_id : UUID) (t_move t_store : timestamp) : api RoomJson.t :=
  room ← api_call (get_room UUID_of_str room_id);
  match room with
  | None => api_raise (HTTPException 404 "Game not found.")
  | Some room =>
      updated_board_state ← api_call (io_lift
        (move_piece figure_id new_row new_col player_id t_move
           (GameRoomInfo.board_state room)));
      let last_entry := List.last (game_log updated_board_state) "" in
      if bool_decide (game_log updated_board_state ≠ [])
         && str_contains "Error:" last_entry
      then
        api_call (update_room_state UUID_of_str room_id updated_board_state t_store);;
        api_raise (HTTPException 400 (str_replace "Error: " "" last_entry))
      else
        updated_room ← api_call
          (update_room_state UUID_of_str room_id updated_board_state t_store);
        match updated_room with
        | Some updated_room =>
            api_call (publish_to_redis_channel room_id
              (GameStateUpdate
                 (to_json_serializable (GameRoomInfo.board_state updated_room))));;
            mret (room_data updated_room)
        | None => api_raise (HTTPException 500 "Failed to update game state.")
        end
  end.

(** The endpoint returns [None] when [surrender_room] does. *)
Definition surrender_game (room_id player_id : UUID) (now : timestamp)
    : api (option RoomJson.t) :=
  room ← api_call (get_room UUID_of_str room_id);
  match room with
  | None => api_raise (HTTPException 404 "Game not found.")
  | Some _ =>
      guarded
        (updated_room ← api_call (surrender_room UUID_of_str room_id player_id now);
         match updated_room with
         | Some updated_room =>
             api_call (publish_to_redis_channel room_id
               (GameStateUpdate
                  (to_json_serializable (GameRoomInfo.board_state updated_room))));;
             mret (Some (room_data updated_room))
         | None => mret None
         end)
  end.

Definition clear_all_rooms : api string := λ w,
  match api_call delete_all_rooms w with
  | (Returned _, w') => (Returned "All rooms cleared.", w')
  | (Failed e, w') =>
      (Failed (HTTPException 500
                 ("Failed to clear all rooms: " +:+ str_exception e)), w')
  end.

End router.
End rooms.

(* ===================================================================== *)
(** ** The statements of the specification *)

Definition board_shape (b : list (list (option Piece))) : Prop :=
  length b = 8%nat ∧ Forall (λ cells, length cells = 8%nat) b.

Definition on_the_board (p : Piece) : Prop :=
  0 ≤ row p < 8 ∧ 0 ≤ col p < 8.

(** The representation invariant of a board. *)
Record wf (st : BoardState) : Prop := {
  wf_shape : board_shape (board st);
  wf_keys : NoDup (_figure_id_to_piece_map st).*1;
  wf_ids : ∀ fid piece,
    dict_get fid (_figure_id_to_piece_map st) = Some piece →
    figure_id (objects st piece) = fid ∧ on_the_board (objects st piece);
  wf_coord : ∀ k piece,
    _coord_to_piece_map st !! k = Some piece →
    k = coord_key (row (objects st piece)) (col (objects st piece)) ∧
    dict_get (figure_id (objects st piece)) (_figure_id_to_piece_map st) = Some piece ∧
    board_at (board st) (row (objects st piece)) (col (objects st piece))
      = Some (objects st piece);
  wf_board : ∀ r c p,
    board_at (board st) r c = Some p →
    ∃ piece, _coord_to_piece_map st !! coord_key r c = Some piece ∧
             objects st piece = p
}.

(** Every piece of the id index stands on the grid. *)
Definition all_on_board (st : BoardState) : Prop :=
  ∀ fid piece,
    dict_get fid (_figure_id_to_piece_map st) = Some piece →
    _coord_to_piece_map st !! coord_key (row (objects st piece)) (col (objects st piece))
      = Some piece.

(** The board after [_remove_piece_from_board piece], given the grid [b] that
    the removal leaves. *)
Definition removed (piece : ref) (b : list (list (option Piece))) (st : BoardState)
    : BoardState :=
  let p := objects st piece in
  set_figure_id_to_piece_map
    (dict_del (figure_id p) (_figure_id_to_piece_map st))
    (set_coord_to_piece_map
       (delete (coord_key (row p) (col p)) (_coord_to_piece_map st))
       (set_board b st)).

(** The board after the tail of [move_piece], given the grid [b] that it
    leaves. *)
Definition executed (piece : ref) (old_row old_col new_row new_col : Z)
    (now : timestamp) (b : list (list (option Piece))) (st : BoardState)
    : BoardState :=
  let p := piece_moved_to new_row new_col (objects st piece) in
  let next_player := if decide (current_player st = "white") then "black" else "white" in
  append_game_log
    (msg_successful_move p old_row old_col new_row new_col next_player)
    (set_last_move_at (Some now)
       (set_turn_number (turn_number st + 1)
          (set_current_player next_player
             (set_moves_log
                (moves_log st ++
                   [msg_move_record (current_player st) p old_row old_col new_row new_col])
                (set_board b
                   (set_coord_to_piece_map
                      (<[coord_key new_row new_col := piece]>
                         (delete (coord_key old_row old_col) (_coord_to_piece_map st)))
                      (set_objects (<[piece := p]> (objects st)) st))))))).

(** The six validation checks of a move request, in the words of the
    specification, and the order in which it lists them. *)
Inductive check :=
| PieceExists | PlayerBound | InTurn | OwnColor | InBounds | TargetNotOwn.

#[global] Instance check_eq_dec : EqDecision check.
Proof. solve_decision. Defined.

Definition validation_order : list check :=
  [PieceExists; PlayerBound; InTurn; OwnColor; InBounds; TargetNotOwn].

Section checks.
Variables (fid : string) (new_row new_col : Z) (player : UUID) (self : BoardState).

Definition requested_piece : option Piece :=
  objects self <$> dict_get fid (_figure_id_to_piece_map self).

Definition target_piece : option Piece :=
  objects self <$> _get_piece_at new_row new_col self.

Definition check_passes (k : check) : bool :=
  match k with
  | PieceExists => bool_decide (is_Some requested_piece)
  | PlayerBound => bool_decide (is_Some (actual_player_color player self))
  | InTurn =>
      bool_decide (actual_player_color player self = Some (current_player self))
  | OwnColor =>
      bool_decide (color <$> requested_piece = actual_player_color player self)
  | InBounds => bool_decide (0 ≤ new_row ≤ 7 ∧ 0 ≤ new_col ≤ 7)
  | TargetNotOwn =>
      match target_piece, requested_piece with
      | Some t, Some p => bool_decide (color t ≠ color p)
      | _, _ => true
      end
  end.

(** The first check of the list that the request fails. *)
Definition first_failed_check : option check :=
  List.find (λ k, negb (check_passes k)) validation_order.
End checks.

(** [e] is the log line that the failure of check [k] writes. *)
Definition error_of (k : check) (e : string) : Prop :=
  match k with
  | PieceExists => ∃ fid, e = msg_piece_not_found fid
  | PlayerBound => ∃ player, e = msg_not_registered player
  | InTurn => ∃ current actual, e = msg_out_of_turn current actual
  | OwnColor =>
      ∃ actual piece_color,
        (actual = "white" ∨ actual = "black") ∧ e = msg_wrong_color actual piece_color
  | InBounds => ∃ r c p, e = msg_invalid_coordinates r c p
  | TargetNotOwn => ∃ r c target, e = msg_own_piece r c target
  end.

(** The mark by which callers recognise a rejection: ["Error:" in entry]. *)
Definition error_tagged (e : string) : bool := str_contains "Error:" e.

(** What the two indexes hold, with the objects read through the store. *)
Definition id_view (st : BoardState) : list (string * Piece) :=
  (λ e, (e.1, objects st e.2)) <$> _figure_id_to_piece_map st.

Definition coord_view (st : BoardState) : gmap string Piece :=
  objects st <$> _coord_to_piece_map st.

Definition position (p : Piece) : Z * Z := (row p, col p).

(** The references of the id index are among the first [n] allocated. *)
Definition refs_below (n : nat) (st : BoardState) : Prop :=
  ∀ fid piece,
    dict_get fid (_figure_id_to_piece_map st) = Some piece → (piece < n)%nat.

(** The fields of a board other than the grid, the indexes and the store. *)
Definition scalars (st : BoardState) :=
  (current_player st, white_hand st, black_hand st, white_double_add st,
   black_double_add st, game_log st, moves_log st, cards_count st,
   game_status st, day_night_cycle st, turn_number st, players st,
   last_move_at st).

(** One turn of the loop of [__init__], given the grid [b] that it leaves. *)
Definition placed (piece_data : Piece) (next : ref) (b : list (list (option Piece)))
    (st : BoardState) : BoardState :=
  set_coord_to_piece_map
    (<[coord_key (row piece_data) (col piece_data) := next]> (_coord_to_piece_map st))
    (set_figure_id_to_piece_map
       (dict_set (figure_id piece_data) next (_figure_id_to_piece_map st))
       (set_board b (set_objects (<[next := piece_data]> (objects st)) st))).

(** Grid/index consistency, in the words of the specification: a piece
    occupies the cell (r,c) of the grid iff the coordinate index maps "r_c" to
    it and the id index maps its figure id to a piece at (r,c). *)
Definition grid_index_consistent (st : BoardState) : Prop :=
  ∀ r c p,
    board_at (board st) r c = Some p ↔
    ∃ piece,
      _coord_to_piece_map st !! coord_key r c = Some piece ∧
      objects st piece = p ∧
      ∃ piece',
        dict_get (figure_id p) (_figure_id_to_piece_map st) = Some piece' ∧
        row (objects st piece') = r ∧ col (objects st piece') = c.

(** The grid and both indexes agree on every piece's position: besides the
    equivalence above, every piece of the id index is filed under its own
    figure id, stands on the grid at its row and column and is the coordinate
    entry of that cell; and every entry of the coordinate index is keyed by
    the row and column of its piece, which stands on the grid there and is the
    entry of the id index for its figure id. *)
Definition id_index_on_grid (st : BoardState) : Prop :=
  ∀ fid piece,
    dict_get fid (_figure_id_to_piece_map st) = Some piece →
    let p := objects st piece in
    figure_id p = fid ∧
    board_at (board st) (row p) (col p) = Some p ∧
    _coord_to_piece_map st !! coord_key (row p) (col p) = Some piece.

Definition coord_index_on_grid (st : BoardState) : Prop :=
  ∀ k piece,
    _coord_to_piece_map st !! k = Some piece →
    let p := objects st piece in
    k = coord_key (row p) (col p) ∧
    board_at (board st) (row p) (col p) = Some p ∧
    dict_get (figure_id p) (_figure_id_to_piece_map st) = Some piece.

Definition positions_agree (st : BoardState) : Prop :=
  grid_index_consistent st ∧ id_index_on_grid st ∧ coord_index_on_grid st.

(** Initial data whose pieces have pairwise distinct figure ids and stand on
    the board. *)
Definition distinct_on_board (ps : list Piece) : Prop :=
  NoDup (figure_id <$> ps) ∧ Forall on_the_board ps.

(** The boards that the operations of [BoardState] produce from the data [d]. *)
Inductive reachable_from (d : GameState.t) : BoardState → Prop :=
| from_init st :
    BoardState_init d = Ok st → reachable_from d st
| from_move st st' fid new_row new_col player now :
    reachable_from d st →
    move_piece fid new_row new_col player now st = Ok st' →
    reachable_from d st'
| from_remove st st' k piece :
    reachable_from d st →
    _coord_to_piece_map st !! k = Some piece →
    _remove_piece_from_board piece st = Ok st' →
    reachable_from d st'.

(** Two boards that differ at most in the references they use. *)
Record equivalent (a b : BoardState) : Prop := {
  equivalent_scalars : scalars a = scalars b;
  equivalent_board : board a = board b;
  equivalent_ids : id_view a = id_view b;
  equivalent_coords : coord_view a = coord_view b
}.

(** The boards of a room: created from [INITIAL_GAME_STATE], then joined,
    moved on, resigned, and written to and read back from the store. *)
Inductive reachable (gen : nat → string) : BoardState → Prop :=
| reach_create player1 st :
    BoardState_init (with_white_player (uuid_str player1) (INITIAL_GAME_STATE gen))
      = Ok st →
    reachable gen st
| reach_join st player2 :
    reachable gen st →
    reachable gen
      (set_players (<["black" := Some (uuid_str player2)]> (players st)) st)
| reach_move st st' fid new_row new_col player now :
    reachable gen st →
    move_piece fid new_row new_col player now st = Ok st' →
    reachable gen st'
| reach_resign st player :
    reachable gen st →
    reachable gen (append_game_log (msg_resigned player) (set_game_status RESIGNED st))
| reach_reload st st' :
    reachable gen st →
    BoardState_init (to_json_serializable st) = Ok st' →
    reachable gen st'.

(** The board of [__init__] before the loop over the pieces. *)
Definition blank (status : GameStatus) (d : GameState.t) : BoardState :=
  {| current_player := default "white" (GameState.current_player d);
     white_hand := default [] (GameState.white_hand d);
     black_hand := default [] (GameState.black_hand d);
     white_double_add := default 0 (GameState.white_double_add d);
     black_double_add := default 0 (GameState.black_double_add d);
     game_log := default [] (GameState.game_log d);
     moves_log := default [] (GameState.moves_log d);
     cards_count := default 0 (GameState.cards_count d);
     game_status := status;
     day_night_cycle := default "day" (GameState.day_night_cycle d);
     turn_number := default 0 (GameState.turn_number d);
     players := default default_players (GameState.players d);
     last_move_at := GameState.last_move_at d;
     board := replicate (Z.to_nat board_size) (replicate (Z.to_nat board_size) None);
     _figure_id_to_piece_map := [];
     _coord_to_piece_map := ∅;
     objects := λ _, unallocated |}.


(** A small position on which the statements are exercised: a white pawn
    that can take a black pawn, and a white rook behind it. *)
Definition demo_white : UUID := {| uuid_str := "0a0a0a0a-0000-4000-8000-000000000001" |}.
Definition demo_black : UUID := {| uuid_str := "0b0b0b0b-0000-4000-8000-000000000002" |}.

Definition data_of_pieces (ps : list Piece) : GameState.t :=
  {| GameState.board_size := None;
     GameState.board_pieces := Some ps;
     GameState.current_player := Some "white";
     GameState.white_hand := None;
     GameState.black_hand := None;
     GameState.white_double_add := None;
     GameState.black_double_add := None;
     GameState.game_log := None;
     GameState.moves_log := None;
     GameState.cards_count := None;
     GameState.game_status := Some "in_progress";
     GameState.day_night_cycle := None;
     GameState.turn_number := None;
     GameState.players :=
       Some (<["black" := Some (uuid_str demo_black)]>
               (<["white" := Some (uuid_str demo_white)]> ∅));
     GameState.last_move_at := None |}.

Definition demo_data : GameState.t :=
  data_of_pieces
    [ initial_piece "pawn-w" "Pawn" "white" 6 0;
      initial_piece "pawn-b" "Pawn" "black" 5 0;
      initial_piece "rook-w" "Rook" "white" 7 0 ].

Definition demo_state : BoardState :=
  match BoardState_init demo_data with
  | Ok st => st
  | Raise _ => blank IN_PROGRESS demo_data
  end.

(** Initial data that the constructor accepts and that is not a position:
    two pieces under one figure id, and a piece on row -1. *)
Definition duplicate_id_data : GameState.t :=
  data_of_pieces
    [ initial_piece "x" "Pawn" "white" 0 0;
      initial_piece "x" "Pawn" "white" 1 1 ].

Definition negative_row_data : GameState.t :=
  data_of_pieces [ initial_piece "y" "Pawn" "white" (-1) 0 ].

(** Two pieces with different figure ids on one cell, and a black and a white
    piece under one figure id, the white one next to the black one. *)
Definition same_cell_data : GameState.t :=
  data_of_pieces
    [ initial_piece "a" "Pawn" "white" 0 0;
      initial_piece "b" "Pawn" "white" 0 0 ].


(** Figure ids for a room on which the statements are exercised. *)
Definition demo_gen (n : nat) : string := "figure-" +:+ pretty n.

Definition demo_room_board : BoardState :=
  match BoardState_init
          (with_white_player (uuid_str demo_white) (INITIAL_GAME_STATE demo_gen)) with
  | Ok st => st
  | Raise _ => blank WAITING (INITIAL_GAME_STATE demo_gen)
  end.

(** A process with one room, created by [demo_white], on which the statements
    about rooms are exercised; [demo_parse] reads a canonical UUID text. *)
Definition demo_parse (s : string) : result UUID := Ok {| uuid_str := s |}.

Definition demo_room_id : UUID := {| uuid_str := "0c0c0c0c-0000-4000-8000-000000000003" |}.

Definition empty_world : World :=
  {| redis := ∅; published := []; active_connections := ∅;
     _pubsub_listeners := ∅; closed := ∅; sent := [] |}.

Definition demo_world : World :=
  (create_room demo_gen demo_room_id "Alpha" demo_white 0%Q 0%Q empty_world).2.

Definition demo_room : GameRoomInfo.t :=
  match (get_room demo_parse demo_room_id demo_world).1 with
  | Ok (Some room) => room
  | _ =>
      {| GameRoomInfo.id := demo_room_id; GameRoomInfo.name := "";
         GameRoomInfo.player1_id := None; GameRoomInfo.player2_id := None;
         GameRoomInfo.status := EnumMember WAITING;
         GameRoomInfo.board_state := demo_state;
         GameRoomInfo.created_at := 0; GameRoomInfo.updated_at := 0 |}
  end.

(** The room that [join_room] writes and returns when [player2_id] joins
    [room]. *)
Definition joined (player2_id : UUID) (now : timestamp) (room : GameRoomInfo.t)
    : GameRoomInfo.t :=
  let room := with_player2_id (Some player2_id) room in
  let room := with_status IN_PROGRESS room in
  let room := with_updated_at (int_of_timestamp now) room in
  with_board_state
    (set_players (<["black" := Some (uuid_str player2_id)]>
                    (players (GameRoomInfo.board_state room)))
       (GameRoomInfo.board_state room)) room.

(** A registry with one connection to the demo room, on a socket whose sends
    fail. *)
Definition demo_registry : World :=
  {| redis := ∅; published := [];
     active_connections := {[ demo_room_id := {[ 7%nat ]} ]};
     _pubsub_listeners := {[ demo_room_id := Task false ]};
     closed := {[ 7%nat ]}; sent := [] |}.

(** The notions of the statement about chat senders. A well-formed move frame has
    type "move", a payload with a figure id, both coordinates and a player id,
    and a player id that [uuid.UUID] accepts; [move_frame_player] is the UUID
    of such a frame. A chat frame has type "chat_message" and a text. *)
Section frames.
Variable UUID_of_str : string → result UUID.

Definition move_frame_player (r : received) : option UUID :=
  match r with
  | Decoded (JDict d) =>
      match dict_get "type" d, dict_get "payload" d with
      | Some type, Some (JDict p) =>
          let field k := default JNull (dict_get k p) in
          if eq_str type "move" && truthy (field "figure_id")
             && negb (is_None (field "new_row")) && negb (is_None (field "new_col"))
             && truthy (field "player_id")
          then
            match field "player_id" with
            | JStr s => match UUID_of_str s with Ok u => Some u | Raise _ => None end
            | _ => None
            end
          else None
      | _, _ => None
      end
  | _ => None
  end.

Definition chat_text (message : json) : option json :=
  match message with
  | JDict d =>
      match dict_get "type" d with
      | Some type =>
          if eq_str type "chat_message" then
            match default (JDict []) (dict_get "payload" d) with
            | JDict p =>
                let text := default JNull (dict_get "message" p) in
                if truthy text then Some text else None
            | _ => None
            end
          else None
      | None => None
      end
  | _ => None
  end.

Definition no_move_frame (frame : received * timestamp * timestamp) : Prop :=
  move_frame_player frame.1.1 = None.

(** The player of the last well-formed move frame among [frames], or the
    binding [local] that was there before them. *)
Definition player_after (frames : list (received * timestamp * timestamp))
    (local : option UUID) : option UUID :=
  foldl (λ acc frame,
           match move_frame_player frame.1.1 with Some u => Some u | None => acc end)
        local frames.
End frames.

(** Frames on which the statement about chat senders is exercised: a move
    frame that the board rejects (no such piece), then a chat frame. *)
Definition demo_move_frame : json :=
  JDict [ ("type", JStr "move");
          ("payload",
           JDict [ ("figure_id", JStr "no-such-piece");
                   ("new_row", JInt 4); ("new_col", JInt 0);
                   ("player_id", JStr (uuid_str demo_black)) ]) ].

Definition demo_chat_frame : json :=
  JDict [ ("type", JStr "chat_message");
          ("payload", JDict [ ("message", JStr "hello") ]) ].

Definition demo_untyped (figure_id new_row new_col : json) (player : UUID)
    (now : timestamp) (self : BoardState) : result BoardState :=
  Raise TypeError.

(* ===================================================================== *)
(** ** Further notions *)

(** A row or column that indexes a list of eight cells. *)
Definition indexable (p : Piece) : Prop :=
  (-8 ≤ row p < 8) ∧ (-8 ≤ col p < 8).

#[global] Instance indexable_dec p : Decision (indexable p).
Proof. unfold indexable. apply _. Defined.

(** [uuid.UUID(str(u)) == u] for the ids that a room holds, none of which has
    an empty text. *)
Definition reads_back (UUID_of_str : string → result UUID) (u : UUID) : Prop :=
  uuid_str u ≠ "" ∧ UUID_of_str (uuid_str u) = Ok u.

Definition ids_read_back (UUID_of_str : string → result UUID)
    (room : GameRoomInfo.t) : Prop :=
  reads_back UUID_of_str (GameRoomInfo.id room) ∧
  (∀ p, GameRoomInfo.player1_id room = Some p → reads_back UUID_of_str p) ∧
  (∀ p, GameRoomInfo.player2_id room = Some p → reads_back UUID_of_str p).

(** The room that [surrender_room] writes and returns when [player_id]
    resigns. *)
Definition resigned (player_id : UUID) (now : timestamp) (room : GameRoomInfo.t)
    : GameRoomInfo.t :=
  let room := with_status RESIGNED room in
  let room := with_board_state
    (append_game_log (msg_resigned player_id)
       (set_game_status RESIGNED (GameRoomInfo.board_state room))) room in
  with_updated_at (int_of_timestamp now) room.

(** The member of [GameStatus] that the status field of a room stands for. *)
Definition status_member (f : room_status) : GameStatus :=
  match f with
  | EnumMember s => s
  | EnumValue s => s
  end.

(** The room that [from_json] builds from the record of [room], given the
    board [bs] built from the board of the record: the fields of [room], with
    the value of the status where [room] may hold the member. *)
Definition as_read (bs : BoardState) (room : GameRoomInfo.t) : GameRoomInfo.t :=
  {| GameRoomInfo.id := GameRoomInfo.id room;
     GameRoomInfo.name := GameRoomInfo.name room;
     GameRoomInfo.player1_id := GameRoomInfo.player1_id room;
     GameRoomInfo.player2_id := GameRoomInfo.player2_id room;
     GameRoomInfo.status := EnumValue (status_member (GameRoomInfo.status room));
     GameRoomInfo.board_state := bs;
     GameRoomInfo.created_at := GameRoomInfo.created_at room;
     GameRoomInfo.updated_at := GameRoomInfo.updated_at room |}.

(** A move frame as a client sends it. *)
Definition move_frame (figure_id : string) (new_row new_col : Z) (player_id : UUID)
    : json :=
  JDict [ ("type", JStr "move");
          ("payload",
           JDict [ ("figure_id", JStr figure_id);
                   ("new_row", JInt new_row); ("new_col", JInt new_col);
                   ("player_id", JStr (uuid_str player_id)) ]) ].

(** The process state after [room] has been written under its key. *)
Definition stored (room : GameRoomInfo.t) (w : World) : World :=
  set_redis (<[room_key (GameRoomInfo.id room) := room_record room]> (redis w)) w.

(** [m] leaves the part [f] of the process state as it was, whatever it
    returns. *)
Definition preserves {A B} (f : World → B) (m : io A) : Prop :=
  ∀ w, f (m w).2 = f w.

(** The registry as [connect] and [disconnect] keep it: a room with an entry
    has at least one socket and a listener task, a room without an entry has
    no listener. *)
Definition registry_ok (w : World) : Prop :=
  ∀ room_id,
    match active_connections w !! room_id with
    | Some conns => conns ≠ ∅ ∧ is_Some (_pubsub_listeners w !! room_id)
    | None => _pubsub_listeners w !! room_id = None
    end.

(** The frames that the sockets of [conns] that are open in [w] receive when
    [m] is broadcast. *)
Definition delivered (m : message) (conns : list websocket) (w : World)
    : list (websocket * message) :=
  (λ c, (c, m)) <$> filter (λ c, c ∉ closed w) conns.

(** The keys of the store that match ["room:*"]. *)
Definition room_keys (w : World) : list string :=
  filter (λ k, is_room_key k = true) (map_to_list (redis w)).*1.

(** The position after white's pawn has advanced, on which the statements
    about two successive requests are exercised. *)
Definition demo_moved : BoardState :=
  match move_piece "pawn-w" 4 0 demo_white 0%Q demo_state with
  | Ok st => st
  | Raise _ => demo_state
  end.

(** The position after white's pawn has taken black's. *)
Definition demo_taken : BoardState :=
  match move_piece "pawn-w" 5 0 demo_white 0%Q demo_state with
  | Ok st => st
  | Raise _ => demo_state
  end.

(** The process of [demo_world] as the endpoints see it, and a text for
    exceptions. *)
Definition demo_api_world : ApiWorld :=
  {| process := demo_world; room_updates := [] |}.

Definition demo_str_exception (e : api_exn) : string :=
  match e with
  | HTTPException _ detail => detail
  | Unhandled (ValueError msg) => msg
  | Unhandled _ => ""
  end.

(** ** Proof automation *)

(** The first component of a turn of the loop, whatever its effects. *)
Ltac kept := solve [
  simpl; try done;
  repeat match goal with
         | |- context [send_json ?a ?b ?c] =>
             destruct (send_json a b c) as [[|] ?]; simpl; try done
         | |- context [process_chat ?a ?b ?c ?d ?e] =>
             destruct (process_chat a b c d e) as [[|] ?]; simpl; try done
         | |- context [process_move ?a ?b ?c ?d ?e ?f ?g ?h ?i ?j ?k] =>
             destruct (process_move a b c d e f g h i j k) as [[|] ?]; simpl; try done
         end ].

(* ===================================================================== *)
(** * Proofs *)

(** *** Coordinate keys *)

Lemma str_all_app P s1 s2 :
  str_all P (s1 +:+ s2) = str_all P s1 && str_all P s2.
Proof. induction s1 as [|a s1 IH]; simpl; [done|]. by rewrite IH, andb_assoc. Qed.

Lemma pretty_N_go_no_underscore x s :
  str_all not_underscore s = true →
  str_all not_underscore (pretty_N_go x s) = true.
Proof.
  revert s. induction (N.lt_wf_0 x) as [x _ IH]; intros s Hs.
  destruct (decide (x = 0)%N) as [->|Hx].
  - by rewrite pretty_N_go_0.
  - rewrite pretty_N_go_step by lia. apply IH.
    + apply N.div_lt; lia.
    + simpl. rewrite Hs, andb_true_r.
      unfold pretty_N_char. by repeat case_match.
Qed.

Lemma pretty_Z_no_underscore (z : Z) : str_all not_underscore (pretty z) = true.
Proof.
  assert (∀ n : N, str_all not_underscore (pretty n) = true) as HN.
  { intros n. unfold pretty, pretty_N. case_decide; [done|].
    by apply pretty_N_go_no_underscore. }
  destruct z as [|p|p]; unfold pretty, pretty_Z; [done|apply HN|].
  rewrite str_all_app. simpl. apply HN.
Qed.

Lemma underscore_split a b a' b' :
  str_all not_underscore a = true → str_all not_underscore a' = true →
  a +:+ "_" +:+ b = a' +:+ "_" +:+ b' → a = a' ∧ b = b'.
Proof.
  revert a'. induction a as [|x a IH]; intros [|x' a']; simpl; intros Ha Ha' Heq.
  - by simplify_eq.
  - injection Heq as <- _. done.
  - injection Heq as -> _. done.
  - apply andb_prop in Ha as [_ Ha]. apply andb_prop in Ha' as [_ Ha'].
    injection Heq as -> Heq. by destruct (IH a' Ha Ha' Heq) as [-> ->].
Qed.

Lemma coord_key_inj r c r' c' :
  coord_key r c = coord_key r' c' → r = r' ∧ c = c'.
Proof.
  unfold coord_key. intros Heq.
  apply underscore_split in Heq as [Hr Hc]; [|apply pretty_Z_no_underscore..].
  split; by apply (inj pretty).
Qed.

Lemma coord_key_ne r c r' c' :
  (r, c) ≠ (r', c') → coord_key r c ≠ coord_key r' c'.
Proof. intros Hne Heq. apply coord_key_inj in Heq as [-> ->]. done. Qed.

(** *** Insertion-ordered dictionaries *)
Section dict.
Context {V : Type}.
Implicit Types (d : dict V) (k : string) (v : V).

Lemma dict_get_set_eq k v d : dict_get k (dict_set k v d) = Some v.
Proof.
  induction d as [|[k' v'] d IH]; simpl; [by rewrite decide_True|].
  case_decide; simpl; [by rewrite decide_True|by rewrite decide_False].
Qed.

Lemma dict_get_set_ne k k' v d :
  k ≠ k' → dict_get k' (dict_set k v d) = dict_get k' d.
Proof.
  intros Hne. induction d as [|[k0 v0] d IH]; simpl;
    repeat (case_decide; simpl); congruence.
Qed.

Lemma dict_get_del_ne k k' d :
  k ≠ k' → dict_get k' (dict_del k d) = dict_get k' d.
Proof.
  intros Hne. induction d as [|[k0 v0] d IH]; simpl;
    repeat (case_decide; simpl); congruence.
Qed.

Lemma dict_get_None k d : dict_get k d = None ↔ k ∉ d.*1.
Proof.
  induction d as [|[k0 v0] d IH]; simpl.
  - split; [intros _; apply not_elem_of_nil|done].
  - rewrite not_elem_of_cons. case_decide; naive_solver.
Qed.

Lemma dict_get_Some_elem k v d : dict_get k d = Some v → (k, v) ∈ d.
Proof.
  induction d as [|[k0 v0] d IH]; simpl; [done|].
  case_decide; intros; simplify_eq; [left|right; auto].
Qed.

Lemma dict_elem_get k v d : NoDup d.*1 → (k, v) ∈ d → dict_get k d = Some v.
Proof.
  induction d as [|[k0 v0] d IH]; simpl; intros Hnd Hin.
  - by apply elem_of_nil in Hin.
  - pose proof (NoDup_cons_1_1 _ _ Hnd) as Hk0. apply NoDup_cons_1_2 in Hnd.
    apply elem_of_cons in Hin as [?|Hin]; simplify_eq.
    + by rewrite decide_True.
    + rewrite decide_False; [auto|]. intros ->. apply Hk0.
      apply list_elem_of_fmap. by exists (k, v).
Qed.

Lemma dict_get_del_eq k d : NoDup d.*1 → dict_get k (dict_del k d) = None.
Proof.
  induction d as [|[k0 v0] d IH]; simpl; intros Hnd; [done|].
  pose proof (NoDup_cons_1_1 _ _ Hnd) as Hk0. apply NoDup_cons_1_2 in Hnd. case_decide; simplify_eq.
  - by apply dict_get_None.
  - simpl. rewrite decide_False by done. auto.
Qed.

Lemma dict_del_keys_subseteq k d : (dict_del k d).*1 ⊆ d.*1.
Proof.
  induction d as [|[k0 v0] d IH]; simpl; [done|].
  case_decide; simpl; set_solver.
Qed.

Lemma dict_del_NoDup k d : NoDup d.*1 → NoDup (dict_del k d).*1.
Proof.
  induction d as [|[k0 v0] d IH]; simpl; intros Hnd; [done|].
  pose proof (NoDup_cons_1_1 _ _ Hnd) as Hk0. apply NoDup_cons_1_2 in Hnd. case_decide; [done|].
  simpl. apply NoDup_cons_2; [|auto].
  intros Hin. by apply Hk0, (dict_del_keys_subseteq k).
Qed.

Lemma dict_set_fresh k v d : dict_get k d = None → dict_set k v d = d ++ [(k, v)].
Proof.
  induction d as [|[k0 v0] d IH]; simpl; [done|].
  case_decide; [done|]. intros. by rewrite IH.
Qed.

Lemma dict_del_absent k d : dict_get k d = None → dict_del k d = d.
Proof.
  induction d as [|[k0 v0] d IH]; simpl; [done|].
  case_decide; [done|]. intros. by rewrite IH.
Qed.
End dict.

(** *** The grid *)

Lemma list_index_in_range {A} (l : list A) (i : Z) :
  0 ≤ i < Z.of_nat (length l) → list_index l i = Ok (Z.to_nat i).
Proof. intros. unfold list_index. by rewrite bool_decide_eq_true_2. Qed.

Lemma board_shape_lookup b r :
  board_shape b → 0 ≤ r < 8 →
  ∃ cells, b !! Z.to_nat r = Some cells ∧ length cells = 8%nat.
Proof.
  intros [Hlen Hall] Hr.
  destruct (lookup_lt_is_Some_2 b (Z.to_nat r)) as [cells Hcells]; [lia|].
  exists cells. split; [done|].
  by apply (Forall_lookup_1 _ _ _ _ Hall Hcells).
Qed.

Lemma board_setitem_ok b r c v :
  board_shape b → 0 ≤ r < 8 → 0 ≤ c < 8 →
  ∃ b', board_setitem b r c v = Ok b' ∧ board_shape b' ∧
    ∀ r' c', board_at b' r' c' =
      if decide (r' = r ∧ c' = c) then v else board_at b r' c'.
Proof.
  intros Hshape Hr Hc.
  destruct (board_shape_lookup b r Hshape Hr) as (cells & Hcells & Hlen).
  destruct Hshape as [Hrows Hcols].
  exists (<[Z.to_nat r := <[Z.to_nat c := v]> cells]> b).
  split; [|split; [split|]].
  - unfold board_setitem, list_getitem, list_setitem.
    rewrite (list_index_in_range b) by lia. simpl. rewrite Hcells. simpl.
    by rewrite (list_index_in_range cells) by lia.
  - by rewrite length_insert.
  - apply Forall_insert; [done|]. by rewrite length_insert.
  - intros r' c'. unfold board_at.
    destruct (bool_decide (0 ≤ r' ∧ 0 ≤ c')) eqn:Hpos.
    2:{ apply bool_decide_eq_false in Hpos. case_decide; [lia|done]. }
    apply bool_decide_eq_true in Hpos.
    destruct (decide (Z.to_nat r' = Z.to_nat r)) as [Heq|Hne].
    + rewrite Heq, list_lookup_insert_eq by lia.
      assert (r' = r) as -> by lia. rewrite Hcells.
      destruct (decide (Z.to_nat c' = Z.to_nat c)) as [Heqc|Hnec].
      * rewrite Heqc, list_lookup_insert_eq by lia.
        rewrite decide_True; [done|lia].
      * rewrite list_lookup_insert_ne by done.
        rewrite decide_False; [done|lia].
    + rewrite list_lookup_insert_ne by done.
      rewrite decide_False; [done|lia].
Qed.

Lemma board_at_off_board b r c :
  board_shape b → ¬ (0 ≤ r < 8 ∧ 0 ≤ c < 8) → board_at b r c = None.
Proof.
  intros [Hrows Hcols] Hout. unfold board_at. case_bool_decide; [|done].
  destruct (b !! Z.to_nat r) as [cells|] eqn:Hcells; [|done].
  assert (length cells = 8%nat) as Hlen
    by apply (Forall_lookup_1 _ _ _ _ Hcols Hcells).
  apply lookup_lt_Some in Hcells.
  destruct (cells !! Z.to_nat c) as [v|] eqn:Hv; [|done].
  apply lookup_lt_Some in Hv. lia.
Qed.

Lemma board_ext b b' :
  board_shape b → board_shape b' →
  (∀ r c, 0 ≤ r < 8 → 0 ≤ c < 8 → board_at b r c = board_at b' r c) →
  b = b'.
Proof.
  intros Hb Hb' Hat. apply list_eq. intros i.
  destruct (decide (i < 8)%nat) as [Hi|Hi].
  2:{ destruct Hb as [? _], Hb' as [? _].
      rewrite !lookup_ge_None_2; [done|lia..]. }
  destruct (board_shape_lookup b (Z.of_nat i) Hb) as (cells & Hc & Hl); [lia|].
  destruct (board_shape_lookup b' (Z.of_nat i) Hb') as (cells' & Hc' & Hl'); [lia|].
  rewrite Nat2Z.id in Hc, Hc'. rewrite Hc, Hc'. f_equal.
  apply list_eq. intros j.
  destruct (decide (j < 8)%nat) as [Hj|Hj].
  2:{ rewrite !lookup_ge_None_2; [done|lia..]. }
  specialize (Hat (Z.of_nat i) (Z.of_nat j)). unfold board_at in Hat.
  rewrite bool_decide_eq_true_2, !Nat2Z.id, Hc, Hc' in Hat by lia.
  destruct (lookup_lt_is_Some_2 cells j) as [v Hv]; [lia|].
  destruct (lookup_lt_is_Some_2 cells' j) as [v' Hv']; [lia|].
  rewrite Hv, Hv' in Hat. rewrite Hv, Hv'. f_equal. apply Hat; lia.
Qed.

(** *** The representation invariant through removal and move *)

Lemma wf_coord_key st k piece :
  wf st → _coord_to_piece_map st !! k = Some piece →
  k = coord_key (row (objects st piece)) (col (objects st piece)).
Proof. intros Hwf Hk. by destruct (wf_coord st Hwf k piece Hk). Qed.

Lemma wf_coord_tracked st k piece :
  wf st → _coord_to_piece_map st !! k = Some piece →
  dict_get (figure_id (objects st piece)) (_figure_id_to_piece_map st) = Some piece.
Proof. intros Hwf Hk. by destruct (wf_coord st Hwf k piece Hk) as (? & ? & ?). Qed.

Lemma wf_tracked_on_board st piece :
  wf st →
  dict_get (figure_id (objects st piece)) (_figure_id_to_piece_map st) = Some piece →
  on_the_board (objects st piece).
Proof. intros Hwf Hid. by destruct (wf_ids st Hwf _ _ Hid). Qed.

Lemma remove_piece_spec st piece :
  wf st →
  dict_get (figure_id (objects st piece)) (_figure_id_to_piece_map st) = Some piece →
  ∃ b, _remove_piece_from_board piece st = Ok (removed piece b st) ∧
       (∀ r c, board_at b r c =
          if decide (r = row (objects st piece) ∧ c = col (objects st piece))
          then None else board_at (board st) r c) ∧
       wf (removed piece b st).
Proof.
  intros Hwf Hid. set (p := objects st piece) in *.
  destruct (wf_tracked_on_board st piece Hwf Hid) as [Hr Hc]. fold p in Hr, Hc.
  destruct (board_setitem_ok (board st) (row p) (col p) None (wf_shape st Hwf) Hr Hc)
    as (b & Hset & Hshape & Hat).
  exists b. split; [|split; [done|]].
  { unfold _remove_piece_from_board. fold p. by rewrite Hset. }
  constructor; unfold removed; fold p; simpl.
  - done.
  - apply dict_del_NoDup, (wf_keys st Hwf).
  - intros fid piece' Hget.
    destruct (decide (figure_id p = fid)) as [<-|Hne].
    + by rewrite dict_get_del_eq in Hget by apply (wf_keys st Hwf).
    + rewrite dict_get_del_ne in Hget by done. by apply (wf_ids st Hwf).
  - intros k piece' Hk. apply lookup_delete_Some in Hk as [Hkne Hk].
    destruct (wf_coord st Hwf k piece' Hk) as (Hkey & Htr & Hb).
    assert (piece' ≠ piece) as Hpne.
    { intros ->. fold p in Hkey. done. }
    split; [done|]. split.
    + rewrite dict_get_del_ne; [done|]. intros Heq.
      rewrite <-Heq in Htr. congruence.
    + rewrite Hat, decide_False; [done|].
      intros [Hr' Hc']. apply Hkne. rewrite Hkey. by f_equal.
  - intros r c q Hq. rewrite Hat in Hq. case_decide as Hrc; [done|].
    destruct (wf_board st Hwf r c q Hq) as (piece' & Hk & Hobj).
    exists piece'. split; [|done].
    rewrite lookup_delete_ne; [done|]. intros Heq.
    apply coord_key_inj in Heq as [Hr' Hc']. by apply Hrc.
Qed.

Lemma execute_move_spec st piece fid new_row new_col now :
  wf st →
  dict_get fid (_figure_id_to_piece_map st) = Some piece →
  0 ≤ new_row < 8 → 0 ≤ new_col < 8 →
  _coord_to_piece_map st !! coord_key new_row new_col = None →
  let old_row := row (objects st piece) in
  let old_col := col (objects st piece) in
  ∃ b, execute_move piece old_row old_col new_row new_col now st
         = Ok (executed piece old_row old_col new_row new_col now b st) ∧
       (∀ r c, board_at b r c =
          if decide (r = new_row ∧ c = new_col)
          then Some (piece_moved_to new_row new_col (objects st piece))
          else if decide (r = old_row ∧ c = old_col) then None
          else board_at (board st) r c) ∧
       wf (executed piece old_row old_col new_row new_col now b st).
Proof.
  intros Hwf Hid Hr Hc Hfree old_row old_col.
  set (p := objects st piece) in *.
  destruct (wf_ids st Hwf fid piece Hid) as [Hfid [Hor Hoc]]. fold p in Hfid, Hor, Hoc.
  destruct (board_setitem_ok (board st) old_row old_col None (wf_shape st Hwf) Hor Hoc)
    as (b1 & Hset1 & Hshape1 & Hat1).
  destruct (board_setitem_ok b1 new_row new_col
              (Some (piece_moved_to new_row new_col p)) Hshape1 Hr Hc)
    as (b2 & Hset2 & Hshape2 & Hat2).
  assert (∀ r c, board_at b2 r c =
          if decide (r = new_row ∧ c = new_col)
          then Some (piece_moved_to new_row new_col p)
          else if decide (r = old_row ∧ c = old_col) then None
          else board_at (board st) r c) as Hat.
  { intros r c. rewrite Hat2. case_decide; [done|]. by rewrite Hat1. }
  exists b2. split; [|split; [done|]].
  { unfold execute_move. rewrite Hset1. simpl. fold p. by rewrite Hset2. }
  assert (∀ k piece', k ≠ coord_key old_row old_col →
            _coord_to_piece_map st !! k = Some piece' → piece' ≠ piece) as Hother.
  { intros k piece' Hk Hl ->. apply Hk. by apply (wf_coord_key st). }
  constructor; unfold executed; fold p; simpl.
  - done.
  - apply (wf_keys st Hwf).
  - intros fid' piece' Hget.
    destruct (decide (piece' = piece)) as [->|Hne].
    + rewrite fn_lookup_insert. simpl. split; [|done].
      by destruct (wf_ids st Hwf fid' piece Hget).
    + rewrite fn_lookup_insert_ne by done. by apply (wf_ids st Hwf).
  - intros k piece' Hk.
    apply lookup_insert_Some in Hk as [[<- <-]|[Hkne Hk]].
    + rewrite fn_lookup_insert. simpl. split; [done|]. split.
      * by rewrite Hfid.
      * by rewrite Hat, decide_True.
    + apply lookup_delete_Some in Hk as [Hkold Hk].
      pose proof (Hother k piece' (not_eq_sym Hkold) Hk) as Hpne.
      rewrite fn_lookup_insert_ne by done.
      destruct (wf_coord st Hwf k piece' Hk) as (Hkey & Htr & Hb).
      split; [done|]. split; [done|].
      rewrite Hat, decide_False, decide_False; [done|..].
      * intros [Hr' Hc']. apply Hkold. rewrite Hkey. by f_equal.
      * intros [Hr' Hc']. apply Hkne. rewrite Hkey. by f_equal.
  - intros r c q Hq. rewrite Hat in Hq.
    case_decide as Hnew.
    { destruct Hnew as [-> ->]. simplify_eq. exists piece.
      by rewrite lookup_insert_eq, fn_lookup_insert. }
    case_decide as Hold; [done|].
    destruct (wf_board st Hwf r c q Hq) as (piece' & Hk & Hobj).
    assert (coord_key old_row old_col ≠ coord_key r c) as Hkold.
    { intros Heq. apply coord_key_inj in Heq as [Hr' Hc']. by apply Hold. }
    assert (coord_key new_row new_col ≠ coord_key r c) as Hknew.
    { intros Heq. apply coord_key_inj in Heq as [Hr' Hc']. by apply Hnew. }
    exists piece'. rewrite lookup_insert_ne, lookup_delete_ne by done.
    split; [done|].
    rewrite fn_lookup_insert_ne; [done|].
    by apply not_eq_sym, (Hother (coord_key r c) piece' (not_eq_sym Hkold)).
Qed.

(** *** [move_piece] against the ordered checks *)

Lemma actual_player_color_cases player st c :
  actual_player_color player st = Some c → c = "white" ∨ c = "black".
Proof. unfold actual_player_color. repeat case_decide; naive_solver. Qed.

(** The request fails check [k] first: the call logs one line and returns. *)
Lemma move_piece_rejected fid new_row new_col player now st k :
  first_failed_check fid new_row new_col player st = Some k →
  ∃ e, move_piece fid new_row new_col player now st = Ok (append_game_log e st) ∧
       error_of k e.
Proof.
  unfold first_failed_check, validation_order, check_passes, requested_piece,
    target_piece, move_piece, _get_piece_at, board_size. simpl.
  destruct (dict_get fid (_figure_id_to_piece_map st)) as [piece|] eqn:Hpiece; simpl.
  2:{ intros [= <-]. eexists. split; [done|]. by eexists. }
  destruct (actual_player_color player st) as [actual|] eqn:Hactual; simpl.
  2:{ intros [= <-]. eexists. split; [done|]. by eexists. }
  case_bool_decide as Hturn; simpl.
  2:{ intros [= <-]. rewrite decide_True by congruence.
      eexists. split; [done|]. by do 2 eexists. }
  rewrite decide_False by (intros ?; simplify_eq; done).
  case_bool_decide as Hown; simpl.
  2:{ intros [= <-]. rewrite decide_True by congruence.
      eexists. split; [done|]. do 2 eexists. split; [|done].
      by eapply actual_player_color_cases. }
  rewrite decide_False by (intros ?; simplify_eq; done).
  case_bool_decide as Hbounds; simpl.
  2:{ intros [= <-]. rewrite decide_True by lia.
      eexists. split; [done|]. by do 3 eexists. }
  rewrite decide_False by lia.
  destruct (_coord_to_piece_map st !! coord_key new_row new_col) as [target|]; simpl;
    [|done].
  case_bool_decide as Hcolor; simpl; [by intros [=]|].
  intros [= <-].
  rewrite decide_False by (intros Hx; first [by apply Hcolor | by apply Hx]).
  eexists. split; [done|]. by do 3 eexists.
Qed.

(** The request passes the six checks: the call is the capture, when the
    target cell is occupied, followed by the tail of the move. *)
Lemma move_piece_accepted fid new_row new_col player now st :
  first_failed_check fid new_row new_col player st = None →
  ∃ piece,
    dict_get fid (_figure_id_to_piece_map st) = Some piece ∧
    actual_player_color player st = Some (current_player st) ∧
    color (objects st piece) = current_player st ∧
    (0 ≤ new_row < 8 ∧ 0 ≤ new_col < 8) ∧
    move_piece fid new_row new_col player now st =
      match _get_piece_at new_row new_col st with
      | Some target =>
          st' ← _remove_piece_from_board target st;
          execute_move piece (row (objects st piece)) (col (objects st piece))
            new_row new_col now
            (append_game_log
               (msg_capture (objects st piece) (objects st target) new_row new_col) st')
      | None =>
          execute_move piece (row (objects st piece)) (col (objects st piece))
            new_row new_col now st
      end ∧
    ∀ target, _get_piece_at new_row new_col st = Some target →
              color (objects st target) ≠ color (objects st piece).
Proof.
  unfold first_failed_check, validation_order, check_passes, requested_piece,
    target_piece, move_piece, _get_piece_at, board_size. simpl.
  destruct (dict_get fid (_figure_id_to_piece_map st)) as [piece|] eqn:Hpiece; simpl.
  2:{ done. }
  destruct (actual_player_color player st) as [actual|] eqn:Hactual; simpl.
  2:{ done. }
  case_bool_decide as Hturn; simpl; [|done]. simplify_eq.
  rewrite decide_False by (intros ?; done).
  case_bool_decide as Hown; simpl; [|done]. simplify_eq.
  rewrite decide_False by (intros ?; done).
  case_bool_decide as Hbounds; simpl; [|done].
  rewrite decide_False by lia.
  intros Hlast. exists piece. split; [done|]. split; [done|]. split; [done|].
  split; [lia|].
  destruct (_coord_to_piece_map st !! coord_key new_row new_col) as [target|];
    simpl in *; [|done].
  case_bool_decide as Hcolor; simpl in *; [|done].
  rewrite decide_True by done. split; [done|]. by intros ? [= <-].
Qed.

Lemma wf_append_game_log e st : wf st → wf (append_game_log e st).
Proof. intros [? ? ? ? ?]. by constructor. Qed.

Lemma wf_set_game_status s st : wf st ↔ wf (set_game_status s st).
Proof. split; intros [? ? ? ? ?]; by constructor. Qed.

Lemma wf_set_players ps st : wf st → wf (set_players ps st).
Proof. intros [? ? ? ? ?]. by constructor. Qed.

(** An accepted move on a well-formed board, with the state it leaves. *)
Lemma move_piece_accepted_spec fid new_row new_col player now st :
  wf st →
  first_failed_check fid new_row new_col player st = None →
  ∃ piece b,
    dict_get fid (_figure_id_to_piece_map st) = Some piece ∧
    color (objects st piece) = current_player st ∧
    (0 ≤ new_row < 8 ∧ 0 ≤ new_col < 8) ∧
    let p := objects st piece in
    let st1 :=
      match _get_piece_at new_row new_col st with
      | Some target =>
          append_game_log (msg_capture p (objects st target) new_row new_col)
            (removed target (board st) st)
      | None => st
      end in
    let st' := executed piece (row p) (col p) new_row new_col now b st1 in
    move_piece fid new_row new_col player now st = Ok st' ∧
    wf st' ∧
    (∀ r c, board_at b r c =
       if decide (r = new_row ∧ c = new_col)
       then Some (piece_moved_to new_row new_col p)
       else if decide (r = row p ∧ c = col p) then None
       else board_at (board st) r c) ∧
    (∀ target, _get_piece_at new_row new_col st = Some target →
       target ≠ piece ∧
       color (objects st target) ≠ color p ∧
       figure_id (objects st target) ≠ fid ∧
       coord_key (row (objects st target)) (col (objects st target))
         = coord_key new_row new_col ∧
       dict_get (figure_id (objects st target)) (_figure_id_to_piece_map st)
         = Some target).
Proof.
  intros Hwf Hpass.
  destruct (move_piece_accepted _ _ _ _ now _ Hpass)
    as (piece & Hid & _ & Hcolor & [Hr Hc] & Hmove & Htarget).
  destruct (wf_ids st Hwf _ _ Hid) as [Hfid _].
  assert (∀ target, _get_piece_at new_row new_col st = Some target →
       target ≠ piece ∧
       color (objects st target) ≠ color (objects st piece) ∧
       figure_id (objects st target) ≠ fid ∧
       coord_key (row (objects st target)) (col (objects st target))
         = coord_key new_row new_col ∧
       dict_get (figure_id (objects st target)) (_figure_id_to_piece_map st)
         = Some target) as Hfacts.
  { intros target Ht. pose proof (Htarget target Ht) as Hne.
    assert (target ≠ piece) as Htp by (by intros ->).
    pose proof (wf_coord_tracked st _ _ Hwf Ht) as Htr.
    split; [done|]. split; [done|]. split; [|split; [|done]].
    - intros Heq. rewrite Heq, Hid in Htr. by simplify_eq.
    - symmetry. by apply (wf_coord_key st). }
  destruct (_get_piece_at new_row new_col st) as [target|] eqn:Ht.
  - destruct (Hfacts target eq_refl) as (Htp & Hne & Hfidne & Hkey & Htr).
    destruct (remove_piece_spec st target Hwf Htr) as (b1 & Hrem & Hat1 & Hwf1).
    pose proof (wf_append_game_log
      (msg_capture (objects st piece) (objects st target) new_row new_col) _ Hwf1)
      as Hwf1'.
    destruct (execute_move_spec _ piece fid new_row new_col now Hwf1')
      as (b2 & Hexec & Hat2 & Hwf2); [|done|done| |].
    { simpl. by rewrite dict_get_del_ne. }
    { simpl. rewrite Hkey. apply lookup_delete_eq. }
    simpl in Hexec, Hat2, Hwf2.
    exists piece, b2. split; [done|]. split; [done|]. split; [done|].
    assert (∀ b, executed piece (row (objects st piece)) (col (objects st piece))
                   new_row new_col now b2
                   (append_game_log
                      (msg_capture (objects st piece) (objects st target)
                         new_row new_col) (removed target b st))
               = executed piece (row (objects st piece)) (col (objects st piece))
                   new_row new_col now b2
                   (append_game_log
                      (msg_capture (objects st piece) (objects st target)
                         new_row new_col) (removed target (board st) st))) as Hirr
      by done.
    simpl. split; [|split; [|split; [|done]]].
    + rewrite Hmove, Hrem. simpl. by rewrite Hexec, (Hirr b1).
    + by rewrite <-(Hirr b1).
    + intros r c. rewrite Hat2. repeat case_decide; try done.
      rewrite Hat1, decide_False; [done|].
      intros [-> ->]. apply coord_key_inj in Hkey. naive_solver.
  - destruct (execute_move_spec st piece fid new_row new_col now Hwf)
      as (b2 & Hexec & Hat2 & Hwf2); [done..|].
    exists piece, b2. simpl. by rewrite Hmove.
Qed.

(** [move_piece] returns on every well-formed board and keeps it so. *)
Lemma move_piece_wf fid new_row new_col player now st :
  wf st → ∃ st', move_piece fid new_row new_col player now st = Ok st' ∧ wf st'.
Proof.
  intros Hwf.
  destruct (first_failed_check fid new_row new_col player st) as [k|] eqn:Hk.
  - destruct (move_piece_rejected _ _ _ _ now _ _ Hk) as (e & -> & _).
    eexists. split; [done|]. by apply wf_append_game_log.
  - destruct (move_piece_accepted_spec _ _ _ _ now _ Hwf Hk)
      as (piece & b & _ & _ & _ & Hmove & Hwf' & _).
    eauto.
Qed.

Lemma all_on_board_append_game_log e st :
  all_on_board st → all_on_board (append_game_log e st).
Proof. done. Qed.

Lemma move_piece_all_on_board fid new_row new_col player now st st' :
  wf st → all_on_board st →
  move_piece fid new_row new_col player now st = Ok st' →
  all_on_board st'.
Proof.
  intros Hwf Hon Hmove.
  destruct (first_failed_check fid new_row new_col player st) as [k|] eqn:Hk.
  { destruct (move_piece_rejected _ _ _ _ now _ _ Hk) as (e & He & _).
    rewrite He in Hmove. by simplify_eq. }
  destruct (move_piece_accepted_spec _ _ _ _ now _ Hwf Hk)
    as (piece & b & Hid & _ & _ & Hmove' & _ & _ & Hfacts).
  simpl in Hmove'. rewrite Hmove' in Hmove. simplify_eq. clear Hmove'.
  pose proof (Hon _ _ Hid) as Hpiece.
  intros fid' piece' Hget.
  destruct (decide (piece' = piece)) as [->|Hne].
  { unfold executed; simpl. rewrite fn_lookup_insert. simpl.
    apply lookup_insert_eq. }
  assert (objects
            (executed piece (row (objects st piece)) (col (objects st piece))
               new_row new_col now b
               match _get_piece_at new_row new_col st with
               | Some target =>
                   append_game_log
                     (msg_capture (objects st piece) (objects st target)
                        new_row new_col) (removed target (board st) st)
               | None => st
               end) piece' = objects st piece') as ->.
  { unfold executed; simpl.
    rewrite fn_lookup_insert_ne by done. by destruct (_get_piece_at _ _ _). }
  set (q := objects st piece') in *.
  destruct (_get_piece_at new_row new_col st) as [target|] eqn:Ht.
  - destruct (Hfacts target eq_refl) as (Htp & _ & Hfidne & Hkey & Htr).
    unfold executed, removed in Hget |- *; simpl in Hget |- *.
    assert (fid' ≠ figure_id (objects st target)) as Hfid'.
    { intros ->. by rewrite dict_get_del_eq in Hget by apply (wf_keys st Hwf). }
    rewrite dict_get_del_ne in Hget by done.
    pose proof (Hon _ _ Hget) as Hq. fold q in Hq.
    assert (coord_key new_row new_col ≠ coord_key (row q) (col q)) as Hknew.
    { intros Heq. rewrite <-Heq in Hq. unfold _get_piece_at in Ht.
      rewrite Ht in Hq. simplify_eq.
      destruct (wf_ids st Hwf _ _ Hget) as [Hf _]. by apply Hfid'. }
    rewrite lookup_insert_ne by done.
    rewrite lookup_delete_ne.
    2:{ intros Heq. rewrite <-Heq in Hq. rewrite Hpiece in Hq. by simplify_eq. }
    rewrite lookup_delete_ne; [done|]. by rewrite Hkey.
  - unfold executed in Hget |- *; simpl in Hget |- *.
    pose proof (Hon _ _ Hget) as Hq. fold q in Hq.
    rewrite lookup_insert_ne.
    2:{ intros Heq. rewrite <-Heq in Hq. unfold _get_piece_at in Ht.
        by rewrite Ht in Hq. }
    rewrite lookup_delete_ne; [done|].
    intros Heq. rewrite <-Heq in Hq. rewrite Hpiece in Hq. by simplify_eq.
Qed.

(** *** Construction *)

Lemma wf_refs_below_coord n st k piece :
  wf st → refs_below n st →
  _coord_to_piece_map st !! k = Some piece → (piece < n)%nat.
Proof.
  intros Hwf Hbelow Hk. eapply Hbelow. by eapply wf_coord_tracked.
Qed.

Lemma placed_spec pd n st :
  wf st → refs_below n st → on_the_board pd →
  dict_get (figure_id pd) (_figure_id_to_piece_map st) = None →
  ∃ b, board_setitem (board st) (row pd) (col pd) (Some pd) = Ok b ∧
       wf (placed pd n b st) ∧
       refs_below (S n) (placed pd n b st) ∧
       id_view (placed pd n b st) = id_view st ++ [(figure_id pd, pd)] ∧
       (all_on_board st →
        _coord_to_piece_map st !! coord_key (row pd) (col pd) = None →
        all_on_board (placed pd n b st)).
Proof.
  intros Hwf Hbelow [Hr Hc] Hfresh.
  destruct (board_setitem_ok (board st) (row pd) (col pd) (Some pd)
              (wf_shape st Hwf) Hr Hc) as (b & Hset & Hshape & Hat).
  exists b. split; [done|].
  assert (∀ piece, (piece < n)%nat → <[n := pd]> (objects st) piece = objects st piece)
    as Hold.
  { intros piece Hlt. apply fn_lookup_insert_ne. lia. }
  split; [|split; [|split]].
  - constructor; unfold placed; simpl.
    + done.
    + rewrite dict_set_fresh by done. rewrite fmap_app. simpl.
      apply list.NoDup_app. split; [apply (wf_keys st Hwf)|]. split.
      * intros k Hk ?%list_elem_of_singleton. simplify_eq.
        by apply dict_get_None in Hfresh.
      * apply NoDup_singleton.
    + intros fid piece Hget.
      destruct (decide (figure_id pd = fid)) as [<-|Hne].
      * rewrite dict_get_set_eq in Hget. simplify_eq.
        by rewrite fn_lookup_insert.
      * rewrite dict_get_set_ne in Hget by done.
        rewrite Hold by (by eapply Hbelow). by apply (wf_ids st Hwf).
    + intros k piece Hk.
      apply lookup_insert_Some in Hk as [[<- <-]|[Hkne Hk]].
      * rewrite fn_lookup_insert. split; [done|]. split.
        -- apply dict_get_set_eq.
        -- by rewrite Hat, decide_True.
      * rewrite Hold by (by eapply wf_refs_below_coord).
        destruct (wf_coord st Hwf k piece Hk) as (Hkey & Htr & Hb).
        split; [done|]. split.
        -- rewrite dict_get_set_ne; [done|]. intros Heq.
           rewrite Heq in Hfresh. congruence.
        -- rewrite Hat, decide_False; [done|].
           intros [Hr' Hc']. apply Hkne. rewrite Hkey. by f_equal.
    + intros r c q Hq. rewrite Hat in Hq. case_decide as Hrc.
      * destruct Hrc as [-> ->]. simplify_eq. exists n.
        by rewrite lookup_insert_eq, fn_lookup_insert.
      * destruct (wf_board st Hwf r c q Hq) as (piece & Hk & Hobj).
        exists piece. rewrite lookup_insert_ne.
        2:{ intros Heq. apply coord_key_inj in Heq as [Hr' Hc']. by apply Hrc. }
        split; [done|]. rewrite Hold; [done|]. by eapply wf_refs_below_coord.
  - intros fid piece Hget. unfold placed in Hget; simpl in Hget.
    destruct (decide (figure_id pd = fid)) as [<-|Hne].
    + rewrite dict_get_set_eq in Hget. simplify_eq. lia.
    + rewrite dict_get_set_ne in Hget by done.
      pose proof (Hbelow _ _ Hget). lia.
  - unfold id_view, placed; simpl.
    rewrite dict_set_fresh by done. rewrite fmap_app. simpl.
    rewrite fn_lookup_insert. f_equal.
    apply list_fmap_ext. intros i [k piece] Hi. simpl. f_equal.
    apply Hold. eapply Hbelow. apply dict_elem_get; [apply (wf_keys st Hwf)|].
    by eapply list_elem_of_lookup_2.
  - intros Hon Hfree fid piece Hget. unfold placed in Hget |- *; simpl in Hget |- *.
    destruct (decide (figure_id pd = fid)) as [<-|Hne].
    + rewrite dict_get_set_eq in Hget. simplify_eq.
      rewrite fn_lookup_insert. apply lookup_insert_eq.
    + rewrite dict_get_set_ne in Hget by done.
      rewrite Hold by (by eapply Hbelow).
      pose proof (Hon _ _ Hget) as Hq.
      rewrite lookup_insert_ne; [done|]. intros Heq.
      rewrite <-Heq in Hq. congruence.
Qed.

Lemma scalars_placed pd n b st : scalars (placed pd n b st) = scalars st.
Proof. done. Qed.

Lemma init_pieces_spec ps : ∀ n st,
  wf st → refs_below n st →
  Forall on_the_board ps → NoDup (figure_id <$> ps) →
  (∀ p, p ∈ ps → dict_get (figure_id p) (_figure_id_to_piece_map st) = None) →
  ∃ st', init_pieces ps n st = Ok st' ∧ wf st' ∧
    id_view st' = id_view st ++ ((λ p, (figure_id p, p)) <$> ps) ∧
    scalars st' = scalars st ∧
    (all_on_board st → NoDup (position <$> ps) →
     (∀ p, p ∈ ps →
        _coord_to_piece_map st !! coord_key (row p) (col p) = None) →
     all_on_board st').
Proof.
  induction ps as [|pd ps IH]; intros n st Hwf Hbelow Hon Hnd Hfresh.
  { exists st. simpl. rewrite app_nil_r. eauto. }
  apply list.Forall_cons in Hon as [Hpd Hon]. simpl in Hnd.
  pose proof (NoDup_cons_1_1 _ _ Hnd) as Hpdfresh.
  apply NoDup_cons_1_2 in Hnd.
  destruct (placed_spec pd n st Hwf Hbelow Hpd) as (b & Hset & Hwf1 & Hbelow1 & Hview1 & Hon1).
  { apply Hfresh. by left. }
  destruct (IH (S n) (placed pd n b st) Hwf1 Hbelow1 Hon Hnd)
    as (st' & Hinit & Hwf' & Hview' & Hsc' & Hon').
  { intros p Hp. unfold placed; simpl. rewrite dict_get_set_ne.
    - apply Hfresh. by right.
    - intros Heq. apply Hpdfresh. apply list_elem_of_fmap. by exists p. }
  exists st'. split; [|split; [done|split; [|split]]].
  - simpl. rewrite Hset. simpl. exact Hinit.
  - rewrite Hview', Hview1, <-app_assoc. done.
  - by rewrite Hsc', scalars_placed.
  - intros Hall Hpos Hfree. simpl in Hpos.
    pose proof (NoDup_cons_1_1 _ _ Hpos) as Hposfresh.
    apply NoDup_cons_1_2 in Hpos.
    apply Hon'; [|done|].
    + apply Hon1; [done|]. apply Hfree. by left.
    + intros p Hp. unfold placed; simpl. rewrite lookup_insert_ne.
      * apply Hfree. by right.
      * intros Heq. apply coord_key_inj in Heq as [Hr' Hc'].
        apply Hposfresh. apply list_elem_of_fmap. exists p. split; [|done].
        unfold position. by f_equal.
Qed.

Lemma GameStatus_of_value_value s : GameStatus_of_value (GameStatus_value s) = Ok s.
Proof. by destruct s. Qed.

Lemma board_at_empty r c :
  board_at (replicate (Z.to_nat board_size) (replicate (Z.to_nat board_size) None)) r c
    = None.
Proof.
  unfold board_at. case_bool_decide; [|done].
  destruct (_ !! Z.to_nat r) as [cells|] eqn:Hcells; [|done].
  apply lookup_replicate in Hcells as [-> _].
  destruct (_ !! Z.to_nat c) as [v|] eqn:Hv; [|done].
  by apply lookup_replicate in Hv as [-> _].
Qed.

Lemma wf_blank status d : wf (blank status d).
Proof.
  constructor; simpl.
  - split; [done|]. by repeat constructor.
  - apply NoDup_nil_2.
  - done.
  - done.
  - intros r c p. by rewrite board_at_empty.
Qed.

Lemma BoardState_init_spec d status :
  GameStatus_of_value (default "waiting" (GameState.game_status d)) = Ok status →
  let ps := default [] (GameState.board_pieces d) in
  distinct_on_board ps →
  ∃ st, BoardState_init d = Ok st ∧ wf st ∧
    id_view st = (λ p, (figure_id p, p)) <$> ps ∧
    scalars st = scalars (blank status d) ∧
    (NoDup (position <$> ps) → all_on_board st).
Proof.
  intros Hstatus ps [Hnd Hon].
  destruct (init_pieces_spec ps 0%nat (blank status d) (wf_blank status d))
    as (st & Hinit & Hwf & Hview & Hsc & Hall); [done..|].
  exists st. split; [|split; [done|split; [done|split; [done|]]]].
  - unfold BoardState_init. rewrite Hstatus. simpl. exact Hinit.
  - intros Hpos. by apply Hall.
Qed.

(** In a well-formed board whose pieces all stand on the grid, the grid and
    the coordinate index are determined by what the id index holds. *)
Lemma coord_view_lookup st k p :
  wf st → all_on_board st →
  coord_view st !! k = Some p ↔
  ∃ fid, (fid, p) ∈ id_view st ∧ k = coord_key (row p) (col p).
Proof.
  intros Hwf Hon. unfold coord_view, id_view. rewrite lookup_fmap. split.
  - intros Hk. destruct (_coord_to_piece_map st !! k) as [piece|] eqn:Hpiece;
      simplify_eq/=.
    destruct (wf_coord st Hwf _ _ Hpiece) as (Hkey & Htr & _).
    exists (figure_id (objects st piece)). split; [|done].
    apply list_elem_of_fmap. eexists (_, piece). split; [done|].
    by apply dict_get_Some_elem.
  - intros (fid & Hin & ->).
    apply list_elem_of_fmap in Hin as ([fid' piece] & [= -> ->] & Hin). simpl.
    apply dict_elem_get in Hin; [|apply (wf_keys st Hwf)].
    by rewrite (Hon _ _ Hin).
Qed.

Lemma board_at_coord_view st r c :
  wf st → board_at (board st) r c = coord_view st !! coord_key r c.
Proof.
  intros Hwf. unfold coord_view. rewrite lookup_fmap.
  destruct (board_at (board st) r c) as [p|] eqn:Hp.
  - destruct (wf_board st Hwf _ _ _ Hp) as (piece & -> & <-). done.
  - destruct (_coord_to_piece_map st !! coord_key r c) as [piece|] eqn:Hpiece;
      [|done].
    destruct (wf_coord st Hwf _ _ Hpiece) as (Hkey & _ & Hb).
    apply coord_key_inj in Hkey as [Hr Hc]. rewrite <-Hr, <-Hc in Hb. congruence.
Qed.

Lemma id_view_determines a b :
  wf a → all_on_board a → wf b → all_on_board b →
  id_view a = id_view b →
  coord_view a = coord_view b ∧ board a = board b.
Proof.
  intros Hwfa Hona Hwfb Honb Hview.
  assert (coord_view a = coord_view b) as Hcoord.
  { apply map_eq. intros k. apply option_eq. intros p.
    rewrite !coord_view_lookup by done. by rewrite Hview. }
  split; [done|].
  apply board_ext; [apply (wf_shape a Hwfa)|apply (wf_shape b Hwfb)|].
  intros r c _ _. by rewrite !board_at_coord_view, Hcoord.
Qed.

Lemma tagged_pieces_snd (ps : list Piece) :
  ((λ p, (figure_id p, p)) <$> ps).*2 = ps.
Proof. induction ps as [|p ps IH]; csimpl; [done|]. by f_equal. Qed.

(** The pieces that a board serialises. *)
Lemma serialised_pieces st :
  wf st →
  (λ p, (figure_id p, p)) <$> (objects st <$> dict_values (_figure_id_to_piece_map st))
    = id_view st.
Proof.
  intros Hwf. unfold id_view, dict_values. rewrite <-!list_fmap_compose.
  apply list_fmap_ext. intros i [fid piece] Hi. simpl. f_equal.
  apply (wf_ids st Hwf). apply dict_elem_get; [apply (wf_keys st Hwf)|].
  by eapply list_elem_of_lookup_2.
Qed.

Lemma serialised_pieces_distinct st :
  wf st →
  distinct_on_board (objects st <$> dict_values (_figure_id_to_piece_map st)).
Proof.
  intros Hwf. split.
  - assert (figure_id <$> (objects st <$> dict_values (_figure_id_to_piece_map st))
            = (_figure_id_to_piece_map st).*1) as ->; [|apply (wf_keys st Hwf)].
    unfold dict_values. rewrite <-!list_fmap_compose.
    apply list_fmap_ext. intros i [fid piece] Hi. simpl.
    apply (wf_ids st Hwf). apply dict_elem_get; [apply (wf_keys st Hwf)|].
    by eapply list_elem_of_lookup_2.
  - apply Forall_fmap, Forall_fmap, list.Forall_forall. intros [fid piece] Hin. simpl.
    apply dict_elem_get in Hin; [|apply (wf_keys st Hwf)].
    by apply (wf_ids st Hwf _ _ Hin).
Qed.

Lemma serialised_positions_distinct st :
  wf st → all_on_board st →
  NoDup (position <$> (objects st <$> dict_values (_figure_id_to_piece_map st))).
Proof.
  intros Hwf Hon. unfold dict_values. rewrite <-!list_fmap_compose.
  apply NoDup_fmap_2_strong.
  - intros [f1 r1] [f2 r2] H1 H2 Heq. simpl in Heq.
    apply dict_elem_get in H1; [|apply (wf_keys st Hwf)].
    apply dict_elem_get in H2; [|apply (wf_keys st Hwf)].
    pose proof (Hon _ _ H1) as Hc1. pose proof (Hon _ _ H2) as Hc2.
    injection Heq as Hr Hc. rewrite Hr, Hc in Hc1.
    assert (r1 = r2) as -> by congruence.
    destruct (wf_ids st Hwf _ _ H1) as [<- _].
    by destruct (wf_ids st Hwf _ _ H2) as [<- _].
  - apply (NoDup_fmap_1 fst), (wf_keys st Hwf).
Qed.

(** Reading back what a board serialises. *)
Lemma reload_spec st :
  wf st → all_on_board st →
  ∃ st', BoardState_init (to_json_serializable st) = Ok st' ∧
         wf st' ∧ all_on_board st' ∧ equivalent st st' ∧
         to_json_serializable st' = to_json_serializable st.
Proof.
  intros Hwf Hon.
  destruct (BoardState_init_spec (to_json_serializable st) (game_status st))
    as (st' & Hinit & Hwf' & Hview & Hsc & Hon').
  { simpl. apply GameStatus_of_value_value. }
  { simpl. by apply serialised_pieces_distinct. }
  simpl in Hview, Hon'. rewrite serialised_pieces in Hview by done.
  specialize (Hon' (serialised_positions_distinct st Hwf Hon)).
  destruct (id_view_determines st st' Hwf Hon Hwf' Hon' (eq_sym Hview))
    as [Hcoord Hboard].
  exists st'. split; [done|]. split; [done|]. split; [done|]. split.
  - by constructor.
  - unfold scalars in Hsc. simpl in Hsc. simplify_eq.
    rewrite <-(serialised_pieces st') in Hview by done.
    rewrite <-(serialised_pieces st) in Hview by done.
    apply (f_equal (fmap snd)) in Hview. rewrite !tagged_pieces_snd in Hview.
    unfold to_json_serializable. rewrite Hview. f_equal; congruence.
Qed.

(** *** Reachable boards *)

Lemma wf_grid_index_consistent st : wf st → grid_index_consistent st.
Proof.
  intros Hwf r c p. split.
  - intros Hp. destruct (wf_board st Hwf _ _ _ Hp) as (piece & Hk & Hobj).
    destruct (wf_coord st Hwf _ _ Hk) as (Hkey & Htr & _).
    apply coord_key_inj in Hkey as [Hr Hc]. subst p.
    exists piece. split; [done|]. split; [done|]. by exists piece.
  - intros (piece & Hk & Hobj & _).
    destruct (wf_coord st Hwf _ _ Hk) as (Hkey & _ & Hb).
    apply coord_key_inj in Hkey as [Hr Hc]. rewrite <-Hr, <-Hc in Hb. congruence.
Qed.

Lemma reachable_from_wf d st :
  distinct_on_board (default [] (GameState.board_pieces d)) →
  reachable_from d st → wf st.
Proof.
  intros Hd. induction 1 as [st Hinit|st st' fid r c pl now _ IH Hmove
                            |st st' k piece _ IH Hk Hrem].
  - destruct (GameStatus_of_value (default "waiting" (GameState.game_status d)))
      as [status|e] eqn:Hstatus.
    + destruct (BoardState_init_spec d status Hstatus Hd) as (st0 & Hinit0 & Hwf & _).
      congruence.
    + unfold BoardState_init in Hinit. by rewrite Hstatus in Hinit.
  - destruct (move_piece_wf fid r c pl now st IH) as (st0 & Hmove0 & Hwf).
    congruence.
  - destruct (remove_piece_spec st piece IH) as (b & Hrem0 & _ & Hwf).
    { by eapply wf_coord_tracked. }
    congruence.
Qed.

Lemma initial_pieces_distinct gen :
  NoDup (gen <$> seq 0 32) → distinct_on_board (INITIAL_BOARD_STATE_PIECES gen).
Proof.
  intros Hgen. split; [exact Hgen|].
  unfold INITIAL_BOARD_STATE_PIECES, on_the_board.
  repeat (apply List.Forall_cons; [simpl; lia|]). apply List.Forall_nil.
Qed.

Lemma initial_positions_distinct gen :
  NoDup (position <$> INITIAL_BOARD_STATE_PIECES gen).
Proof. apply (bool_decide_unpack _). by vm_compute. Qed.

Lemma all_on_board_set_players ps st :
  all_on_board st → all_on_board (set_players ps st).
Proof. done. Qed.

Lemma all_on_board_set_game_status s st :
  all_on_board st → all_on_board (set_game_status s st).
Proof. done. Qed.

Lemma reachable_wf gen st :
  NoDup (gen <$> seq 0 32) →
  reachable gen st → wf st ∧ all_on_board st.
Proof.
  intros Hgen. induction 1 as [player1 st Hinit|st player2 _ [IHwf IHon]
    |st st' fid r c pl now _ [IHwf IHon] Hmove|st pl _ [IHwf IHon]
    |st st' _ [IHwf IHon] Hinit].
  - destruct (BoardState_init_spec
                (with_white_player (uuid_str player1) (INITIAL_GAME_STATE gen))
                WAITING eq_refl (initial_pieces_distinct gen Hgen))
      as (st0 & Hinit0 & Hwf & _ & _ & Hon).
    assert (st0 = st) as -> by congruence.
    split; [done|]. apply Hon, initial_positions_distinct.
  - split; [by apply wf_set_players|done].
  - destruct (move_piece_wf fid r c pl now st IHwf) as (st0 & Hmove0 & Hwf).
    assert (st0 = st') as -> by congruence.
    split; [done|]. exact (move_piece_all_on_board _ _ _ _ _ _ _ IHwf IHon Hmove).
  - split; [|done].
    apply wf_append_game_log, (proj1 (wf_set_game_status _ _)), IHwf.
  - destruct (reload_spec st IHwf IHon) as (st0 & Hinit0 & Hwf & Hon & _).
    assert (st0 = st') as -> by congruence. done.
Qed.

(** *** Boards whose pieces all stand on the grid *)

Lemma remove_piece_all_on_board st piece b :
  wf st → all_on_board st →
  dict_get (figure_id (objects st piece)) (_figure_id_to_piece_map st) = Some piece →
  all_on_board (removed piece b st).
Proof.
  intros Hwf Hon Htracked fid' piece' Hget.
  unfold removed in Hget |- *. cbn [_figure_id_to_piece_map _coord_to_piece_map objects
    set_figure_id_to_piece_map set_coord_to_piece_map set_board] in Hget |- *.
  assert (fid' ≠ figure_id (objects st piece)) as Hfid.
  { intros ->. by rewrite dict_get_del_eq in Hget by apply (wf_keys st Hwf). }
  rewrite dict_get_del_ne in Hget by done.
  pose proof (Hon _ _ Hget) as Hq. pose proof (Hon _ _ Htracked) as Hp.
  rewrite lookup_delete_ne; [done|].
  intros Heq. rewrite Heq in Hp. rewrite Hp in Hq. injection Hq as ->.
  destruct (wf_ids st Hwf _ _ Hget) as [Hf _]. by apply Hfid.
Qed.

Lemma reachable_from_all_on_board d st :
  distinct_on_board (default [] (GameState.board_pieces d)) →
  NoDup (position <$> default [] (GameState.board_pieces d)) →
  reachable_from d st → all_on_board st.
Proof.
  intros Hd Hcells Hreach.
  induction Hreach as [st Hinit|st st' fid r c pl now Hreach IH Hmove
                      |st st' k piece Hreach IH Hk Hrem].
  - destruct (GameStatus_of_value (default "waiting" (GameState.game_status d)))
      as [status|e] eqn:Hstatus.
    + destruct (BoardState_init_spec d status Hstatus Hd)
        as (st0 & Hinit0 & _ & _ & _ & Hon).
      assert (st0 = st) as <- by congruence. by apply Hon.
    + unfold BoardState_init in Hinit. by rewrite Hstatus in Hinit.
  - pose proof (reachable_from_wf d st Hd Hreach) as Hwf.
    exact (move_piece_all_on_board _ _ _ _ _ _ _ Hwf IH Hmove).
  - pose proof (reachable_from_wf d st Hd Hreach) as Hwf.
    pose proof (wf_coord_tracked st k piece Hwf Hk) as Htracked.
    destruct (remove_piece_spec st piece Hwf Htracked) as (b & Hrem0 & _ & _).
    assert (st' = removed piece b st) as -> by congruence.
    by apply remove_piece_all_on_board.
Qed.

Lemma wf_positions_agree st : wf st → all_on_board st → positions_agree st.
Proof.
  intros Hwf Hon. split; [by apply wf_grid_index_consistent|]. split.
  - intros fid piece Hid. cbv zeta.
    destruct (wf_ids st Hwf _ _ Hid) as [Hfid _].
    pose proof (Hon _ _ Hid) as Hk.
    destruct (wf_coord st Hwf _ _ Hk) as (_ & _ & Hb). done.
  - intros k piece Hk. cbv zeta.
    destruct (wf_coord st Hwf _ _ Hk) as (Hkey & Htr & Hb). done.
Qed.

(** *** The log lines *)

Lemma error_of_tagged k e : error_of k e → error_tagged e = true.
Proof.
  destruct k; simpl.
  - by intros (? & ->).
  - by intros (? & ->).
  - by intros (? & ? & ->).
  - by intros (? & ? & _ & ->).
  - by intros (? & ? & ? & ->).
  - by intros (? & ? & ? & ->).
Qed.

Lemma error_of_inj k k' e : error_of k e → error_of k' e → k = k'.
Proof.
  destruct k, k'; try done; simpl;
    unfold msg_piece_not_found, msg_not_registered, msg_out_of_turn,
      msg_wrong_color, msg_invalid_coordinates, msg_own_piece;
    intros H1 H2;
    repeat match goal with
           | H : ∃ _, _ |- _ => destruct H
           | H : _ ∧ _ |- _ => destruct H
           | H : _ ∨ _ |- _ => destruct H
           end; subst; simplify_eq/=.
Qed.

Lemma msg_capture_not_error p t r c k : ¬ error_of k (msg_capture p t r c).
Proof.
  destruct k; simpl;
    unfold msg_capture, msg_piece_not_found, msg_not_registered, msg_out_of_turn,
      msg_wrong_color, msg_invalid_coordinates, msg_own_piece;
    intros H;
    repeat match goal with
           | H : ∃ _, _ |- _ => destruct H
           | H : _ ∧ _ |- _ => destruct H
           | H : _ ∨ _ |- _ => destruct H
           end; subst; simplify_eq/=.
Qed.

Lemma msg_successful_move_not_error p r0 c0 r c next k :
  ¬ error_of k (msg_successful_move p r0 c0 r c next).
Proof.
  destruct k; simpl;
    unfold msg_successful_move, msg_piece_not_found, msg_not_registered,
      msg_out_of_turn, msg_wrong_color, msg_invalid_coordinates, msg_own_piece;
    intros H;
    repeat match goal with
           | H : ∃ _, _ |- _ => destruct H
           | H : _ ∧ _ |- _ => destruct H
           | H : _ ∨ _ |- _ => destruct H
           end; subst; simplify_eq/=.
Qed.

Lemma remove_piece_game_log piece st st' :
  _remove_piece_from_board piece st = Ok st' → game_log st' = game_log st.
Proof.
  unfold _remove_piece_from_board.
  destruct (board_setitem _ _ _ _); simpl; intros; by simplify_eq.
Qed.

Lemma remove_piece_objects piece st st' :
  _remove_piece_from_board piece st = Ok st' → objects st' = objects st.
Proof.
  unfold _remove_piece_from_board.
  destruct (board_setitem _ _ _ _); simpl; intros; by simplify_eq.
Qed.

Lemma execute_move_game_log piece r0 c0 r c now st st' :
  execute_move piece r0 c0 r c now st = Ok st' →
  ∃ e, game_log st' = game_log st ++ [e] ∧ ∀ k, ¬ error_of k e.
Proof.
  unfold execute_move.
  destruct (board_setitem _ _ _ _); simpl; [|done].
  destruct (board_setitem _ _ _ _); simpl; [|done].
  intros [= <-]. eexists. split; [done|]. apply msg_successful_move_not_error.
Qed.

(** C1. A move request that fails one of the six validation checks raises
    nothing, appends exactly one error-tagged line to [game_log], and leaves
    every other part of the board as it was: the objects, both indexes, the
    grid, [current_player], [turn_number], [moves_log] and [last_move_at]. *)
Theorem rejected_move_only_logs fid new_row new_col player now st k :
  first_failed_check fid new_row new_col player st = Some k →
  ∃ e st',
    move_piece fid new_row new_col player now st = Ok st' ∧
    error_tagged e = true ∧
    st' = set_game_log (game_log st ++ [e]) st ∧
    game_log st' = game_log st ++ [e] ∧
    objects st' = objects st ∧
    _figure_id_to_piece_map st' = _figure_id_to_piece_map st ∧
    _coord_to_piece_map st' = _coord_to_piece_map st ∧
    board st' = board st ∧
    current_player st' = current_player st ∧
    turn_number st' = turn_number st ∧
    moves_log st' = moves_log st ∧
    last_move_at st' = last_move_at st ∧
    game_status st' = game_status st ∧
    players st' = players st.
Proof.
  intros Hk.
  destruct (move_piece_rejected _ _ _ _ now _ _ Hk) as (e & Hmove & He).
  exists e, (append_game_log e st). split; [done|].
  split; [by eapply error_of_tagged|]. done.
Qed.

Lemma demo_rejection :
  first_failed_check "pawn-b" 4 0 demo_black demo_state = Some InTurn ∧
  ∃ e st',
    move_piece "pawn-b" 4 0 demo_black 0%Q demo_state = Ok st' ∧
    error_tagged e = true ∧
    st' = set_game_log (game_log demo_state ++ [e]) demo_state ∧
    game_log st' = game_log demo_state ++ [e] ∧
    objects st' = objects demo_state ∧
    _figure_id_to_piece_map st' = _figure_id_to_piece_map demo_state ∧
    _coord_to_piece_map st' = _coord_to_piece_map demo_state ∧
    board st' = board demo_state ∧
    current_player st' = current_player demo_state ∧
    turn_number st' = turn_number demo_state ∧
    moves_log st' = moves_log demo_state ∧
    last_move_at st' = last_move_at demo_state ∧
    game_status st' = game_status demo_state ∧
    players st' = players demo_state.
Proof.
  split; [by vm_compute|].
  apply (rejected_move_only_logs "pawn-b" 4 0 demo_black 0%Q demo_state InTurn).
  by vm_compute.
Defined.

(** The six rejections on the example position, in the order of the checks. *)
Example demo_rejections :
  game_log <$> move_piece "queen" 4 0 demo_white 0%Q demo_state
    = Ok ["Error: Piece with ID queen not found."] ∧
  game_log <$> move_piece "pawn-w" 4 0 demo_room_id 0%Q demo_state
    = Ok ["Error: Player 0c0c0c0c-0000-4000-8000-000000000003 is not a registered player in this game."] ∧
  game_log <$> move_piece "pawn-b" 4 0 demo_black 0%Q demo_state
    = Ok ["Error: It's white's turn, but black player tried to move."] ∧
  game_log <$> move_piece "pawn-b" 4 0 demo_white 0%Q demo_state
    = Ok ["Error: white player tried to move a black piece."] ∧
  game_log <$> move_piece "pawn-w" 8 (-1) demo_white 0%Q demo_state
    = Ok ["Error: Invalid coordinates (8, -1) for piece pawn-w."] ∧
  game_log <$> move_piece "pawn-w" 7 0 demo_white 0%Q demo_state
    = Ok ["Error: Destination (7, 0) occupied by own piece Rook (rook-w)."].
Proof. repeat split; by vm_compute. Qed.

(** C2. [move_piece] runs the six checks in the order of the specification,
    each one a terminal exit: the request that fails check [k] first gets the
    line of check [k] and of no other check, whatever the later checks would
    say (so an out-of-bounds target is reported before occupancy is looked
    at); a request that passes all six gets no error line. *)
Theorem validation_order_is_respected fid new_row new_col player now st :
  match first_failed_check fid new_row new_col player st with
  | Some k =>
      ∃ e, move_piece fid new_row new_col player now st = Ok (append_game_log e st) ∧
           error_of k e ∧ ∀ k', error_of k' e → k' = k
  | None =>
      ∀ st', move_piece fid new_row new_col player now st = Ok st' →
        ∃ entries, game_log st' = game_log st ++ entries ∧
                   ∀ e k, e ∈ entries → ¬ error_of k e
  end.
Proof.
  destruct (first_failed_check fid new_row new_col player st) as [k|] eqn:Hk.
  - destruct (move_piece_rejected _ _ _ _ now _ _ Hk) as (e & Hmove & He).
    exists e. split; [done|]. split; [done|].
    intros k' He'. by apply (error_of_inj k' k e).
  - intros st'.
    destruct (move_piece_accepted _ _ _ _ now _ Hk)
      as (piece & _ & _ & _ & _ & -> & _).
    destruct (_get_piece_at new_row new_col st) as [target|].
    + destruct (_remove_piece_from_board target st) as [st1|] eqn:Hrem; simpl; [|done].
      intros Hexec. apply execute_move_game_log in Hexec as (e & Hlog & He).
      simpl in Hlog. rewrite (remove_piece_game_log _ _ _ Hrem) in Hlog.
      eexists [_; e]. split.
      * rewrite Hlog, <-app_assoc. done.
      * intros e' k' [->|[->|[]%elem_of_nil]%elem_of_cons]%elem_of_cons; [|done].
        apply msg_capture_not_error.
    + intros Hexec. apply execute_move_game_log in Hexec as (e & Hlog & He).
      exists [e]. split; [done|].
      by intros e' k' ->%list_elem_of_singleton.
Qed.

Lemma remove_piece_set_game_status s piece st :
  _remove_piece_from_board piece (set_game_status s st)
    = set_game_status s <$> _remove_piece_from_board piece st.
Proof.
  unfold _remove_piece_from_board. simpl.
  by destruct (board_setitem _ _ _ _).
Qed.

Lemma execute_move_set_game_status s piece r0 c0 r c now st :
  execute_move piece r0 c0 r c now (set_game_status s st)
    = set_game_status s <$> execute_move piece r0 c0 r c now st.
Proof.
  unfold execute_move. simpl.
  destruct (board_setitem _ _ _ _); simpl; [|done].
  by destruct (board_setitem _ _ _ _).
Qed.

Lemma move_piece_set_game_status s fid new_row new_col player now st :
  move_piece fid new_row new_col player now (set_game_status s st)
    = set_game_status s <$> move_piece fid new_row new_col player now st.
Proof.
  unfold move_piece, _get_piece_at.
  change (_figure_id_to_piece_map (set_game_status s st))
    with (_figure_id_to_piece_map st).
  change (_coord_to_piece_map (set_game_status s st)) with (_coord_to_piece_map st).
  change (objects (set_game_status s st)) with (objects st).
  change (current_player (set_game_status s st)) with (current_player st).
  change (actual_player_color player (set_game_status s st))
    with (actual_player_color player st).
  destruct (dict_get fid (_figure_id_to_piece_map st)) as [piece|]; [|done].
  destruct (actual_player_color player st) as [actual|]; [|done].
  destruct (decide (actual ≠ current_player st)); [done|].
  destruct (decide (color (objects st piece) ≠ actual)); [done|].
  destruct (decide (¬ (0 ≤ new_row < board_size ∧ 0 ≤ new_col < board_size)));
    [done|].
  destruct (_coord_to_piece_map st !! coord_key new_row new_col) as [target|];
    [|apply execute_move_set_game_status].
  destruct (decide (color (objects st target) ≠ color (objects st piece))); [|done].
  rewrite remove_piece_set_game_status.
  destruct (_remove_piece_from_board target st) as [st1|]; [|done].
  exact (execute_move_set_game_status s piece _ _ _ _ now
           (append_game_log
              (msg_capture (objects st piece) (objects st target) new_row new_col)
              st1)).
Qed.

Lemma executed_objects piece r0 c0 r c now b st :
  objects (executed piece r0 c0 r c now b st)
    = <[piece := piece_moved_to r c (objects st piece)]> (objects st).
Proof. done. Qed.

Lemma executed_board piece r0 c0 r c now b st :
  board (executed piece r0 c0 r c now b st) = b.
Proof. done. Qed.

Lemma executed_ids piece r0 c0 r c now b st :
  _figure_id_to_piece_map (executed piece r0 c0 r c now b st)
    = _figure_id_to_piece_map st.
Proof. done. Qed.

Lemma executed_coords piece r0 c0 r c now b st :
  _coord_to_piece_map (executed piece r0 c0 r c now b st)
    = <[coord_key r c := piece]> (delete (coord_key r0 c0) (_coord_to_piece_map st)).
Proof. done. Qed.

Lemma executed_turn piece r0 c0 r c now b st :
  current_player (executed piece r0 c0 r c now b st)
    = (if decide (current_player st = "white") then "black" else "white") ∧
  turn_number (executed piece r0 c0 r c now b st) = turn_number st + 1 ∧
  last_move_at (executed piece r0 c0 r c now b st) = Some now.
Proof. done. Qed.

Lemma executed_logs piece r0 c0 r c now b st :
  let p := piece_moved_to r c (objects st piece) in
  game_log (executed piece r0 c0 r c now b st)
    = game_log st ++
        [msg_successful_move p r0 c0 r c
           (if decide (current_player st = "white") then "black" else "white")] ∧
  moves_log (executed piece r0 c0 r c now b st)
    = moves_log st ++ [msg_move_record (current_player st) p r0 c0 r c].
Proof. done. Qed.

(** C7. [move_piece] never reads [game_status]: on a board whose status is
    set to any value [s] (a terminal one included) it does what it does on
    the board itself and leaves the status at [s]; so on a well-formed board a
    request that passes the six checks is applied all the same: the piece is
    at the target, [current_player] is flipped, [turn_number] is one more. *)
Theorem move_piece_ignores_game_status fid new_row new_col player now st s :
  move_piece fid new_row new_col player now (set_game_status s st)
    = set_game_status s <$> move_piece fid new_row new_col player now st
  ∧ (wf st →
     first_failed_check fid new_row new_col player st = None →
     ∃ st' piece,
       move_piece fid new_row new_col player now (set_game_status s st) = Ok st' ∧
       game_status st' = s ∧
       dict_get fid (_figure_id_to_piece_map st') = Some piece ∧
       row (objects st' piece) = new_row ∧
       col (objects st' piece) = new_col ∧
       board_at (board st') new_row new_col = Some (objects st' piece) ∧
       current_player st'
         = (if decide (current_player st = "white") then "black" else "white") ∧
       turn_number st' = turn_number st + 1).
Proof.
  split; [apply move_piece_set_game_status|].
  intros Hwf Hpass. rewrite move_piece_set_game_status.
  destruct (move_piece_accepted_spec _ _ _ _ now _ Hwf Hpass)
    as (piece & b & Hid & _ & _ & Hmove & _ & Hat & Hfacts).
  simpl in Hmove. rewrite Hmove. clear Hmove. simpl.
  eexists _, piece. split; [done|]. split; [done|].
  change (objects (set_game_status s ?x)) with (objects x).
  change (board (set_game_status s ?x)) with (board x).
  change (current_player (set_game_status s ?x)) with (current_player x).
  change (turn_number (set_game_status s ?x)) with (turn_number x).
  change (_figure_id_to_piece_map (set_game_status s ?x))
    with (_figure_id_to_piece_map x).
  rewrite executed_objects, executed_board, executed_ids, fn_lookup_insert.
  destruct (_get_piece_at new_row new_col st) as [target|] eqn:Ht.
  - destruct (Hfacts target eq_refl) as (_ & _ & Hne & _).
    split; [simpl; by rewrite dict_get_del_ne|].
    split; [done|]. split; [done|].
    split; [by rewrite Hat, decide_True|]. done.
  - split; [done|]. split; [done|]. split; [done|].
    split; [by rewrite Hat, decide_True|]. done.
Qed.


Lemma demo_state_wf : wf demo_state ∧ all_on_board demo_state.
Proof.
  destruct (BoardState_init_spec demo_data IN_PROGRESS eq_refl)
    as (st & Hinit & Hwf & _ & _ & Hon).
  { split; [apply (bool_decide_unpack _); by vm_compute|].
    repeat (apply List.Forall_cons; [unfold on_the_board; simpl; lia|]).
    apply List.Forall_nil. }
  unfold demo_state. rewrite Hinit. split; [done|].
  apply Hon. apply (bool_decide_unpack _). by vm_compute.
Qed.

Lemma demo_state_init : BoardState_init demo_data = Ok demo_state.
Proof. by vm_compute. Qed.

Lemma demo_data_distinct :
  distinct_on_board (default [] (GameState.board_pieces demo_data)).
Proof.
  split; [apply (bool_decide_unpack _); by vm_compute|].
  repeat (apply List.Forall_cons; [unfold on_the_board; simpl; lia|]).
  apply List.Forall_nil.
Qed.

Lemma demo_status_ignored :
  wf demo_state ∧
  first_failed_check "pawn-w" 4 0 demo_white demo_state = None ∧
  (move_piece "pawn-w" 4 0 demo_white 0%Q (set_game_status RESIGNED demo_state)
    = set_game_status RESIGNED <$> move_piece "pawn-w" 4 0 demo_white 0%Q demo_state
  ∧ (wf demo_state →
     first_failed_check "pawn-w" 4 0 demo_white demo_state = None →
     ∃ st' piece,
       move_piece "pawn-w" 4 0 demo_white 0%Q (set_game_status RESIGNED demo_state)
         = Ok st' ∧
       game_status st' = RESIGNED ∧
       dict_get "pawn-w" (_figure_id_to_piece_map st') = Some piece ∧
       row (objects st' piece) = 4 ∧
       col (objects st' piece) = 0 ∧
       board_at (board st') 4 0 = Some (objects st' piece) ∧
       current_player st'
         = (if decide (current_player demo_state = "white") then "black" else "white") ∧
       turn_number st' = turn_number demo_state + 1)).
Proof.
  split; [apply demo_state_wf|]. split; [by vm_compute|].
  apply (move_piece_ignores_game_status "pawn-w" 4 0 demo_white 0%Q demo_state RESIGNED).
Defined.




(** C4, as stated, fails at construction: [__init__] accepts any initial
    data. With two pieces under one figure id the id index keeps the second
    one, so the first stands on the grid at (0,0) while the id index places
    its figure id at (1,1); with a row of -1 the grid is written at row 7
    (Python indexing from the end) while the coordinate index has the key
    "-1_0"; with two pieces of different figure ids on one cell the grid and
    the coordinate index hold the second one while the id index also places
    the first one there. *)
Lemma construction_can_break_consistency :
  (∃ st, BoardState_init duplicate_id_data = Ok st ∧ ¬ grid_index_consistent st) ∧
  (∃ st, BoardState_init negative_row_data = Ok st ∧ ¬ grid_index_consistent st) ∧
  (∃ st, BoardState_init same_cell_data = Ok st ∧ ¬ id_index_on_grid st).
Proof.
  split; [|split].
  - eexists. split; [vm_compute; reflexivity|]. intros H.
    destruct (H 0 0 (initial_piece "x" "Pawn" "white" 0 0)) as [H1 _].
    destruct H1 as (piece & _ & _ & piece' & Hid & Hrow & _); [by vm_compute|].
    vm_compute in Hid. injection Hid as <-. vm_compute in Hrow. discriminate.
  - eexists. split; [vm_compute; reflexivity|]. intros H.
    destruct (H 7 0 (initial_piece "y" "Pawn" "white" (-1) 0)) as [H1 _].
    destruct H1 as (piece & Hk & _); [by vm_compute|].
    vm_compute in Hk. discriminate.
  - eexists. split; [vm_compute; reflexivity|]. intros H.
    destruct (H "a" 0%nat) as (_ & Hgrid & _); [by vm_compute|].
    vm_compute in Hgrid. discriminate.
Qed.

(** C4, amended. From initial data whose pieces have pairwise distinct figure
    ids, pairwise distinct cells and rows and columns within 0..7, on every
    board that construction, [move_piece] (accepted or rejected) and the
    removal of an indexed piece produce, the grid and both indexes agree on
    every piece's position; on such a board [move_piece] and the removal
    return, and leave a board on which they agree. *)
Theorem consistency_of_reachable_boards d st :
  distinct_on_board (default [] (GameState.board_pieces d)) →
  NoDup (position <$> default [] (GameState.board_pieces d)) →
  reachable_from d st →
  positions_agree st ∧
  (∀ fid new_row new_col player now,
     ∃ st', move_piece fid new_row new_col player now st = Ok st' ∧
            positions_agree st') ∧
  (∀ k piece,
     _coord_to_piece_map st !! k = Some piece →
     ∃ st', _remove_piece_from_board piece st = Ok st' ∧
            positions_agree st').
Proof.
  intros Hd Hcells Hreach.
  assert (∀ st0, reachable_from d st0 → positions_agree st0) as Hagree.
  { intros st0 Hst0. apply wf_positions_agree.
    - by apply (reachable_from_wf d).
    - by apply (reachable_from_all_on_board d). }
  pose proof (reachable_from_wf d st Hd Hreach) as Hwf.
  split; [by apply Hagree|]. split.
  - intros fid new_row new_col player now.
    destruct (move_piece_wf fid new_row new_col player now st Hwf)
      as (st' & Hmove & _).
    exists st'. split; [done|].
    apply Hagree. by apply (from_move d st st' fid new_row new_col player now).
  - intros k piece Hk.
    destruct (remove_piece_spec st piece Hwf) as (b & Hrem & _ & _).
    { by eapply wf_coord_tracked. }
    eexists. split; [done|].
    apply Hagree. by apply (from_remove d st _ k piece).
Qed.

Lemma demo_data_cells :
  NoDup (position <$> default [] (GameState.board_pieces demo_data)).
Proof. apply (bool_decide_unpack _). by vm_compute. Qed.

Lemma demo_consistency :
  distinct_on_board (default [] (GameState.board_pieces demo_data)) ∧
  NoDup (position <$> default [] (GameState.board_pieces demo_data)) ∧
  reachable_from demo_data demo_state ∧
  positions_agree demo_state ∧
  (∀ fid new_row new_col player now,
     ∃ st', move_piece fid new_row new_col player now demo_state = Ok st' ∧
            positions_agree st') ∧
  (∀ k piece,
     _coord_to_piece_map demo_state !! k = Some piece →
     ∃ st', _remove_piece_from_board piece demo_state = Ok st' ∧
            positions_agree st').
Proof.
  split; [apply demo_data_distinct|]. split; [apply demo_data_cells|].
  split; [apply from_init, demo_state_init|].
  apply (consistency_of_reachable_boards demo_data demo_state).
  - apply demo_data_distinct.
  - apply demo_data_cells.
  - apply from_init, demo_state_init.
Defined.

(** C5. For every board [st] of a room, constructing a board from
    [st.to_json_serializable()] succeeds and gives an equivalent board: the
    same grid, the same logs, status, current player, turn number, players
    and other scalar fields, and indexes that hold the same pieces; and the
    board read back serialises to exactly what [st] serialises to. *)
Theorem serialization_round_trip gen st :
  NoDup (gen <$> seq 0 32) →
  reachable gen st →
  ∃ st',
    BoardState_init (to_json_serializable st) = Ok st' ∧
    equivalent st st' ∧
    board st' = board st ∧
    game_log st' = game_log st ∧
    moves_log st' = moves_log st ∧
    game_status st' = game_status st ∧
    current_player st' = current_player st ∧
    turn_number st' = turn_number st ∧
    players st' = players st ∧
    to_json_serializable st' = to_json_serializable st.
Proof.
  intros Hgen Hreach.
  destruct (reachable_wf gen st Hgen Hreach) as [Hwf Hon].
  destruct (reload_spec st Hwf Hon) as (st' & Hinit & _ & _ & Heq & Hjson).
  exists st'. split; [done|]. split; [done|].
  destruct Heq as [Hsc Hboard _ _]. unfold scalars in Hsc.
  injection Hsc as Hcp _ _ _ _ Hgl Hml _ Hgs _ Htn Hpl _.
  by rewrite Hboard, Hgl, Hml, Hgs, Hcp, Htn, Hpl.
Qed.

Lemma demo_gen_distinct : NoDup (demo_gen <$> seq 0 32).
Proof. apply (bool_decide_unpack _). by vm_compute. Qed.

Lemma demo_room_board_reachable : reachable demo_gen demo_room_board.
Proof. apply (reach_create demo_gen demo_white). by vm_compute. Qed.

Lemma demo_round_trip :
  NoDup (demo_gen <$> seq 0 32) ∧
  reachable demo_gen demo_room_board ∧
  ∃ st',
    BoardState_init (to_json_serializable demo_room_board) = Ok st' ∧
    equivalent demo_room_board st' ∧
    board st' = board demo_room_board ∧
    game_log st' = game_log demo_room_board ∧
    moves_log st' = moves_log demo_room_board ∧
    game_status st' = game_status demo_room_board ∧
    current_player st' = current_player demo_room_board ∧
    turn_number st' = turn_number demo_room_board ∧
    players st' = players demo_room_board ∧
    to_json_serializable st' = to_json_serializable demo_room_board.
Proof.
  split; [apply demo_gen_distinct|]. split; [apply demo_room_board_reachable|].
  apply (serialization_round_trip demo_gen demo_room_board).
  - apply demo_gen_distinct.
  - apply demo_room_board_reachable.
Defined.

(** *** Rooms *)

Lemma get_room_reads_only U room_id w : (get_room U room_id w).2 = w.
Proof.
  unfold get_room, mbind, io_bind, io_get. simpl.
  destruct (redis w !! room_key room_id) as [data|]; [|done].
  unfold fmap, io_fmap, io_lift. by destruct (GameRoomInfo_from_json U data).
Qed.

Lemma get_room_found U room_id w room :
  (get_room U room_id w).1 = Ok (Some room) →
  get_room U room_id w = (Ok (Some room), w).
Proof.
  intros Hget. pose proof (get_room_reads_only U room_id w) as Hw.
  destruct (get_room U room_id w) as [r w']. simpl in *. congruence.
Qed.

(** [join_room] by a new player on a room with a free black seat. *)
Lemma join_room_accepts U room_id player2_id now w room :
  get_room U room_id w = (Ok (Some room), w) →
  GameRoomInfo.player2_id room = None →
  GameRoomInfo.player1_id room ≠ Some player2_id →
  join_room U room_id player2_id now w
    = (Ok (Some (joined player2_id now room)),
       set_redis
         (<[room_key (GameRoomInfo.id room)
              := room_record (joined player2_id now room)]> (redis w)) w).
Proof.
  intros Hget Hfree Hother. unfold join_room, mbind, io_bind. rewrite Hget.
  rewrite decide_False by (by intros ?). by rewrite decide_False.
Qed.

(** C6. When the black binding of the room is set, [join_room] fails with
    "Room is already full." and writes nothing; when it is unset and the
    joining player is the white binding, it fails with "Player is already
    player1 in this room." and writes nothing; otherwise it binds black to the
    player, sets the room status to in-progress and stores the room under its
    key. *)
Theorem join_room_outcomes U room_id player2_id now w room :
  (get_room U room_id w).1 = Ok (Some room) →
  (GameRoomInfo.player2_id room ≠ None →
   join_room U room_id player2_id now w
     = (Raise (ValueError "Room is already full."), w)) ∧
  (GameRoomInfo.player2_id room = None →
   GameRoomInfo.player1_id room = Some player2_id →
   join_room U room_id player2_id now w
     = (Raise (ValueError "Player is already player1 in this room."), w)) ∧
  (GameRoomInfo.player2_id room = None →
   GameRoomInfo.player1_id room ≠ Some player2_id →
   let room' := joined player2_id now room in
   join_room U room_id player2_id now w
     = (Ok (Some room'),
        set_redis (<[room_key (GameRoomInfo.id room) := room_record room']>
                     (redis w)) w) ∧
   GameRoomInfo.player1_id room' = GameRoomInfo.player1_id room ∧
   GameRoomInfo.player2_id room' = Some player2_id ∧
   GameRoomInfo.status room' = EnumMember IN_PROGRESS ∧
   players_get "black" (players (GameRoomInfo.board_state room'))
     = Some (uuid_str player2_id)).
Proof.
  intros Hget. apply get_room_found in Hget.
  split; [|split].
  - intros Hfull. unfold join_room, mbind, io_bind. rewrite Hget.
    by rewrite decide_True.
  - intros Hfree Hsame. unfold join_room, mbind, io_bind. rewrite Hget.
    rewrite decide_False by (by intros ?). by rewrite decide_True.
  - intros Hfree Hother. simpl.
    split; [by apply join_room_accepts|].
    split; [done|]. split; [done|]. split; [done|].
    unfold players_get. simpl. by rewrite lookup_insert_eq.
Qed.

Lemma demo_room_found :
  (get_room demo_parse demo_room_id demo_world).1 = Ok (Some demo_room).
Proof. by vm_compute. Qed.

Lemma demo_join :
  (get_room demo_parse demo_room_id demo_world).1 = Ok (Some demo_room) ∧
  GameRoomInfo.player2_id demo_room = None ∧
  GameRoomInfo.player1_id demo_room ≠ Some demo_black ∧
  let room' := joined demo_black 1%Q demo_room in
  join_room demo_parse demo_room_id demo_black 1%Q demo_world
    = (Ok (Some room'),
       set_redis (<[room_key (GameRoomInfo.id demo_room) := room_record room']>
                    (redis demo_world)) demo_world) ∧
  GameRoomInfo.player1_id room' = GameRoomInfo.player1_id demo_room ∧
  GameRoomInfo.player2_id room' = Some demo_black ∧
  GameRoomInfo.status room' = EnumMember IN_PROGRESS ∧
  players_get "black" (players (GameRoomInfo.board_state room'))
    = Some (uuid_str demo_black).
Proof.
  split; [apply demo_room_found|]. split; [by vm_compute|].
  split; [by vm_compute|].
  apply (join_room_outcomes demo_parse demo_room_id demo_black 1%Q demo_world demo_room).
  - apply demo_room_found.
  - by vm_compute.
  - by vm_compute.
Defined.

(** C8 fails on the code. After [create_room] and [join_room] the room and
    its stored record have status in-progress while the board inside them
    still has [game_status] waiting: [join_room] sets [room.status] and the
    black player of the board, not the status of the board, which
    [surrender_room] does set together with the status of the room. *)
Theorem join_room_leaves_board_status_waiting :
  ∃ room' w' record,
    join_room demo_parse demo_room_id demo_black 1%Q demo_world = (Ok (Some room'), w') ∧
    GameRoomInfo.status room' = EnumMember IN_PROGRESS ∧
    game_status (GameRoomInfo.board_state room') = WAITING ∧
    redis w' !! room_key demo_room_id = Some record ∧
    RoomJson.status record = "in_progress" ∧
    GameState.game_status (RoomJson.board_state record) = Some "waiting".
Proof.
  pose proof (join_room_accepts demo_parse demo_room_id demo_black 1%Q demo_world
                demo_room (get_room_found _ _ _ _ demo_room_found)) as Hjoin.
  eexists _, _, _. split; [apply Hjoin; by vm_compute|].
  split; [done|]. split; [by vm_compute|]. split.
  - unfold set_redis. cbn [redis].
    assert (GameRoomInfo.id demo_room = demo_room_id) as -> by (by vm_compute).
    apply lookup_insert_eq.
  - split; by vm_compute.
Qed.

(** The sibling path: [surrender_room] sets both statuses. *)
Lemma surrender_room_sets_both_statuses U room_id player_id now w room :
  (get_room U room_id w).1 = Ok (Some room) →
  GameRoomInfo.player1_id room = Some player_id →
  ∃ room' w',
    surrender_room U room_id player_id now w = (Ok (Some room'), w') ∧
    GameRoomInfo.status room' = EnumMember RESIGNED ∧
    game_status (GameRoomInfo.board_state room') = RESIGNED.
Proof.
  intros Hget Hp1. apply get_room_found in Hget.
  unfold surrender_room, mbind, io_bind. rewrite Hget.
  rewrite decide_False; [by eexists _, _|].
  intros [Hne _]. apply Hne. by rewrite Hp1.
Qed.

(** *** The session loop *)
Section session.
Variable U : string → result UUID.
Variable untyped :
  json → json → json → UUID → timestamp → BoardState → result BoardState.
Variables (ws : websocket) (room_id : UUID).

Lemma eq_str_true j s : eq_str j s = true → j = JStr s.
Proof. destruct j; simpl; try done. by intros ->%bool_decide_eq_true. Qed.

(** The binding of [player_making_move_id] after a frame depends on the frame
    alone: a well-formed move frame sets it, any other frame keeps it. *)
Lemma on_received_binding r t_move t_store local w :
  (on_received U untyped ws room_id r t_move t_store local w).1
    = match move_frame_player U r with Some u => Some u | None => local end.
Proof.
  destruct r as [message|]; [|done].
  unfold on_received, on_message, move_frame_player.
  destruct message as [| | | | | |d]; try done. simpl.
  destruct (dict_get "type" d) as [type|]; [|done].
  destruct (eq_str type "move") eqn:Hmove; simpl.
  2:{ assert (match dict_get "payload" d with
              | Some (JDict _) => @None UUID
              | _ => None
              end = None) as -> by (by repeat case_match).
      destruct (eq_str type "chat_message"); kept. }
  unfold parse_move, move_parameters. simpl.
  destruct (dict_get "payload" d) as [payload|]; simpl; [|kept].
  destruct payload as [| | | | | |p]; simpl; try kept.
  destruct (truthy (default JNull (dict_get "figure_id" p))); simpl; [|kept].
  destruct (is_None (default JNull (dict_get "new_row" p))); simpl; [kept|].
  destruct (is_None (default JNull (dict_get "new_col" p))); simpl; [kept|].
  destruct (truthy (default JNull (dict_get "player_id" p))); simpl; [|kept].
  destruct (default JNull (dict_get "player_id" p)) as [| | | |s| |]; simpl;
    try kept.
  destruct (U s) as [u|e]; simpl; [kept|].
  destruct e; kept.
Qed.

(** A chat frame with a text is published with the sender that the binding
    gives. *)
Lemma on_received_chat message text t_move t_store local w :
  chat_text message = Some text →
  on_received U untyped ws room_id (Decoded message) t_move t_store local w
    = (local,
       (Ok tt,
        set_published
          (published w ++ [(channel_name room_id, ChatMessage (sender_id local) text)])
          w)).
Proof.
  unfold chat_text, on_received, on_message.
  destruct message as [| | | | | |d]; try done. simpl.
  destruct (dict_get "type" d) as [type|]; [|done].
  destruct (eq_str type "chat_message") eqn:Hchat; [|done].
  apply eq_str_true in Hchat as ->. simpl.
  unfold process_chat, mbind, io_bind, io_lift. simpl.
  destruct (default (JDict []) (dict_get "payload" d)) as [| | | | | |p]; try done.
  simpl. destruct (truthy (default JNull (dict_get "message" p))); [|done].
  by intros [= <-].
Qed.

Lemma serve_app pre rest local w :
  serve U untyped ws room_id (pre ++ rest) local w
    = match serve U untyped ws room_id pre local w with
      | (local', (StillOpen, w')) => serve U untyped ws room_id rest local' w'
      | out => out
      end.
Proof.
  revert local w. induction pre as [|[[r t1] t2] pre IH]; intros local w; simpl.
  { done. }
  destruct (on_received U untyped ws room_id r t1 t2 local w) as [local' [[[]|e] w']].
  - apply IH.
  - by destruct (on_critical_error ws room_id e w') as [? ?].
Qed.

Lemma serve_binding frames : ∀ local w,
  (serve U untyped ws room_id frames local w).2.1 = StillOpen →
  (serve U untyped ws room_id frames local w).1 = player_after U frames local.
Proof.
  induction frames as [|[[r t1] t2] frames IH]; intros local w; simpl; [done|].
  pose proof (on_received_binding r t1 t2 local w) as Hbind.
  destruct (on_received U untyped ws room_id r t1 t2 local w) as [local' [[[]|e] w']];
    simpl in Hbind; subst local'.
  - apply IH.
  - by destruct (on_critical_error ws room_id e w') as [? ?].
Qed.

Lemma player_after_no_move frames local :
  Forall (no_move_frame U) frames → player_after U frames local = local.
Proof.
  unfold player_after. intros Hall. revert local.
  induction Hall as [|frame frames Hframe _ IH]; intros local; simpl; [done|].
  unfold no_move_frame in Hframe. rewrite Hframe. apply IH.
Qed.

Lemma player_after_last_move pre1 frame pre2 u local :
  move_frame_player U frame.1.1 = Some u →
  Forall (no_move_frame U) pre2 →
  player_after U (pre1 ++ frame :: pre2) local = Some u.
Proof.
  intros Hframe Hall. unfold player_after.
  rewrite foldl_app. simpl. rewrite Hframe.
  by apply player_after_no_move.
Qed.
End session.

(** C9. On a connection whose loop has processed the frames [pre] and then a
    chat frame with a text, the chat message is published with the sender
    that the move history gives: "Anonymous" when no frame of [pre] is a
    well-formed move frame, and the player id of the last well-formed move
    frame of [pre] otherwise, whatever the board did with that move. *)
Theorem chat_sender_follows_move_history U untyped ws room_id pre chat text
    t_move t_store w :
  let out := serve U untyped ws room_id (pre ++ [(Decoded chat, t_move, t_store)])
               None w in
  out.2.1 = StillOpen →
  chat_text chat = Some text →
  ∃ w1,
    serve U untyped ws room_id pre None w
      = (player_after U pre None, (StillOpen, w1)) ∧
    out.2.2 = set_published
                (published w1 ++
                   [(channel_name room_id,
                     ChatMessage (sender_id (player_after U pre None)) text)]) w1 ∧
    (Forall (no_move_frame U) pre →
       sender_id (player_after U pre None) = "Anonymous") ∧
    (∀ pre1 frame pre2 u,
       pre = pre1 ++ frame :: pre2 →
       move_frame_player U frame.1.1 = Some u →
       Forall (no_move_frame U) pre2 →
       sender_id (player_after U pre None) = uuid_str u).
Proof.
  intros out Hopen Htext. subst out. rewrite serve_app in Hopen |- *.
  pose proof (serve_binding U untyped ws room_id pre None w) as Hbind.
  destruct (serve U untyped ws room_id pre None w) as [local [[|r] w1]];
    simpl in Hopen, Hbind; [|done].
  rewrite Hbind by done. exists w1. split; [done|].
  split.
  { cbn [serve]. by rewrite (on_received_chat U untyped ws room_id chat text). }
  split.
  - intros Hnone. by rewrite player_after_no_move.
  - intros pre1 frame pre2 u -> Hframe Hnone.
    by rewrite (player_after_last_move U pre1 frame pre2 u).
Qed.

Lemma demo_chat_sender :
  let pre := [(Decoded demo_move_frame, 1%Q, 2%Q)] in
  let out := serve demo_parse demo_untyped 7%nat demo_room_id
               (pre ++ [(Decoded demo_chat_frame, 3%Q, 4%Q)]) None demo_world in
  out.2.1 = StillOpen ∧
  chat_text demo_chat_frame = Some (JStr "hello") ∧
  ∃ w1,
    serve demo_parse demo_untyped 7%nat demo_room_id pre None demo_world
      = (player_after demo_parse pre None, (StillOpen, w1)) ∧
    out.2.2 = set_published
                (published w1 ++
                   [(channel_name demo_room_id,
                     ChatMessage (sender_id (player_after demo_parse pre None))
                       (JStr "hello"))]) w1 ∧
    (Forall (no_move_frame demo_parse) pre →
       sender_id (player_after demo_parse pre None) = "Anonymous") ∧
    (∀ pre1 frame pre2 u,
       pre = pre1 ++ frame :: pre2 →
       move_frame_player demo_parse frame.1.1 = Some u →
       Forall (no_move_frame demo_parse) pre2 →
       sender_id (player_after demo_parse pre None) = uuid_str u).
Proof.
  split; [by vm_compute|]. split; [reflexivity|].
  apply (chat_sender_follows_move_history demo_parse demo_untyped 7%nat demo_room_id
           [(Decoded demo_move_frame, 1%Q, 2%Q)] demo_chat_frame (JStr "hello")
           3%Q 4%Q demo_world).
  - by vm_compute.
  - reflexivity.
Defined.

(** The sender in the two histories of the example. *)
Example demo_chat_after_rejected_move :
  (serve demo_parse demo_untyped 7%nat demo_room_id
     [(Decoded demo_move_frame, 1%Q, 2%Q); (Decoded demo_chat_frame, 3%Q, 4%Q)]
     None demo_world).2.2.(published).*2
  = [ChatMessage (uuid_str demo_black) (JStr "hello")].
Proof. by vm_compute. Qed.

Example demo_chat_before_any_move :
  (serve demo_parse demo_untyped 7%nat demo_room_id
     [(Decoded demo_chat_frame, 3%Q, 4%Q)] None demo_world).2.2.(published).*2
  = [ChatMessage "Anonymous" (JStr "hello")].
Proof. by vm_compute. Qed.

(** *** The connection registry *)

Lemma send_each_spec m conns : ∀ w,
  ∃ w', send_each conns m w = (Ok (filter (λ c, c ∈ closed w) conns), w') ∧
        active_connections w' = active_connections w ∧
        _pubsub_listeners w' = _pubsub_listeners w ∧
        closed w' = closed w.
Proof.
  induction conns as [|c conns IH]; intros w; simpl.
  { by exists w. }
  unfold mbind, io_bind, io_try, send_json.
  destruct (decide (c ∈ closed w)) as [Hc|Hc].
  - rewrite filter_cons_True by done. simpl.
    destruct (IH w) as (w' & -> & ? & ? & ?). by exists w'.
  - rewrite filter_cons_False by done. simpl.
    destruct (IH (set_sent (sent w ++ [(c, m)]) w)) as (w' & -> & ? & ? & ?).
    by exists w'.
Qed.

Lemma remove_each_spec l : ∀ s : gset websocket,
  remove_each l s = s ∖ list_to_set l.
Proof.
  unfold remove_each. induction l as [|x l IH]; intros s; simpl.
  { set_solver. }
  rewrite IH. case_decide; set_solver.
Qed.

(** C10. [disconnect] raises [KeyError] when the room has an entry that does
    not hold the socket, and does nothing only when the room has no entry; a
    broadcast whose sends all fail leaves the room mapped to the empty set,
    so the [disconnect] that follows it raises. *)
Theorem disconnect_raises_on_absent_socket ws room_id w :
  (∀ conns, active_connections w !! room_id = Some conns → ws ∉ conns →
     disconnect ws room_id w = (Raise KeyError, w)) ∧
  (active_connections w !! room_id = None →
     disconnect ws room_id w = (Ok tt, w)) ∧
  (∀ conns m, active_connections w !! room_id = Some conns → conns ⊆ closed w →
     ∃ w', broadcast room_id m w = (Ok tt, w') ∧
           active_connections w' !! room_id = Some ∅ ∧
           disconnect ws room_id w' = (Raise KeyError, w')).
Proof.
  split; [|split].
  - intros conns Hconns Hws. unfold disconnect. rewrite Hconns.
    by rewrite decide_False.
  - intros Hnone. unfold disconnect. by rewrite Hnone.
  - intros conns m Hconns Hclosed.
    destruct (send_each_spec m (elements conns) w) as (w1 & Hsend & Hac & Hl & Hcl).
    assert (remove_each (filter (λ c, c ∈ closed w) (elements conns)) conns = ∅)
      as Hempty.
    { rewrite remove_each_spec. apply set_eq. intros x.
      rewrite elem_of_difference, elem_of_list_to_set, list_elem_of_filter,
        elem_of_elements.
      split; [|set_solver]. intros [Hx Hnot]. exfalso. apply Hnot. set_solver. }
    eexists. split; [|split].
    + unfold broadcast, mbind, io_bind, io_get, io_modify. rewrite Hconns.
      rewrite Hsend, Hempty. rewrite decide_True by done. reflexivity.
    + unfold stop_listener. simpl.
      destruct (_pubsub_listeners w1 !! room_id); simpl; apply lookup_insert_eq.
    + unfold disconnect.
      assert (active_connections
                (stop_listener room_id
                   (set_active_connections
                      (<[room_id:=∅]> (active_connections w1)) w1)) !! room_id
              = Some ∅) as ->.
      { unfold stop_listener. simpl.
        destruct (_pubsub_listeners w1 !! room_id); simpl; apply lookup_insert_eq. }
      rewrite decide_False; [done|]. set_solver.
Qed.

Lemma demo_disconnect :
  active_connections demo_registry !! demo_room_id = Some {[ 7%nat ]} ∧
  ({[ 7%nat ]} : gset websocket) ⊆ closed demo_registry ∧
  (∀ conns, active_connections demo_registry !! demo_room_id = Some conns →
     7%nat ∉ conns →
     disconnect 7%nat demo_room_id demo_registry = (Raise KeyError, demo_registry)) ∧
  (active_connections demo_registry !! demo_room_id = None →
     disconnect 7%nat demo_room_id demo_registry = (Ok tt, demo_registry)) ∧
  (∀ conns m, active_connections demo_registry !! demo_room_id = Some conns →
     conns ⊆ closed demo_registry →
     ∃ w', broadcast demo_room_id m demo_registry = (Ok tt, w') ∧
           active_connections w' !! demo_room_id = Some ∅ ∧
           disconnect 7%nat demo_room_id w' = (Raise KeyError, w')).
Proof.
  split; [by vm_compute|]. split; [done|].
  apply (disconnect_raises_on_absent_socket 7%nat demo_room_id demo_registry).
Defined.

(* ===================================================================== *)
(** * Further properties of the code *)

(** ** Construction, removal and the two indexes on arbitrary boards *)

Lemma list_index_indexable {A} (l : list A) (i : Z) :
  length l = 8%nat → -8 ≤ i < 8 →
  ∃ k, list_index l i = Ok k ∧ (k < 8)%nat ∧
       k = Z.to_nat (if bool_decide (0 ≤ i) then i else i + 8).
Proof.
  intros Hl Hi. unfold list_index. rewrite Hl.
  destruct (decide (0 ≤ i)) as [H0|H0].
  - rewrite bool_decide_eq_true_2 by lia. rewrite (bool_decide_eq_true_2 (0 ≤ i)) by done.
    eexists. split; [done|]. split; [lia|done].
  - rewrite bool_decide_eq_false_2 by lia. rewrite bool_decide_eq_true_2 by lia.
    rewrite (bool_decide_eq_false_2 (0 ≤ i)) by done.
    eexists. split; [done|]. split; [lia|done].
Qed.

Lemma list_index_not_indexable {A} (l : list A) (i : Z) :
  length l = 8%nat → ¬ (-8 ≤ i < 8) → list_index l i = Raise IndexError.
Proof.
  intros Hl Hi. unfold list_index. rewrite Hl.
  rewrite bool_decide_eq_false_2 by lia. by rewrite bool_decide_eq_false_2 by lia.
Qed.

Lemma board_setitem_indexable b r c v :
  board_shape b → -8 ≤ r < 8 → -8 ≤ c < 8 →
  ∃ b', board_setitem b r c v = Ok b' ∧ board_shape b'.
Proof.
  intros [Hlen Hrows] Hr Hc. unfold board_setitem, list_getitem, list_setitem.
  destruct (list_index_indexable b r Hlen Hr) as (k & -> & Hk & _). simpl.
  destruct (lookup_lt_is_Some_2 b k) as [cells Hcells]; [lia|].
  rewrite Hcells. simpl.
  assert (length cells = 8%nat) as Hcl
    by apply (Forall_lookup_1 _ _ _ _ Hrows Hcells).
  destruct (list_index_indexable cells c Hcl Hc) as (j & -> & Hj & _). simpl.
  eexists. split; [done|]. split.
  - by rewrite length_insert.
  - apply Forall_insert; [done|]. by rewrite length_insert.
Qed.

Lemma board_setitem_not_indexable b r c v :
  board_shape b → ¬ (-8 ≤ r < 8 ∧ -8 ≤ c < 8) →
  board_setitem b r c v = Raise IndexError.
Proof.
  intros [Hlen Hrows] Hrc. unfold board_setitem, list_getitem, list_setitem.
  destruct (decide (-8 ≤ r < 8)) as [Hr|Hr].
  - destruct (list_index_indexable b r Hlen Hr) as (k & -> & Hk & _). simpl.
    destruct (lookup_lt_is_Some_2 b k) as [cells Hcells]; [lia|].
    rewrite Hcells. simpl.
    assert (length cells = 8%nat) as Hcl
      by apply (Forall_lookup_1 _ _ _ _ Hrows Hcells).
    rewrite (list_index_not_indexable cells c Hcl); [done|]. tauto.
  - by rewrite (list_index_not_indexable b r Hlen Hr).
Qed.

Lemma init_pieces_indexable ps : ∀ n st,
  board_shape (board st) →
  if decide (Forall indexable ps)
  then ∃ st', init_pieces ps n st = Ok st' ∧ board_shape (board st') ∧
              game_status st' = game_status st
  else init_pieces ps n st = Raise IndexError.
Proof.
  induction ps as [|pd ps IH]; intros n st Hshape.
  - rewrite decide_True by constructor. by exists st.
  - cbn [init_pieces].
    destruct (decide (indexable pd)) as [Hpd|Hpd].
    + destruct Hpd as [Hr Hc].
      destruct (board_setitem_indexable (board st) (row pd) (col pd) (Some pd)
                  Hshape Hr Hc) as (b' & -> & Hb').
      cbn [mbind result_bind].
      match goal with |- context [init_pieces ps (S n) ?s] =>
        specialize (IH (S n) s Hb') end.
      destruct (decide (Forall indexable ps)) as [Hps|Hps].
      * rewrite decide_True by (by constructor). done.
      * rewrite decide_False by (by inversion 1). done.
    + rewrite decide_False by (by inversion 1).
      by rewrite board_setitem_not_indexable.
Qed.

(** X1 (board_state.py, the keys of the coordinate index): the key
    [f"{row}_{col}"] identifies the pair (row, col), negative numbers
    included: two cells share a key only if they are the same cell. *)
Theorem coordinate_keys_identify_cells r c r' c' :
  coord_key r c = coord_key r' c' ↔ r = r' ∧ c = c'.
Proof.
  split.
  - unfold coord_key. intros Hk.
    apply underscore_split in Hk as [Hr Hc];
      [| apply pretty_Z_no_underscore | apply pretty_Z_no_underscore].
    split; by apply (inj pretty).
  - by intros [-> ->].
Qed.

(** X2 (BoardState.__init__): the constructor raises ValueError when the
    status text is no member of GameStatus, whatever the pieces are;
    otherwise it succeeds exactly when every piece's row and column lie in
    -8..7 (Python accepts negative indexes), with an 8x8 grid and the parsed
    status, and raises IndexError as soon as some piece does not. *)
Theorem construction_outcome d :
  match GameStatus_of_value (default "waiting" (GameState.game_status d)) with
  | Raise e => (∃ msg, e = ValueError msg) ∧ BoardState_init d = Raise e
  | Ok status =>
      if decide (Forall indexable (default [] (GameState.board_pieces d)))
      then ∃ st, BoardState_init d = Ok st ∧ game_status st = status ∧
                 board_shape (board st)
      else BoardState_init d = Raise IndexError
  end.
Proof.
  set (ps := default [] (GameState.board_pieces d)).
  unfold BoardState_init.
  destruct (GameStatus_of_value _) as [status|e] eqn:Hs.
  - cbn [mbind result_bind].
    match goal with |- context [init_pieces _ 0%nat ?s] =>
      pose proof (init_pieces_indexable ps 0%nat s) as H end.
    lapply H; [|split; [done|repeat constructor]].
    clear H. intros H. destruct (decide (Forall indexable ps)); [|exact H].
    destruct H as (st & Hst & Hshape & Hstatus). by exists st.
  - split; [|done]. revert Hs. unfold GameStatus_of_value.
    repeat case_decide; try done. intros [= <-]. by eexists.
Qed.

(** ** What a call of move_piece changes *)

Lemma remove_piece_inv piece st st' :
  _remove_piece_from_board piece st = Ok st' → ∃ b, st' = removed piece b st.
Proof.
  unfold _remove_piece_from_board.
  destruct (board_setitem _ _ _ _) as [b|]; simpl; [|done].
  intros [= <-]. by exists b.
Qed.

Lemma execute_move_inv piece r0 c0 r c now st st' :
  execute_move piece r0 c0 r c now st = Ok st' →
  ∃ b, st' = executed piece r0 c0 r c now b st.
Proof.
  unfold execute_move.
  destruct (board_setitem _ _ _ _); simpl; [|done].
  destruct (board_setitem _ _ _ _) as [b|]; simpl; [|done].
  intros [= <-]. by exists b.
Qed.

(** The two ways in which [move_piece] returns. *)
Lemma move_piece_inv fid new_row new_col player now st st' :
  move_piece fid new_row new_col player now st = Ok st' →
  (∃ k e, first_failed_check fid new_row new_col player st = Some k ∧
          error_of k e ∧ st' = append_game_log e st) ∨
  (first_failed_check fid new_row new_col player st = None ∧
   ∃ piece b st1,
     dict_get fid (_figure_id_to_piece_map st) = Some piece ∧
     actual_player_color player st = Some (current_player st) ∧
     st' = executed piece (row (objects st piece)) (col (objects st piece))
             new_row new_col now b st1 ∧
     ((_get_piece_at new_row new_col st = None ∧ st1 = st) ∨
      (∃ target b1,
         _get_piece_at new_row new_col st = Some target ∧
         st1 = append_game_log
                 (msg_capture (objects st piece) (objects st target) new_row new_col)
                 (removed target b1 st)))).
Proof.
  intros Hmove.
  destruct (first_failed_check fid new_row new_col player st) as [k|] eqn:Hk.
  { left. destruct (move_piece_rejected _ _ _ _ now _ _ Hk) as (e & He & Herr).
    rewrite He in Hmove. simplify_eq. by exists k, e. }
  right. split; [done|].
  destruct (move_piece_accepted _ _ _ _ now _ Hk)
    as (piece & Hid & Hactual & _ & _ & Heq & _).
  rewrite Heq in Hmove. clear Heq.
  destruct (_get_piece_at new_row new_col st) as [target|] eqn:Ht.
  - destruct (_remove_piece_from_board target st) as [st1|] eqn:Hrm; [|done].
    cbn [mbind result_bind] in Hmove.
    apply remove_piece_inv in Hrm as [b1 ->].
    apply execute_move_inv in Hmove as [b Hst'].
    exists piece, b. eexists. split; [done|]. split; [done|]. split; [exact Hst'|].
    right. by exists target, b1.
  - apply execute_move_inv in Hmove as [b Hst'].
    exists piece, b, st. split; [done|]. split; [done|]. split; [exact Hst'|].
    by left.
Qed.

Lemma dict_del_length {V} k (d : dict V) :
  length d = match dict_get k d with
             | Some _ => S (length (dict_del k d))
             | None => length (dict_del k d)
             end.
Proof.
  induction d as [|[k' v] d IH]; [done|]. simpl.
  case_decide; [done|]. simpl. rewrite IH. by destruct (dict_get k d).
Qed.

(** X3 (BoardState.move_piece, any board and any request): a call that
    returns adds no figure id to the id index and removes at most one, and
    every piece object keeps its figure id, name and color. *)
Theorem move_piece_keeps_the_cast fid new_row new_col player now st st' :
  move_piece fid new_row new_col player now st = Ok st' →
  (_figure_id_to_piece_map st').*1 ⊆ (_figure_id_to_piece_map st).*1 ∧
  (length (_figure_id_to_piece_map st) ≤ S (length (_figure_id_to_piece_map st')))%nat ∧
  (length (_figure_id_to_piece_map st') ≤ length (_figure_id_to_piece_map st))%nat ∧
  ∀ piece,
    figure_id (objects st' piece) = figure_id (objects st piece) ∧
    name (objects st' piece) = name (objects st piece) ∧
    color (objects st' piece) = color (objects st piece).
Proof.
  intros Hmove.
  apply move_piece_inv in Hmove
    as [(k & e & _ & _ & ->)|(_ & piece & b & st1 & _ & _ & -> & Hst1)].
  { split; [done|]. split; [simpl; lia|]. split; [simpl; lia|]. done. }
  rewrite executed_ids, executed_objects.
  assert (objects st1 = objects st) as Hobj.
  { by destruct Hst1 as [[_ ->]|(target & b1 & _ & ->)]. }
  rewrite Hobj.
  assert (∀ q, figure_id (<[piece := piece_moved_to new_row new_col (objects st piece)]>
                            (objects st) q) = figure_id (objects st q) ∧
               name (<[piece := piece_moved_to new_row new_col (objects st piece)]>
                            (objects st) q) = name (objects st q) ∧
               color (<[piece := piece_moved_to new_row new_col (objects st piece)]>
                            (objects st) q) = color (objects st q)) as Hsame.
  { intros q. destruct (decide (q = piece)) as [->|Hne].
    - by rewrite fn_lookup_insert.
    - by rewrite fn_lookup_insert_ne. }
  destruct Hst1 as [[_ ->]|(target & b1 & _ & ->)].
  - split; [done|]. split; [lia|]. split; [lia|]. exact Hsame.
  - change (_figure_id_to_piece_map (append_game_log ?e (removed ?t ?b ?s)))
      with (dict_del (figure_id (objects s t)) (_figure_id_to_piece_map s)).
    pose proof (dict_del_length (figure_id (objects st target))
                  (_figure_id_to_piece_map st)) as Hlen.
    split; [apply dict_del_keys_subseteq|].
    destruct (dict_get _ _); (split; [lia|]); (split; [lia|]); exact Hsame.
Qed.

Lemma demo_cast :
  move_piece "pawn-w" 5 0 demo_white 0%Q demo_state = Ok demo_taken ∧
  (_figure_id_to_piece_map demo_taken).*1 ⊆ (_figure_id_to_piece_map demo_state).*1 ∧
  (length (_figure_id_to_piece_map demo_state)
     ≤ S (length (_figure_id_to_piece_map demo_taken)))%nat ∧
  (length (_figure_id_to_piece_map demo_taken)
     ≤ length (_figure_id_to_piece_map demo_state))%nat ∧
  ∀ piece,
    figure_id (objects demo_taken piece) = figure_id (objects demo_state piece) ∧
    name (objects demo_taken piece) = name (objects demo_state piece) ∧
    color (objects demo_taken piece) = color (objects demo_state piece).
Proof.
  assert (move_piece "pawn-w" 5 0 demo_white 0%Q demo_state = Ok demo_taken) as Hmove
    by (by vm_compute).
  split; [exact Hmove|].
  exact (move_piece_keeps_the_cast "pawn-w" 5 0 demo_white 0%Q demo_state demo_taken
           Hmove).
Defined.

(** X4 (BoardState.move_piece, accepted request on a well-formed board):
    the moved piece keeps its identity, has walked one more step and is no
    longer on its first move; no other piece object changes; exactly one
    record is appended to moves_log; last_move_at is the time of the call; and
    the square the piece left is empty on the grid and in the coordinate
    index. *)
Theorem accepted_move_bookkeeping fid new_row new_col player now st :
  wf st →
  first_failed_check fid new_row new_col player st = None →
  ∃ st' piece,
    move_piece fid new_row new_col player now st = Ok st' ∧
    dict_get fid (_figure_id_to_piece_map st) = Some piece ∧
    let p := objects st piece in
    let p' := objects st' piece in
    figure_id p' = fid ∧ name p' = name p ∧ color p' = color p ∧
    walk_count p' = walk_count p + 1 ∧ is_first_move p' = false ∧
    (∀ other, other ≠ piece → objects st' other = objects st other) ∧
    moves_log st' = moves_log st ++
      [msg_move_record (current_player st) p' (row p) (col p) new_row new_col] ∧
    last_move_at st' = Some now ∧
    ((new_row, new_col) ≠ (row p, col p) →
     board_at (board st') (row p) (col p) = None ∧
     _get_piece_at (row p) (col p) st' = None).
Proof.
  intros Hwf Hk.
  destruct (move_piece_accepted_spec _ _ _ _ now _ Hwf Hk)
    as (piece & b & Hid & _ & _ & Hmove & _ & Hb & _).
  cbv zeta in Hmove.
  set (st1 := match _get_piece_at new_row new_col st with
              | Some target =>
                  append_game_log
                    (msg_capture (objects st piece) (objects st target) new_row new_col)
                    (removed target (board st) st)
              | None => st
              end) in Hmove.
  assert (objects st1 = objects st) as Hobj
    by (subst st1; by destruct (_get_piece_at _ _ _)).
  assert (moves_log st1 = moves_log st ∧ current_player st1 = current_player st)
    as [Hml Hcp] by (subst st1; by destruct (_get_piece_at _ _ _)).
  eexists _, piece. split; [exact Hmove|]. split; [exact Hid|].
  cbv zeta. rewrite executed_objects, executed_board, Hobj.
  destruct (executed_turn piece (row (objects st piece)) (col (objects st piece))
              new_row new_col now b st1) as (_ & _ & Hlast).
  destruct (executed_logs piece (row (objects st piece)) (col (objects st piece))
              new_row new_col now b st1) as (_ & Hmoves).
  cbv zeta in Hmoves. rewrite Hobj, Hml, Hcp in Hmoves.
  rewrite fn_lookup_insert.
  destruct (wf_ids st Hwf _ _ Hid) as [Hfid _].
  split; [exact Hfid|]. do 4 (split; [done|]).
  split; [by intros other Hne; rewrite fn_lookup_insert_ne|].
  split; [exact Hmoves|]. split; [exact Hlast|].
  intros Hcell. split.
  - rewrite Hb. rewrite decide_False by (intros [<- <-]; by apply Hcell).
    by rewrite decide_True.
  - unfold _get_piece_at. rewrite executed_coords.
    rewrite lookup_insert_ne by (by apply coord_key_ne).
    apply lookup_delete_eq.
Qed.

Lemma demo_bookkeeping :
  wf demo_state ∧
  first_failed_check "pawn-w" 4 0 demo_white demo_state = None ∧
  ∃ st' piece,
    move_piece "pawn-w" 4 0 demo_white 0%Q demo_state = Ok st' ∧
    dict_get "pawn-w" (_figure_id_to_piece_map demo_state) = Some piece ∧
    let p := objects demo_state piece in
    let p' := objects st' piece in
    figure_id p' = "pawn-w" ∧ name p' = name p ∧ color p' = color p ∧
    walk_count p' = walk_count p + 1 ∧ is_first_move p' = false ∧
    (∀ other, other ≠ piece → objects st' other = objects demo_state other) ∧
    moves_log st' = moves_log demo_state ++
      [msg_move_record (current_player demo_state) p' (row p) (col p) 4 0] ∧
    last_move_at st' = Some 0%Q ∧
    ((4, 0) ≠ (row p, col p) →
     board_at (board st') (row p) (col p) = None ∧
     _get_piece_at (row p) (col p) st' = None).
Proof.
  split; [apply demo_state_wf|]. split; [by vm_compute|].
  apply (accepted_move_bookkeeping "pawn-w" 4 0 demo_white 0%Q demo_state);
    [apply demo_state_wf|by vm_compute].
Defined.

(** X5 (BoardState.move_piece, turn order): after an accepted move the
    player who made it is out of turn: whatever that player requests next
    fails the turn check, or the piece lookup that precedes it. *)
Theorem same_player_cannot_move_twice fid new_row new_col player now st st'
    fid' new_row' new_col' :
  first_failed_check fid new_row new_col player st = None →
  move_piece fid new_row new_col player now st = Ok st' →
  first_failed_check fid' new_row' new_col' player st' = Some PieceExists ∨
  first_failed_check fid' new_row' new_col' player st' = Some InTurn.
Proof.
  intros Hk Hmove.
  apply move_piece_inv in Hmove
    as [(k & e & Hk' & _)|(_ & piece & b & st1 & _ & Hactual & -> & Hst1)].
  { congruence. }
  set (st' := executed _ _ _ _ _ _ _ _).
  assert (players st' = players st ∧
          current_player st'
            = (if decide (current_player st = "white") then "black" else "white"))
    as [Hpl Hcp].
  { subst st'. by destruct Hst1 as [[_ ->]|(target & b1 & _ & ->)]. }
  assert (actual_player_color player st' = Some (current_player st)) as Hact.
  { unfold actual_player_color in *. by rewrite Hpl. }
  assert (current_player st' ≠ current_player st) as Hflip.
  { rewrite Hcp. case_decide as Hw; [by rewrite Hw|]. by apply not_eq_sym. }
  unfold first_failed_check, validation_order. cbn [List.find check_passes].
  rewrite Hact.
  destruct (bool_decide (is_Some (requested_piece fid' st'))); [|by left].
  right. cbn [negb].
  rewrite (bool_decide_eq_true_2 (is_Some (Some _))) by done. cbn [negb].
  rewrite bool_decide_eq_false_2; [done|]. intros [= Heq]. by apply Hflip.
Qed.

Lemma demo_second_request :
  first_failed_check "pawn-w" 4 0 demo_white demo_state = None ∧
  move_piece "pawn-w" 4 0 demo_white 0%Q demo_state = Ok demo_moved ∧
  (first_failed_check "rook-w" 6 0 demo_white demo_moved = Some PieceExists ∨
   first_failed_check "rook-w" 6 0 demo_white demo_moved = Some InTurn).
Proof.
  split; [by vm_compute|]. split; [by vm_compute|].
  apply (same_player_cannot_move_twice "pawn-w" 4 0 demo_white 0%Q demo_state);
    by vm_compute.
Defined.

(** X6 (BoardState.move_piece, a move to the piece's own square): on a
    well-formed board whose pieces all stand on the grid, a request to move a
    piece to the square it stands on is never accepted. *)
Theorem move_to_own_square_is_rejected fid player st piece :
  wf st → all_on_board st →
  dict_get fid (_figure_id_to_piece_map st) = Some piece →
  ∃ k, first_failed_check fid (row (objects st piece)) (col (objects st piece))
         player st = Some k.
Proof.
  intros Hwf Hon Hid.
  destruct (first_failed_check _ _ _ _ _) as [k|] eqn:Hk; [by exists k|].
  exfalso.
  destruct (move_piece_accepted _ _ _ _ 0%Q _ Hk) as (piece' & Hid' & _ & _ & _ & _ & Hown).
  rewrite Hid in Hid'. injection Hid' as <-.
  by apply (Hown piece (Hon _ _ Hid)).
Qed.

Lemma demo_own_square :
  wf demo_state ∧ all_on_board demo_state ∧
  dict_get "pawn-w" (_figure_id_to_piece_map demo_state) = Some 0%nat ∧
  ∃ k, first_failed_check "pawn-w" (row (objects demo_state 0%nat))
         (col (objects demo_state 0%nat)) demo_white demo_state = Some k.
Proof.
  split; [apply demo_state_wf|]. split; [apply demo_state_wf|].
  split; [by vm_compute|].
  apply (move_to_own_square_is_rejected "pawn-w" demo_white demo_state 0%nat);
    [apply demo_state_wf|apply demo_state_wf|by vm_compute].
Defined.

(** ** Invariants of the boards of a room, copies and serialisation *)

Lemma init_pieces_scalars ps : ∀ n st st',
  init_pieces ps n st = Ok st' → scalars st' = scalars st.
Proof.
  induction ps as [|pd ps IH]; intros n st st'; cbn [init_pieces].
  - by intros [= ->].
  - destruct (board_setitem _ _ _ _) as [b|]; cbn [mbind result_bind]; [|done].
    intros Hrest. by rewrite (IH _ _ _ Hrest).
Qed.

Lemma BoardState_init_scalars d st :
  BoardState_init d = Ok st →
  ∃ status,
    GameStatus_of_value (default "waiting" (GameState.game_status d)) = Ok status ∧
    scalars st = scalars (blank status d).
Proof.
  unfold BoardState_init.
  destruct (GameStatus_of_value _) as [status|]; cbn [mbind result_bind]; [|done].
  intros Hinit. exists status. split; [done|].
  by rewrite (init_pieces_scalars _ _ _ _ Hinit).
Qed.

(** X7 (config.INITIAL_GAME_STATE, GameManager, BoardState.move_piece): on
    every board of a room the turn counter equals the number of records in
    moves_log, and white is to move exactly when the counter is even. *)
Theorem turn_counter_counts_recorded_moves gen st :
  reachable gen st →
  turn_number st = Z.of_nat (length (moves_log st)) ∧
  current_player st = (if Z.even (turn_number st) then "white" else "black").
Proof.
  induction 1 as [player1 st Hinit|st player2 _ IH
                 |st st' fid new_row new_col player now _ IH Hmove
                 |st player _ IH|st st' _ IH Hinit].
  - apply BoardState_init_scalars in Hinit as (status & _ & Hsc).
    injection Hsc as Hcp _ _ _ _ _ Hml _ _ _ Htn _ _.
    by rewrite Hcp, Hml, Htn.
  - exact IH.
  - destruct IH as [IHt IHc].
    apply move_piece_inv in Hmove
      as [(k & e & _ & _ & ->)|(_ & piece & b & st1 & _ & _ & -> & Hst1)].
    { done. }
    destruct (executed_turn piece (row (objects st piece)) (col (objects st piece))
                new_row new_col now b st1) as (Hcp & Htn & _).
    destruct (executed_logs piece (row (objects st piece)) (col (objects st piece))
                new_row new_col now b st1) as (_ & Hml).
    cbv zeta in Hml. rewrite Hcp, Htn, Hml.
    assert (turn_number st1 = turn_number st ∧ moves_log st1 = moves_log st ∧
            current_player st1 = current_player st) as (-> & -> & ->).
    { by destruct Hst1 as [[_ ->]|(target & b1 & _ & ->)]. }
    split.
    + rewrite length_app. simpl. lia.
    + rewrite IHc, Z.even_add.
      by destruct (Z.even (turn_number st)).
  - exact IH.
  - apply BoardState_init_scalars in Hinit as (status & _ & Hsc).
    injection Hsc as Hcp _ _ _ _ _ Hml _ _ _ Htn _ _.
    simpl in Hcp, Hml, Htn. by rewrite Hcp, Hml, Htn.
Qed.

Lemma demo_turn_counter :
  reachable demo_gen demo_room_board ∧
  turn_number demo_room_board = Z.of_nat (length (moves_log demo_room_board)) ∧
  current_player demo_room_board
    = (if Z.even (turn_number demo_room_board) then "white" else "black").
Proof.
  split; [apply demo_room_board_reachable|].
  apply (turn_counter_counts_recorded_moves demo_gen demo_room_board).
  apply demo_room_board_reachable.
Defined.

(** X8 (BoardState.clone): on a well-formed board whose pieces all stand on
    the grid, clone returns a board with the same grid, pieces and scalar
    fields, which is again well formed and serialises to the same record. *)
Theorem clone_is_an_equivalent_board st :
  wf st → all_on_board st →
  ∃ st', clone st = Ok st' ∧ equivalent st st' ∧ wf st' ∧ all_on_board st' ∧
         to_json_serializable st' = to_json_serializable st.
Proof.
  intros Hwf Hon.
  destruct (reload_spec st Hwf Hon) as (st' & Hinit & Hwf' & Hon' & Heq & Hjson).
  exists st'. split; [|done].
  rewrite <-Hinit. reflexivity.
Qed.

Lemma demo_clone :
  wf demo_state ∧ all_on_board demo_state ∧
  ∃ st', clone demo_state = Ok st' ∧ equivalent demo_state st' ∧ wf st' ∧
         all_on_board st' ∧
         to_json_serializable st' = to_json_serializable demo_state.
Proof.
  split; [apply demo_state_wf|]. split; [apply demo_state_wf|].
  apply (clone_is_an_equivalent_board demo_state); apply demo_state_wf.
Defined.

Lemma dict_keys_serialised st :
  wf st →
  figure_id <$> (objects st <$> dict_values (_figure_id_to_piece_map st))
    = (_figure_id_to_piece_map st).*1.
Proof.
  intros Hwf. unfold dict_values. rewrite <-!list_fmap_compose.
  apply list_fmap_ext. intros i [k piece] Hi. simpl.
  apply list_elem_of_lookup_2 in Hi.
  apply (dict_elem_get _ _ _ (wf_keys st Hwf)) in Hi.
  by destruct (wf_ids st Hwf _ _ Hi).
Qed.

(** X9 (BoardState.to_json_serializable after a capture): on a well-formed
    board, once a move has taken a piece the serialised record lists one piece
    fewer and none with the taken piece's figure id: captured pieces are not
    kept in the record. *)
Theorem captured_piece_is_not_serialised fid new_row new_col player now st target :
  wf st →
  first_failed_check fid new_row new_col player st = None →
  _get_piece_at new_row new_col st = Some target →
  ∃ st',
    move_piece fid new_row new_col player now st = Ok st' ∧
    let pieces := default [] (GameState.board_pieces (to_json_serializable st)) in
    let pieces' := default [] (GameState.board_pieces (to_json_serializable st')) in
    figure_id (objects st target) ∈ (figure_id <$> pieces) ∧
    (figure_id (objects st target) ∉ (figure_id <$> pieces')) ∧
    length pieces = S (length pieces').
Proof.
  intros Hwf Hk Ht.
  destruct (move_piece_accepted_spec _ _ _ _ now _ Hwf Hk)
    as (piece & b & _ & _ & _ & Hmove & Hwf' & _ & Hfacts).
  destruct (Hfacts target Ht) as (_ & _ & _ & _ & Htracked).
  cbv zeta in Hmove, Hwf'. rewrite Ht in Hmove, Hwf'.
  eexists. split; [exact Hmove|].
  cbv zeta. cbn [to_json_serializable GameState.board_pieces default from_option id].
  rewrite (dict_keys_serialised _ Hwf), (dict_keys_serialised _ Hwf').
  rewrite !length_fmap. unfold dict_values. rewrite !length_fmap.
  rewrite executed_ids.
  change (_figure_id_to_piece_map (append_game_log ?e (removed ?t ?bb ?s)))
    with (dict_del (figure_id (objects s t)) (_figure_id_to_piece_map s)).
  split; [|split].
  - apply dict_get_Some_elem in Htracked.
    apply list_elem_of_fmap. by exists (figure_id (objects st target), target).
  - apply dict_get_None, dict_get_del_eq, (wf_keys st Hwf).
  - pose proof (dict_del_length (figure_id (objects st target))
                  (_figure_id_to_piece_map st)) as Hlen.
    by rewrite Htracked in Hlen.
Qed.

Lemma demo_capture_record :
  wf demo_state ∧
  first_failed_check "pawn-w" 5 0 demo_white demo_state = None ∧
  _get_piece_at 5 0 demo_state = Some 1%nat ∧
  ∃ st',
    move_piece "pawn-w" 5 0 demo_white 0%Q demo_state = Ok st' ∧
    let pieces :=
      default [] (GameState.board_pieces (to_json_serializable demo_state)) in
    let pieces' := default [] (GameState.board_pieces (to_json_serializable st')) in
    figure_id (objects demo_state 1%nat) ∈ (figure_id <$> pieces) ∧
    (figure_id (objects demo_state 1%nat) ∉ (figure_id <$> pieces')) ∧
    length pieces = S (length pieces').
Proof.
  split; [apply demo_state_wf|]. split; [by vm_compute|]. split; [by vm_compute|].
  apply (captured_piece_is_not_serialised "pawn-w" 5 0 demo_white 0%Q demo_state 1%nat);
    [apply demo_state_wf | by vm_compute | by vm_compute].
Defined.

(** X10 (GameStatus): a text is accepted by GameStatus(v) with member s
    exactly when it is the value of s, so every member is read back from its
    own value and no two texts give the same member. *)
Theorem game_status_text_round_trip v s :
  GameStatus_of_value v = Ok s ↔ v = GameStatus_value s.
Proof.
  split.
  - unfold GameStatus_of_value.
    repeat case_decide; intros [= <-]; by subst.
  - intros ->. by destruct s.
Qed.

(** ** The room store *)

Section room_store.
Variable U : string → result UUID.

Lemma optional_UUID_read_back (v : option UUID) :
  (∀ p, v = Some p → reads_back U p) →
  optional_UUID U (uuid_str <$> v) = Ok v.
Proof.
  intros Hv. destruct v as [p|]; [|done]. simpl.
  destruct (Hv p eq_refl) as [Hne Hp].
  rewrite decide_False by done. by rewrite Hp.
Qed.

Lemma to_json_member room s :
  GameRoomInfo.status room = EnumMember s →
  GameRoomInfo_to_json room = Ok (room_record room).
Proof. intros Hs. unfold GameRoomInfo_to_json, room_record. by rewrite Hs. Qed.

Lemma to_json_value room s :
  GameRoomInfo.status room = EnumValue s →
  GameRoomInfo_to_json room = Raise AttributeError.
Proof. intros Hs. unfold GameRoomInfo_to_json. by rewrite Hs. Qed.

Lemma status_text_member f : status_text f = GameStatus_value (status_member f).
Proof. by destruct f. Qed.

(** The room that is read back from the record of a room. *)
Lemma room_json_read_back room :
  ids_read_back U room →
  wf (GameRoomInfo.board_state room) →
  all_on_board (GameRoomInfo.board_state room) →
  ∃ bs',
    BoardState_init (to_json_serializable (GameRoomInfo.board_state room)) = Ok bs' ∧
    GameRoomInfo_from_json U (room_record room) = Ok (as_read bs' room) ∧
    wf bs' ∧ all_on_board bs' ∧
    equivalent (GameRoomInfo.board_state room) bs' ∧
    to_json_serializable bs' = to_json_serializable (GameRoomInfo.board_state room) ∧
    room_record (as_read bs' room) = room_record room.
Proof.
  intros (Hid & Hp1 & Hp2) Hwf Hon.
  destruct (reload_spec _ Hwf Hon) as (bs' & Hinit & Hwf' & Hon' & Heq & Hjson).
  exists bs'. split; [done|]. split; [|split; [done|]; split; [done|];
                                       split; [done|]; split; [done|]].
  - unfold GameRoomInfo_from_json, room_record.
    cbn [RoomJson.id RoomJson.name RoomJson.player1_id RoomJson.player2_id
         RoomJson.status RoomJson.board_state RoomJson.created_at RoomJson.updated_at].
    destruct Hid as [_ ->]. cbn [mbind result_bind].
    rewrite (optional_UUID_read_back _ Hp1). cbn [mbind result_bind].
    rewrite (optional_UUID_read_back _ Hp2). cbn [mbind result_bind].
    rewrite Hinit. cbn [mbind result_bind].
    rewrite decide_False.
    2:{ intros [Hempty|Hempty].
        - destruct (GameRoomInfo.player1_id room) as [p|] eqn:Hp; [|done].
          injection Hempty as Hempty. by destruct (Hp1 p eq_refl).
        - destruct (GameRoomInfo.player2_id room) as [p|] eqn:Hp; [|done].
          injection Hempty as Hempty. by destruct (Hp2 p eq_refl). }
    by rewrite status_text_member, GameStatus_of_value_value.
  - unfold room_record, as_read.
    cbn [GameRoomInfo.id GameRoomInfo.name GameRoomInfo.player1_id
         GameRoomInfo.player2_id GameRoomInfo.status GameRoomInfo.board_state
         GameRoomInfo.created_at GameRoomInfo.updated_at].
    rewrite Hjson. by destruct (GameRoomInfo.status room).
Qed.

(** What [from_json] returns holds the value of the status, not the member. *)
Lemma from_json_status record room :
  GameRoomInfo_from_json U record = Ok room →
  ∃ s, GameRoomInfo.status room = EnumValue s.
Proof.
  unfold GameRoomInfo_from_json.
  destruct (U _); cbn [mbind result_bind]; [|done].
  destruct (optional_UUID U (RoomJson.player1_id record)); cbn [mbind result_bind];
    [|done].
  destruct (optional_UUID U (RoomJson.player2_id record)); cbn [mbind result_bind];
    [|done].
  destruct (BoardState_init _); cbn [mbind result_bind]; [|done].
  case_decide; [done|].
  destruct (GameStatus_of_value _) as [s|]; [|done].
  intros [= <-]. by exists s.
Qed.

Lemma get_room_stored room_id record w :
  redis w !! room_key room_id = Some record →
  get_room U room_id w = (Some <$> GameRoomInfo_from_json U record, w).
Proof.
  intros Hrec. unfold get_room, mbind, io_bind, io_get. rewrite Hrec.
  unfold fmap, io_fmap, io_lift. by destruct (GameRoomInfo_from_json U record).
Qed.

Lemma get_room_inv room_id w room :
  get_room U room_id w = (Ok (Some room), w) →
  ∃ record, redis w !! room_key room_id = Some record ∧
            GameRoomInfo_from_json U record = Ok room.
Proof.
  unfold get_room, mbind, io_bind, io_get.
  destruct (redis w !! room_key room_id) as [record|]; [|done].
  unfold fmap, io_fmap, io_lift.
  destruct (GameRoomInfo_from_json U record) as [room0|] eqn:Hr; [|done].
  intros [= <-]. by exists record.
Qed.

Lemma get_room_status room_id w room :
  get_room U room_id w = (Ok (Some room), w) →
  ∃ s, GameRoomInfo.status room = EnumValue s.
Proof.
  intros Hget. apply get_room_inv in Hget as (record & _ & Hread).
  by apply (from_json_status record).
Qed.

(** X11 (GameRoomInfo.to_json / from_json): a room that holds a member of
    GameStatus as its status, whose ids are read back by uuid.UUID from their
    texts, with a well-formed board whose pieces all stand on the grid, is
    written by to_json and read back by from_json with the same id, name,
    players and timestamps and an equivalent board, but with the value of the
    status, a plain str, in place of the member: the room read back shows the
    same record, and to_json raises AttributeError on it. *)
Theorem room_record_round_trip room s :
  GameRoomInfo.status room = EnumMember s →
  ids_read_back U room →
  wf (GameRoomInfo.board_state room) →
  all_on_board (GameRoomInfo.board_state room) →
  ∃ record room',
    GameRoomInfo_to_json room = Ok record ∧
    GameRoomInfo_from_json U record = Ok room' ∧
    GameRoomInfo.id room' = GameRoomInfo.id room ∧
    GameRoomInfo.name room' = GameRoomInfo.name room ∧
    GameRoomInfo.player1_id room' = GameRoomInfo.player1_id room ∧
    GameRoomInfo.player2_id room' = GameRoomInfo.player2_id room ∧
    GameRoomInfo.status room' = EnumValue s ∧
    GameRoomInfo.created_at room' = GameRoomInfo.created_at room ∧
    GameRoomInfo.updated_at room' = GameRoomInfo.updated_at room ∧
    equivalent (GameRoomInfo.board_state room) (GameRoomInfo.board_state room') ∧
    room_record room' = record ∧
    GameRoomInfo_to_json room' = Raise AttributeError.
Proof.
  intros Hs Hids Hwf Hon.
  destruct (room_json_read_back room Hids Hwf Hon)
    as (bs' & _ & Hread & _ & _ & Heq & _ & Hsame).
  exists (room_record room), (as_read bs' room).
  split; [by apply (to_json_member room s)|]. split; [exact Hread|].
  do 4 (split; [done|]).
  split; [unfold as_read; cbn [GameRoomInfo.status]; by rewrite Hs|].
  do 2 (split; [done|]). split; [exact Heq|]. split; [exact Hsame|].
  by apply (to_json_value _ (status_member (GameRoomInfo.status room))).
Qed.

(** X12 (GameManager.create_room, then get_room): with pairwise distinct
    generated figure ids, create_room stores a room in status waiting with
    white bound to the creator and black unbound, touches no other key, and
    get_room of the new id finds that room with an equivalent board and the
    same record, its status held as the value of the member. *)
Theorem created_room_is_found gen new_id room_name player1_id t_created t_updated w :
  NoDup (gen <$> seq 0 32) →
  reads_back U new_id → reads_back U player1_id →
  ∃ room w',
    create_room gen new_id room_name player1_id t_created t_updated w = (Ok room, w') ∧
    GameRoomInfo.id room = new_id ∧
    GameRoomInfo.player1_id room = Some player1_id ∧
    GameRoomInfo.player2_id room = None ∧
    GameRoomInfo.status room = EnumMember WAITING ∧
    game_status (GameRoomInfo.board_state room) = WAITING ∧
    players_get "white" (players (GameRoomInfo.board_state room))
      = Some (uuid_str player1_id) ∧
    players_get "black" (players (GameRoomInfo.board_state room)) = None ∧
    (∀ k, k ≠ room_key new_id → redis w' !! k = redis w !! k) ∧
    ∃ room',
      get_room U new_id w' = (Ok (Some room'), w') ∧
      room_record room' = room_record room ∧
      GameRoomInfo.status room' = EnumValue WAITING ∧
      equivalent (GameRoomInfo.board_state room) (GameRoomInfo.board_state room').
Proof.
  intros Hgen Hnew Hp1.
  destruct (BoardState_init_spec
              (with_white_player (uuid_str player1_id) (INITIAL_GAME_STATE gen))
              WAITING eq_refl (initial_pieces_distinct gen Hgen))
    as (st & Hinit & Hwf & _ & Hsc & Hon).
  specialize (Hon (initial_positions_distinct gen)).
  injection Hsc as _ _ _ _ _ _ _ _ Hgs _ _ Hpl _.
  set (room := {| GameRoomInfo.id := new_id;
                  GameRoomInfo.name := room_name;
                  GameRoomInfo.player1_id := Some player1_id;
                  GameRoomInfo.player2_id := None;
                  GameRoomInfo.status := EnumMember WAITING;
                  GameRoomInfo.board_state := st;
                  GameRoomInfo.created_at := int_of_timestamp t_created;
                  GameRoomInfo.updated_at := int_of_timestamp t_updated |}).
  assert (ids_read_back U room) as Hids.
  { split; [exact Hnew|]. split; [by intros p [= <-]|by intros p]. }
  destruct (room_json_read_back room Hids Hwf Hon)
    as (bs' & _ & Hread & _ & _ & Heq & _ & Hsame).
  exists room, (stored room w).
  split.
  { unfold create_room, mbind, io_bind, io_lift. by rewrite Hinit. }
  do 4 (split; [done|]). split; [exact Hgs|].
  change (GameRoomInfo.board_state room) with st. rewrite Hpl.
  split; [reflexivity|]. split; [reflexivity|].
  split.
  { intros k Hk. unfold stored, set_redis. cbn [redis]. by rewrite lookup_insert_ne. }
  exists (as_read bs' room). split; [|split; [exact Hsame|split; [done|exact Heq]]].
  rewrite (get_room_stored new_id (room_record room)).
  - by rewrite Hread.
  - unfold stored, set_redis. cbn [redis]. apply lookup_insert_eq.
Qed.

(** X13 (GameManager.get_room, join_room, update_room_state,
    surrender_room on a missing room): when the store has nothing under the
    room's key, each of the four operations returns None, raises nothing and
    leaves the process state as it was. *)
Theorem operations_on_a_missing_room room_id player_id bs now w :
  redis w !! room_key room_id = None →
  get_room U room_id w = (Ok None, w) ∧
  join_room U room_id player_id now w = (Ok None, w) ∧
  update_room_state U room_id bs now w = (Ok None, w) ∧
  surrender_room U room_id player_id now w = (Ok None, w).
Proof.
  intros Hmiss.
  assert (get_room U room_id w = (Ok None, w)) as Hget.
  { unfold get_room, mbind, io_bind, io_get. by rewrite Hmiss. }
  split; [exact Hget|].
  unfold join_room, update_room_state, surrender_room, mbind, io_bind.
  by rewrite Hget.
Qed.

(** X14 (GameManager.surrender_room): on a room that get_room finds, a
    player whose id text equals neither str(player1_id) nor str(player2_id)
    gets ValueError and nothing is written; otherwise the room is stored and
    returned with the room status and the board status both resigned, one
    line naming the player appended to the game log, and the players, the
    pieces and the turn left as they were. *)
Theorem surrender_room_outcomes room_id player_id now w room :
  (get_room U room_id w).1 = Ok (Some room) →
  let is_participant :=
    uuid_str player_id = str_optional_UUID (GameRoomInfo.player1_id room) ∨
    uuid_str player_id = str_optional_UUID (GameRoomInfo.player2_id room) in
  (¬ is_participant →
   surrender_room U room_id player_id now w
     = (Raise (ValueError "Player is not a participant of this room."), w)) ∧
  (is_participant →
   let room' := resigned player_id now room in
   let bs := GameRoomInfo.board_state room in
   let bs' := GameRoomInfo.board_state room' in
   surrender_room U room_id player_id now w
     = (Ok (Some room'),
        set_redis (<[room_key (GameRoomInfo.id room) := room_record room']>
                     (redis w)) w) ∧
   GameRoomInfo.status room' = EnumMember RESIGNED ∧
   game_status bs' = RESIGNED ∧
   game_log bs' = game_log bs ++ [msg_resigned player_id] ∧
   GameRoomInfo.player1_id room' = GameRoomInfo.player1_id room ∧
   GameRoomInfo.player2_id room' = GameRoomInfo.player2_id room ∧
   players bs' = players bs ∧
   board bs' = board bs ∧
   current_player bs' = current_player bs ∧
   turn_number bs' = turn_number bs).
Proof.
  intros Hget part. apply get_room_found in Hget. split.
  - intros Hno. unfold surrender_room, mbind, io_bind. rewrite Hget.
    rewrite decide_True; [done|]. subst part. tauto.
  - intros Hyes. cbv zeta. split; [|done].
    unfold surrender_room, mbind, io_bind. rewrite Hget.
    rewrite decide_False; [done|]. subst part. tauto.
Qed.

(** [update_room_state] on a room that [get_room] has read. *)
Lemma update_room_state_found room_id bs now w room :
  get_room U room_id w = (Ok (Some room), w) →
  update_room_state U room_id bs now w = (Raise AttributeError, w).
Proof.
  intros Hget. destruct (get_room_status room_id w room Hget) as [s Hs].
  unfold update_room_state, mbind, io_bind. rewrite Hget.
  unfold redis_set_room, mbind, io_bind, io_lift.
  by rewrite (to_json_value _ s).
Qed.

(** X15 (GameManager.update_room_state): on a room that get_room finds,
    update_room_state never writes: the room it has read holds its status as
    a plain str, to_json raises AttributeError on it, and the call ends with
    that exception and the process state as it was, whatever the board and
    the time. *)
Theorem update_room_state_raises_on_a_found_room room_id bs now w room :
  (get_room U room_id w).1 = Ok (Some room) →
  (∃ s, GameRoomInfo.status room = EnumValue s) ∧
  GameRoomInfo_to_json
    (with_updated_at (int_of_timestamp now) (with_board_state bs room))
    = Raise AttributeError ∧
  update_room_state U room_id bs now w = (Raise AttributeError, w).
Proof.
  intros Hget. apply get_room_found in Hget.
  destruct (get_room_status room_id w room Hget) as [s Hs].
  assert (GameRoomInfo_to_json
            (with_updated_at (int_of_timestamp now) (with_board_state bs room))
            = Raise AttributeError) as Hjson.
  { by apply (to_json_value _ s). }
  split; [by exists s|]. split; [exact Hjson|].
  unfold update_room_state, mbind, io_bind. rewrite Hget.
  unfold redis_set_room, mbind, io_bind, io_lift. by rewrite Hjson.
Qed.

(** X16 (GameManager.delete_all_rooms, api clear_all_rooms): afterwards
    get_room finds no room under any id, the keys that do not start with the
    room prefix keep their values, and the endpoint that wraps the call
    returns its message. *)
Theorem delete_all_rooms_clears_every_room str_exception aw :
  ∃ w',
    delete_all_rooms (process aw) = (Ok tt, w') ∧
    rooms.clear_all_rooms str_exception aw
      = (Returned "All rooms cleared.",
         {| process := w'; room_updates := room_updates aw |}) ∧
    (∀ room_id, get_room U room_id w' = (Ok None, w')) ∧
    (∀ k, is_room_key k = false → redis w' !! k = redis (process aw) !! k) ∧
    published w' = published (process aw) ∧
    active_connections w' = active_connections (process aw).
Proof.
  eexists. split; [reflexivity|]. split; [reflexivity|].
  split; [|split; [|done]].
  - intros room_id. unfold get_room, mbind, io_bind, io_get.
    unfold set_redis. cbn [redis fst snd].
    assert (filter (λ kv : string * RoomJson.t, is_room_key kv.1 = false)
              (redis (process aw)) !! room_key room_id = None) as ->; [|done].
    apply map_lookup_filter_None. right. intros record _. cbn [fst].
    unfold is_room_key, room_key, ROOM_PREFIX. simpl. by destruct (_ +:+ _).
  - intros k Hk. unfold set_redis. cbn [redis].
    destruct (redis (process aw) !! k) as [record|] eqn:Hrec.
    + by apply map_lookup_filter_Some.
    + apply map_lookup_filter_None. by left.
Qed.

End room_store.

Lemma with_status_board s room :
  GameRoomInfo.board_state (with_status s room) = GameRoomInfo.board_state room.
Proof. done. Qed.

Lemma ids_read_back_with_status U s room :
  ids_read_back U room → ids_read_back U (with_status s room).
Proof. done. Qed.

Lemma demo_room_ids_read_back : ids_read_back demo_parse demo_room.
Proof.
  split; [by vm_compute|]. split.
  - intros p. assert (GameRoomInfo.player1_id demo_room = Some demo_white) as ->
      by (by vm_compute).
    intros [= <-]. by vm_compute.
  - intros p. assert (GameRoomInfo.player2_id demo_room = None) as ->
      by (by vm_compute).
    done.
Qed.

Lemma demo_parse_reads_back u : uuid_str u ≠ "" → reads_back demo_parse u.
Proof. intros Hu. split; [exact Hu|]. by destruct u. Qed.

Lemma demo_room_wf :
  wf (GameRoomInfo.board_state demo_room) ∧
  all_on_board (GameRoomInfo.board_state demo_room).
Proof.
  apply (reachable_wf demo_gen _ demo_gen_distinct).
  apply (reach_reload demo_gen demo_room_board); [apply demo_room_board_reachable|].
  by vm_compute.
Qed.

Lemma demo_room_record :
  GameRoomInfo.status (with_status WAITING demo_room) = EnumMember WAITING ∧
  ids_read_back demo_parse (with_status WAITING demo_room) ∧
  wf (GameRoomInfo.board_state (with_status WAITING demo_room)) ∧
  all_on_board (GameRoomInfo.board_state (with_status WAITING demo_room)) ∧
  ∃ record room',
    GameRoomInfo_to_json (with_status WAITING demo_room) = Ok record ∧
    GameRoomInfo_from_json demo_parse record = Ok room' ∧
    GameRoomInfo.id room' = GameRoomInfo.id (with_status WAITING demo_room) ∧
    GameRoomInfo.name room' = GameRoomInfo.name (with_status WAITING demo_room) ∧
    GameRoomInfo.player1_id room'
      = GameRoomInfo.player1_id (with_status WAITING demo_room) ∧
    GameRoomInfo.player2_id room'
      = GameRoomInfo.player2_id (with_status WAITING demo_room) ∧
    GameRoomInfo.status room' = EnumValue WAITING ∧
    GameRoomInfo.created_at room'
      = GameRoomInfo.created_at (with_status WAITING demo_room) ∧
    GameRoomInfo.updated_at room'
      = GameRoomInfo.updated_at (with_status WAITING demo_room) ∧
    equivalent (GameRoomInfo.board_state (with_status WAITING demo_room))
      (GameRoomInfo.board_state room') ∧
    room_record room' = record ∧
    GameRoomInfo_to_json room' = Raise AttributeError.
Proof.
  pose proof (ids_read_back_with_status demo_parse WAITING demo_room
                demo_room_ids_read_back) as Hids.
  assert (wf (GameRoomInfo.board_state (with_status WAITING demo_room)) ∧
          all_on_board (GameRoomInfo.board_state (with_status WAITING demo_room)))
    as [Hwf Hon] by (rewrite with_status_board; apply demo_room_wf).
  split; [reflexivity|]. split; [exact Hids|]. split; [exact Hwf|].
  split; [exact Hon|].
  exact (room_record_round_trip demo_parse (with_status WAITING demo_room) WAITING
           eq_refl Hids Hwf Hon).
Defined.

Lemma demo_created_room :
  NoDup (demo_gen <$> seq 0 32) ∧
  reads_back demo_parse demo_room_id ∧ reads_back demo_parse demo_white ∧
  ∃ room w',
    create_room demo_gen demo_room_id "Alpha" demo_white 0%Q 0%Q empty_world
      = (Ok room, w') ∧
    GameRoomInfo.id room = demo_room_id ∧
    GameRoomInfo.player1_id room = Some demo_white ∧
    GameRoomInfo.player2_id room = None ∧
    GameRoomInfo.status room = EnumMember WAITING ∧
    game_status (GameRoomInfo.board_state room) = WAITING ∧
    players_get "white" (players (GameRoomInfo.board_state room))
      = Some (uuid_str demo_white) ∧
    players_get "black" (players (GameRoomInfo.board_state room)) = None ∧
    (∀ k, k ≠ room_key demo_room_id → redis w' !! k = redis empty_world !! k) ∧
    ∃ room',
      get_room demo_parse demo_room_id w' = (Ok (Some room'), w') ∧
      room_record room' = room_record room ∧
      GameRoomInfo.status room' = EnumValue WAITING ∧
      equivalent (GameRoomInfo.board_state room) (GameRoomInfo.board_state room').
Proof.
  split; [apply demo_gen_distinct|].
  split; [by apply demo_parse_reads_back|]. split; [by apply demo_parse_reads_back|].
  apply (created_room_is_found demo_parse demo_gen demo_room_id "Alpha" demo_white
           0%Q 0%Q empty_world);
    [apply demo_gen_distinct|by apply demo_parse_reads_back
    |by apply demo_parse_reads_back].
Defined.

Lemma demo_missing_room :
  redis empty_world !! room_key demo_room_id = None ∧
  get_room demo_parse demo_room_id empty_world = (Ok None, empty_world) ∧
  join_room demo_parse demo_room_id demo_black 1%Q empty_world
    = (Ok None, empty_world) ∧
  update_room_state demo_parse demo_room_id demo_state 1%Q empty_world
    = (Ok None, empty_world) ∧
  surrender_room demo_parse demo_room_id demo_black 1%Q empty_world
    = (Ok None, empty_world).
Proof.
  split; [by vm_compute|].
  apply (operations_on_a_missing_room demo_parse demo_room_id demo_black demo_state
           1%Q empty_world).
  by vm_compute.
Defined.

Lemma demo_surrender :
  (get_room demo_parse demo_room_id demo_world).1 = Ok (Some demo_room) ∧
  let is_participant :=
    uuid_str demo_white = str_optional_UUID (GameRoomInfo.player1_id demo_room) ∨
    uuid_str demo_white = str_optional_UUID (GameRoomInfo.player2_id demo_room) in
  (¬ is_participant →
   surrender_room demo_parse demo_room_id demo_white 1%Q demo_world
     = (Raise (ValueError "Player is not a participant of this room."), demo_world)) ∧
  (is_participant →
   let room' := resigned demo_white 1%Q demo_room in
   let bs := GameRoomInfo.board_state demo_room in
   let bs' := GameRoomInfo.board_state room' in
   surrender_room demo_parse demo_room_id demo_white 1%Q demo_world
     = (Ok (Some room'),
        set_redis (<[room_key (GameRoomInfo.id demo_room)
                      := room_record room']> (redis demo_world)) demo_world) ∧
   GameRoomInfo.status room' = EnumMember RESIGNED ∧
   game_status bs' = RESIGNED ∧
   game_log bs' = game_log bs ++ [msg_resigned demo_white] ∧
   GameRoomInfo.player1_id room' = GameRoomInfo.player1_id demo_room ∧
   GameRoomInfo.player2_id room' = GameRoomInfo.player2_id demo_room ∧
   players bs' = players bs ∧
   board bs' = board bs ∧
   current_player bs' = current_player bs ∧
   turn_number bs' = turn_number bs).
Proof.
  split; [exact demo_room_found|].
  exact (surrender_room_outcomes demo_parse demo_room_id demo_white 1%Q demo_world
           demo_room demo_room_found).
Defined.

Lemma demo_update_raises :
  (get_room demo_parse demo_room_id demo_world).1 = Ok (Some demo_room) ∧
  (∃ s, GameRoomInfo.status demo_room = EnumValue s) ∧
  GameRoomInfo_to_json
    (with_updated_at (int_of_timestamp 1%Q) (with_board_state demo_state demo_room))
    = Raise AttributeError ∧
  update_room_state demo_parse demo_room_id demo_state 1%Q demo_world
    = (Raise AttributeError, demo_world).
Proof.
  split; [exact demo_room_found|].
  exact (update_room_state_raises_on_a_found_room demo_parse demo_room_id demo_state
           1%Q demo_world demo_room demo_room_found).
Defined.

(** ** The connection registry *)

Lemma send_each_delivers m conns : ∀ w,
  send_each conns m w
    = (Ok (filter (λ c, c ∈ closed w) conns),
       set_sent (sent w ++ delivered m conns w) w).
Proof.
  unfold delivered.
  induction conns as [|c conns IH]; intros w; cbn [send_each].
  { rewrite app_nil_r. by destruct w. }
  unfold mbind, io_bind, io_try, send_json.
  destruct (decide (c ∈ closed w)) as [Hc|Hc].
  - rewrite filter_cons_True by done.
    rewrite (filter_cons_False (λ c, c ∉ closed w)) by (by intros ?).
    cbn [mret io_ret]. by rewrite IH.
  - rewrite filter_cons_False by done.
    rewrite (filter_cons_True (λ c, c ∉ closed w)) by done.
    cbn [mret io_ret]. rewrite IH. cbn [fmap list_fmap].
    unfold set_sent. cbn [sent closed]. by rewrite <-app_assoc.
Qed.

(** X17 (WebSocketManager.broadcast): broadcast never raises. Every
    socket of the room that is open receives the message exactly once, the
    sockets whose send fails are removed from the room and nothing is sent to
    them, and no other room, the store or the channel is touched. *)
Theorem broadcast_isolates_failed_sends room_id m w conns :
  active_connections w !! room_id = Some conns →
  ∃ w',
    broadcast room_id m w = (Ok tt, w') ∧
    sent w' = sent w ++ delivered m (elements conns) w ∧
    active_connections w' !! room_id = Some (conns ∖ closed w) ∧
    (∀ other, other ≠ room_id →
       active_connections w' !! other = active_connections w !! other ∧
       _pubsub_listeners w' !! other = _pubsub_listeners w !! other) ∧
    (conns ∖ closed w ≠ ∅ → _pubsub_listeners w' = _pubsub_listeners w) ∧
    redis w' = redis w ∧ published w' = published w.
Proof.
  intros Hconns.
  assert (remove_each (filter (λ c, c ∈ closed w) (elements conns)) conns
            = conns ∖ closed w) as Hleft.
  { rewrite remove_each_spec. apply set_eq. intros x.
    rewrite !elem_of_difference, elem_of_list_to_set, list_elem_of_filter,
      elem_of_elements. tauto. }
  eexists. split.
  { unfold broadcast, mbind, io_bind, io_get, io_modify. rewrite Hconns.
    rewrite send_each_delivers. rewrite Hleft. reflexivity. }
  cbv zeta.
  unfold stop_listener, set_active_connections, set_pubsub_listeners, set_sent.
  cbn [active_connections _pubsub_listeners sent redis published closed].
  destruct (decide (conns ∖ closed w = ∅)) as [Hempty|Hsome].
  - destruct (_pubsub_listeners w !! room_id) as [t|] eqn:Ht;
      cbn [active_connections _pubsub_listeners sent redis published closed].
    + split; [done|]. split; [apply lookup_insert_eq|].
      split; [|done]. intros other Hne.
      by rewrite lookup_insert_ne, lookup_delete_ne.
    + split; [done|]. split; [apply lookup_insert_eq|].
      split; [|done]. intros other Hne. by rewrite lookup_insert_ne.
  - cbn [active_connections _pubsub_listeners sent redis published closed].
    split; [done|]. split; [apply lookup_insert_eq|].
    split; [|done]. intros other Hne. by rewrite lookup_insert_ne.
Qed.

Lemma demo_broadcast :
  active_connections demo_registry !! demo_room_id = Some {[ 7%nat ]} ∧
  ∃ w',
    broadcast demo_room_id (ErrorMessage "x") demo_registry = (Ok tt, w') ∧
    sent w' = sent demo_registry
                ++ delivered (ErrorMessage "x") (elements ({[ 7%nat ]} : gset websocket))
                     demo_registry ∧
    active_connections w' !! demo_room_id = Some ({[ 7%nat ]} ∖ closed demo_registry) ∧
    (∀ other, other ≠ demo_room_id →
       active_connections w' !! other = active_connections demo_registry !! other ∧
       _pubsub_listeners w' !! other = _pubsub_listeners demo_registry !! other) ∧
    (({[ 7%nat ]} : gset websocket) ∖ closed demo_registry ≠ ∅ →
     _pubsub_listeners w' = _pubsub_listeners demo_registry) ∧
    redis w' = redis demo_registry ∧ published w' = published demo_registry.
Proof.
  split; [by vm_compute|].
  apply (broadcast_isolates_failed_sends demo_room_id (ErrorMessage "x") demo_registry).
  by vm_compute.
Defined.

(** X18 (WebSocketManager.connect and disconnect): the two operations keep
    the registry in order: a room with an entry has at least one socket and a
    listener task, a room without an entry has no listener. connect registers
    the socket and never raises; a disconnect that returns leaves the socket
    unregistered. *)
Theorem connect_and_disconnect_keep_the_registry ws room_id w :
  registry_ok w →
  (∃ w1 conns,
     connect ws room_id w = (Ok tt, w1) ∧ registry_ok w1 ∧
     active_connections w1 !! room_id = Some conns ∧ ws ∈ conns) ∧
  (∀ w2, disconnect ws room_id w = (Ok tt, w2) →
     registry_ok w2 ∧
     ∀ conns, active_connections w2 !! room_id = Some conns → ws ∉ conns).
Proof.
  intros Hok. unfold registry_ok in *. split.
  - eexists _, _. split; [reflexivity|].
    cbv beta zeta.
    unfold set_active_connections, set_pubsub_listeners.
    cbn [active_connections _pubsub_listeners].
    assert (∀ (l : gmap UUID task),
              is_Some (l !! room_id) →
              (∀ r, r ≠ room_id → l !! r = _pubsub_listeners w !! r) →
              ∀ r, match <[room_id := {[ws]} ∪ default ∅ (active_connections w !! room_id)]>
                           (active_connections w) !! r with
                   | Some conns => conns ≠ ∅ ∧ is_Some (l !! r)
                   | None => l !! r = None
                   end) as Hgen.
    { intros l Hl Hother r. destruct (decide (r = room_id)) as [->|Hne].
      - rewrite lookup_insert_eq. split; [set_solver|done].
      - rewrite lookup_insert_ne by done. rewrite (Hother r Hne). apply Hok. }
    destruct (_pubsub_listeners w !! room_id) as [[[|]]|] eqn:Hl;
      cbn [active_connections _pubsub_listeners].
    + split; [|split; [apply lookup_insert_eq|set_solver]].
      apply Hgen; [by rewrite lookup_insert_eq|].
      intros r Hne. by rewrite lookup_insert_ne.
    + split; [|split; [apply lookup_insert_eq|set_solver]].
      apply Hgen; [by rewrite Hl|done].
    + split; [|split; [apply lookup_insert_eq|set_solver]].
      apply Hgen; [by rewrite lookup_insert_eq|].
      intros r Hne. by rewrite lookup_insert_ne.
  - intros w2. unfold disconnect.
    destruct (active_connections w !! room_id) as [conns|] eqn:Hconns.
    2:{ intros [= <-]. split; [done|]. intros conns. by rewrite Hconns. }
    destruct (decide (ws ∈ conns)) as [Hin|Hin]; [|done].
    cbv zeta. unfold stop_listener, set_active_connections, set_pubsub_listeners.
    cbn [active_connections _pubsub_listeners].
    destruct (decide (conns ∖ {[ws]} = ∅)) as [Hempty|Hsome].
    + destruct (_pubsub_listeners w !! room_id) as [t|] eqn:Hl;
        cbn [active_connections _pubsub_listeners]; intros [= <-];
        cbn [active_connections _pubsub_listeners].
      * split.
        -- intros r. destruct (decide (r = room_id)) as [->|Hne].
           ++ by rewrite !lookup_delete_eq.
           ++ rewrite !lookup_delete_ne by done. rewrite lookup_insert_ne by done.
              apply Hok.
        -- intros conns'. by rewrite lookup_delete_eq.
      * split.
        -- intros r. destruct (decide (r = room_id)) as [->|Hne].
           ++ by rewrite lookup_delete_eq.
           ++ rewrite !lookup_delete_ne by done. rewrite lookup_insert_ne by done.
              apply Hok.
        -- intros conns'. by rewrite lookup_delete_eq.
    + intros [= <-]. cbn [active_connections _pubsub_listeners]. split.
      * intros r. destruct (decide (r = room_id)) as [->|Hne].
        -- rewrite lookup_insert_eq. split; [done|].
           specialize (Hok room_id). rewrite Hconns in Hok. apply Hok.
        -- rewrite lookup_insert_ne by done. apply Hok.
      * intros conns'. rewrite lookup_insert_eq. intros [= <-]. set_solver.
Qed.

Lemma demo_registry_in_order :
  registry_ok empty_world ∧
  (∃ w1 conns,
     connect 7%nat demo_room_id empty_world = (Ok tt, w1) ∧ registry_ok w1 ∧
     active_connections w1 !! demo_room_id = Some conns ∧ 7%nat ∈ conns) ∧
  (∀ w2, disconnect 7%nat demo_room_id empty_world = (Ok tt, w2) →
     registry_ok w2 ∧
     ∀ conns, active_connections w2 !! demo_room_id = Some conns → 7%nat ∉ conns).
Proof.
  assert (registry_ok empty_world) as Hok by (intros r; by vm_compute).
  split; [exact Hok|].
  exact (connect_and_disconnect_keep_the_registry 7%nat demo_room_id empty_world Hok).
Defined.

(** ** A connection's loop *)

Lemma preserves_bind {A B C} (f : World → C) (m : io A) (k : A → io B) :
  preserves f m → (∀ a, preserves f (k a)) → preserves f (m ≫= k).
Proof.
  intros Hm Hk w. unfold mbind, io_bind. specialize (Hm w).
  destruct (m w) as [[a|e] w1]; cbn [snd] in *; [|done].
  by rewrite Hk.
Qed.


Lemma preserves_lift {A C} (f : World → C) (r : result A) : preserves f (io_lift r).
Proof. by intros w. Qed.

Lemma preserves_send_json {C} (f : World → C) ws m :
  (∀ s w, f (set_sent s w) = f w) → preserves f (send_json ws m).
Proof. intros Hf w. unfold send_json. case_decide; [done|]. apply Hf. Qed.

Lemma preserves_publish {C} (f : World → C) room_id m :
  (∀ s w, f (set_published s w) = f w) →
  preserves f (publish_to_redis_channel room_id m).
Proof. intros Hf w. apply Hf. Qed.




Section loop.
Variable U : string → result UUID.
Variable untyped :
  json → json → json → UUID → timestamp → BoardState → result BoardState.
Variables (ws : websocket) (room_id : UUID).


Lemma preserves_process_chat {C} (f : World → C) message local :
  (∀ s w, f (set_sent s w) = f w) →
  (∀ s w, f (set_published s w) = f w) →
  preserves f (process_chat ws room_id message local).
Proof.
  intros Hsent Hpub. unfold process_chat.
  apply preserves_bind; [apply preserves_lift|]. intros payload.
  apply preserves_bind; [apply preserves_lift|]. intros text.
  destruct (negb _); [by apply preserves_send_json|by apply preserves_publish].
Qed.



End loop.



(** ** Frames, the store and the client *)

Section frames_and_store.
Variable U : string → result UUID.
Variable untyped :
  json → json → json → UUID → timestamp → BoardState → result BoardState.
Variables (ws : websocket) (room_id : UUID).

(** A frame that is no well-formed move frame is answered by sends and
    publications alone. *)
Lemma on_message_other {C} (f : World → C) message t_move t_store local w :
  (∀ s w, f (set_sent s w) = f w) →
  (∀ s w, f (set_published s w) = f w) →
  move_frame_player U (Decoded message) = None →
  f (on_message U untyped ws room_id message t_move t_store local w).2.2 = f w.
Proof.
  intros Hsent Hpub.
  unfold on_message, move_frame_player.
  destruct message as [| | | | | |d]; try done. simpl.
  destruct (dict_get "type" d) as [type|]; [|done].
  destruct (eq_str type "move") eqn:Hmove; simpl.
  2:{ intros _. destruct (eq_str type "chat_message"); cbn [snd].
      - by apply (preserves_process_chat ws room_id f).
      - by apply (preserves_send_json f). }
  unfold parse_move, move_parameters. simpl.
  destruct (dict_get "payload" d) as [payload|]; simpl; [|done].
  destruct payload as [| | | | | |p]; simpl; try done.
  destruct (truthy (default JNull (dict_get "figure_id" p))); simpl;
    [|intros _; by apply (preserves_send_json f)].
  destruct (is_None (default JNull (dict_get "new_row" p))); simpl;
    [intros _; by apply (preserves_send_json f)|].
  destruct (is_None (default JNull (dict_get "new_col" p))); simpl;
    [intros _; by apply (preserves_send_json f)|].
  destruct (truthy (default JNull (dict_get "player_id" p))); simpl;
    [|intros _; by apply (preserves_send_json f)].
  destruct (default JNull (dict_get "player_id" p)) as [| | | |s| |]; simpl;
    try done.
  destruct (U s) as [u|e]; simpl; [done|].
  intros _. destruct e; simpl; try done. by apply (preserves_send_json f).
Qed.

Lemma on_received_other {C} (f : World → C) r t_move t_store local w :
  (∀ s w, f (set_sent s w) = f w) →
  (∀ s w, f (set_published s w) = f w) →
  move_frame_player U r = None →
  f (on_received U untyped ws room_id r t_move t_store local w).2.2 = f w.
Proof.
  intros Hsent Hpub Hr. destruct r as [message|].
  - unfold on_received.
    pose proof (on_message_other f message t_move t_store local w Hsent Hpub Hr)
      as Hm.
    destruct (on_message U untyped ws room_id message t_move t_store local w)
      as [local' [[[]|e] w1]]; cbn [fst snd] in *; [done|].
    rewrite <-Hm. by apply (preserves_send_json f).
  - unfold on_received. cbn [snd]. by apply (preserves_send_json f).
Qed.

End frames_and_store.

(** X20 (main.websocket_endpoint, frames other than moves): a frame that
    is no well-formed move frame, whether chat, unknown, malformed or
    undecodable, writes nothing to the room store and changes neither the
    registry nor the listeners nor the move-player binding; it is answered by
    sends and publications alone. *)
Theorem only_move_frames_write_the_store U untyped ws room_id r t_move t_store
    local w :
  move_frame_player U r = None →
  (on_received U untyped ws room_id r t_move t_store local w).1 = local ∧
  redis (on_received U untyped ws room_id r t_move t_store local w).2.2 = redis w ∧
  active_connections (on_received U untyped ws room_id r t_move t_store local w).2.2
    = active_connections w ∧
  _pubsub_listeners (on_received U untyped ws room_id r t_move t_store local w).2.2
    = _pubsub_listeners w.
Proof.
  intros Hr. split.
  - rewrite on_received_binding. by rewrite Hr.
  - split; [|split]; by apply on_received_other.
Qed.

Lemma demo_chat_frame_writes_nothing :
  move_frame_player demo_parse (Decoded demo_chat_frame) = None ∧
  (on_received demo_parse demo_untyped 7%nat demo_room_id (Decoded demo_chat_frame)
     1%Q 2%Q None demo_world).1 = None ∧
  redis (on_received demo_parse demo_untyped 7%nat demo_room_id
           (Decoded demo_chat_frame) 1%Q 2%Q None demo_world).2.2
    = redis demo_world ∧
  active_connections
    (on_received demo_parse demo_untyped 7%nat demo_room_id
       (Decoded demo_chat_frame) 1%Q 2%Q None demo_world).2.2
    = active_connections demo_world ∧
  _pubsub_listeners
    (on_received demo_parse demo_untyped 7%nat demo_room_id
       (Decoded demo_chat_frame) 1%Q 2%Q None demo_world).2.2
    = _pubsub_listeners demo_world.
Proof.
  split; [by vm_compute|].
  apply (only_move_frames_write_the_store demo_parse demo_untyped 7%nat demo_room_id
           (Decoded demo_chat_frame) 1%Q 2%Q None demo_world).
  by vm_compute.
Defined.

(** A well-formed move frame is parsed into its four parameters. *)
Lemma parse_move_frame U fid new_row new_col player :
  fid ≠ "" → reads_back U player →
  parse_move U (move_frame fid new_row new_col player)
    = Parsed (JStr fid) (JInt new_row) (JInt new_col) player.
Proof.
  intros Hfid [Hne Hread]. unfold parse_move, move_frame. simpl.
  rewrite !bool_decide_eq_false_2 by done. simpl. by rewrite Hread.
Qed.

(** A move on a room that is found, once [move_piece] has returned. *)
Lemma process_move_found U untyped ws room_id fid new_row new_col player t_move
    t_store w room st' :
  get_room U room_id w = (Ok (Some room), w) →
  move_piece fid new_row new_col player t_move (GameRoomInfo.board_state room)
    = Ok st' →
  process_move U untyped ws room_id (JStr fid) (JInt new_row) (JInt new_col)
    player t_move t_store w = (Raise AttributeError, w).
Proof.
  intros Hget Hmove. unfold process_move, mbind, io_bind. rewrite Hget.
  unfold io_lift. rewrite Hmove.
  by rewrite (update_room_state_found U room_id st' t_store w room Hget).
Qed.

Lemma on_received_move_frame U untyped ws room_id fid new_row new_col player
    t_move t_store local w room st' :
  get_room U room_id w = (Ok (Some room), w) →
  move_piece fid new_row new_col player t_move (GameRoomInfo.board_state room)
    = Ok st' →
  fid ≠ "" → reads_back U player → ws ∉ closed w →
  on_received U untyped ws room_id (Decoded (move_frame fid new_row new_col player))
    t_move t_store local w
    = (Some player,
       (Ok tt, set_sent (sent w ++ [(ws, ServerError AttributeError)]) w)).
Proof.
  intros Hget Hmove Hfid Hplayer Hopen. unfold on_received, on_message.
  change (py_getitem (move_frame fid new_row new_col player) "type")
    with (Ok (JStr "move")).
  cbv iota beta. change (eq_str (JStr "move") "move") with true. cbv iota.
  rewrite (parse_move_frame U fid new_row new_col player Hfid Hplayer).
  rewrite (process_move_found U untyped ws room_id fid new_row new_col player
             t_move t_store w room st' Hget Hmove).
  unfold send_json. by rewrite decide_False.
Qed.

(** X21 (main.websocket_endpoint, a move that the board rejects): on a
    room that is found, the rejection never reaches the store, the channel or
    the client: after move_piece has logged the error, update_room_state
    raises AttributeError, so nothing is written or published and the error
    line is not sent; the handler of the loop answers the frame with one
    server-error frame, binds the player and the loop goes on. *)
Theorem rejected_move_is_neither_stored_nor_reported U untyped ws room_id fid
    new_row new_col player t_move t_store local w room k :
  (get_room U room_id w).1 = Ok (Some room) →
  first_failed_check fid new_row new_col player (GameRoomInfo.board_state room)
    = Some k →
  fid ≠ "" → reads_back U player → ws ∉ closed w →
  process_move U untyped ws room_id (JStr fid) (JInt new_row) (JInt new_col)
    player t_move t_store w = (Raise AttributeError, w) ∧
  on_received U untyped ws room_id (Decoded (move_frame fid new_row new_col player))
    t_move t_store local w
    = (Some player,
       (Ok tt, set_sent (sent w ++ [(ws, ServerError AttributeError)]) w)).
Proof.
  intros Hget Hk Hfid Hplayer Hopen. apply get_room_found in Hget.
  destruct (move_piece_rejected _ _ _ _ t_move _ _ Hk) as (e & Hmove & _).
  split.
  - by apply (process_move_found U untyped ws room_id fid new_row new_col player
                t_move t_store w room _ Hget Hmove).
  - by apply (on_received_move_frame U untyped ws room_id fid new_row new_col player
                t_move t_store local w room _ Hget Hmove).
Qed.

Lemma demo_rejected_move_unreported :
  (get_room demo_parse demo_room_id demo_world).1 = Ok (Some demo_room) ∧
  first_failed_check "no-such-piece" 4 0 demo_black
    (GameRoomInfo.board_state demo_room) = Some PieceExists ∧
  "no-such-piece" ≠ "" ∧ reads_back demo_parse demo_black ∧
  (7%nat ∉ closed demo_world) ∧
  process_move demo_parse demo_untyped 7%nat demo_room_id (JStr "no-such-piece")
    (JInt 4) (JInt 0) demo_black 1%Q 2%Q demo_world
    = (Raise AttributeError, demo_world) ∧
  on_received demo_parse demo_untyped 7%nat demo_room_id
    (Decoded (move_frame "no-such-piece" 4 0 demo_black)) 1%Q 2%Q None demo_world
    = (Some demo_black,
       (Ok tt,
        set_sent (sent demo_world ++ [(7%nat, ServerError AttributeError)])
          demo_world)).
Proof.
  assert (7%nat ∉ closed demo_world) as Hopen by (by vm_compute).
  assert (reads_back demo_parse demo_black) as Hblack
    by (by apply demo_parse_reads_back).
  split; [exact demo_room_found|]. split; [by vm_compute|]. split; [done|].
  split; [exact Hblack|]. split; [exact Hopen|].
  apply (rejected_move_is_neither_stored_nor_reported demo_parse demo_untyped 7%nat
           demo_room_id "no-such-piece" 4 0 demo_black 1%Q 2%Q None demo_world
           demo_room PieceExists demo_room_found);
    [by vm_compute|done|exact Hblack|exact Hopen].
Defined.

(** X22 (main.websocket_endpoint, a room that is not in the store): the
    socket is registered first; if it is open it gets one error frame, is
    unregistered again and the call returns, with no frame read and nothing
    written or published; if the send fails, the exception leaves the
    endpoint and the socket stays registered. *)
Theorem endpoint_without_room U untyped ws room_id frames w :
  redis w !! room_key room_id = None →
  (ws ∉ closed w →
   ∃ w',
     websocket_endpoint U untyped ws room_id frames w = (Ok tt, w') ∧
     sent w' = sent w ++ [(ws, ErrorMessage "Game room not found. Disconnecting.")] ∧
     redis w' = redis w ∧ published w' = published w ∧
     ∀ conns, active_connections w' !! room_id = Some conns → ws ∉ conns) ∧
  (ws ∈ closed w →
   ∃ w' conns,
     websocket_endpoint U untyped ws room_id frames w = (Raise RuntimeError, w') ∧
     sent w' = sent w ∧
     active_connections w' !! room_id = Some conns ∧ ws ∈ conns).
Proof.
  intros Hmiss.
  set (w1 := (connect ws room_id w).2).
  assert (connect ws room_id w = (Ok tt, w1)) as Hconnect by done.
  assert (redis w1 = redis w ∧ closed w1 = closed w ∧ sent w1 = sent w ∧
          published w1 = published w ∧
          active_connections w1 !! room_id
            = Some ({[ws]} ∪ default ∅ (active_connections w !! room_id)))
    as (Hredis & Hclosed & Hsent & Hpub & Hconns).
  { subst w1. unfold connect, io_modify. cbn [snd]. cbv zeta.
    unfold set_active_connections, set_pubsub_listeners.
    cbn [active_connections _pubsub_listeners].
    destruct (_pubsub_listeners w !! room_id) as [[[|]]|];
      cbn [redis closed sent published active_connections];
      repeat split; try done; apply lookup_insert_eq. }
  assert (get_room U room_id w1 = (Ok None, w1)) as Hget.
  { unfold get_room, mbind, io_bind, io_get. by rewrite Hredis, Hmiss. }
  unfold websocket_endpoint, mbind, io_bind. rewrite Hconnect, Hget.
  unfold send_json. split.
  - intros Hopen. rewrite decide_False by (by rewrite Hclosed).
    unfold disconnect, set_sent. cbn [active_connections].
    rewrite Hconns. rewrite decide_True by set_solver. cbv zeta.
    unfold stop_listener, set_active_connections, set_pubsub_listeners.
    cbn [active_connections _pubsub_listeners].
    destruct (decide (_ ∖ {[ws]} = ∅)).
    + destruct (_pubsub_listeners w1 !! room_id); eexists; (split; [reflexivity|]);
        cbn [sent redis published active_connections];
        rewrite Hsent, Hredis, Hpub; repeat split; try done;
        intros conns; by rewrite lookup_delete_eq.
    + eexists; (split; [reflexivity|]).
      cbn [sent redis published active_connections].
      rewrite Hsent, Hredis, Hpub. repeat split; try done.
      intros conns. rewrite lookup_insert_eq. intros [= <-]. set_solver.
  - intros Hshut. rewrite decide_True by (by rewrite Hclosed).
    eexists _, _. split; [reflexivity|]. split; [done|].
    split; [exact Hconns|]. set_solver.
Qed.

Lemma demo_endpoint_without_room :
  redis empty_world !! room_key demo_room_id = None ∧
  (7%nat ∉ closed empty_world →
   ∃ w',
     websocket_endpoint demo_parse demo_untyped 7%nat demo_room_id [] empty_world
       = (Ok tt, w') ∧
     sent w' = sent empty_world
                 ++ [(7%nat, ErrorMessage "Game room not found. Disconnecting.")] ∧
     redis w' = redis empty_world ∧ published w' = published empty_world ∧
     ∀ conns, active_connections w' !! demo_room_id = Some conns → 7%nat ∉ conns) ∧
  (7%nat ∈ closed empty_world →
   ∃ w' conns,
     websocket_endpoint demo_parse demo_untyped 7%nat demo_room_id [] empty_world
       = (Raise RuntimeError, w') ∧
     sent w' = sent empty_world ∧
     active_connections w' !! demo_room_id = Some conns ∧ 7%nat ∈ conns).
Proof.
  split; [by vm_compute|].
  apply (endpoint_without_room demo_parse demo_untyped 7%nat demo_room_id []
           empty_world).
  by vm_compute.
Defined.

(** ** The HTTP endpoints *)

Section endpoints.
Variable U : string → result UUID.
Variable str_exception : api_exn → string.

Lemma api_call_get_room room_id aw :
  api_call (get_room U room_id) aw
    = (match (get_room U room_id (process aw)).1 with
       | Ok found => Returned found
       | Raise e => Failed (Unhandled e)
       end, aw).
Proof.
  unfold api_call. pose proof (get_room_reads_only U room_id (process aw)) as Hw.
  destruct (get_room U room_id (process aw)) as [[found|e] p]; cbn [fst snd] in *;
    subst p; by destruct aw.
Qed.

(** X23 (api/rooms.py, make_move): on a room that is found, with a
    well-formed board, the endpoint never answers 400 and never returns the
    room: whether move_piece accepts or rejects the request, the call of
    update_room_state that follows raises AttributeError, which nothing
    catches; nothing is written to the store and nothing is published. *)
Theorem make_move_fails_on_a_found_room room_id fid new_row new_col player t_move
    t_store aw room :
  (get_room U room_id (process aw)).1 = Ok (Some room) →
  wf (GameRoomInfo.board_state room) →
  rooms.make_move U room_id fid new_row new_col player t_move t_store aw
    = (Failed (Unhandled AttributeError), aw).
Proof.
  intros Hget Hwf.
  destruct (move_piece_wf fid new_row new_col player t_move _ Hwf) as (st' & Hmove & _).
  unfold rooms.make_move, mbind, api_bind.
  rewrite api_call_get_room, Hget.
  unfold api_call at 1. unfold io_lift. rewrite Hmove.
  apply get_room_found in Hget.
  destruct (bool_decide _ && str_contains _ _); unfold api_call; cbn [process];
    rewrite (update_room_state_found U room_id st' t_store _ room Hget);
    by destruct aw.
Qed.

(** X24 (api/rooms.py, endpoints on a room that is not in the store):
    get_room_info, make_move and surrender_game answer 404; join_room raises
    its 404 inside its own try block, where the handler for Exception turns
    it into a 500. None of them changes the process state. *)
Theorem endpoints_on_a_missing_room room_id fid new_row new_col player now now' aw :
  redis (process aw) !! room_key room_id = None →
  rooms.get_room_info U room_id aw
    = (Failed (HTTPException 404 "Room not found."), aw) ∧
  rooms.make_move U room_id fid new_row new_col player now now' aw
    = (Failed (HTTPException 404 "Game not found."), aw) ∧
  rooms.surrender_game U str_exception room_id player now aw
    = (Failed (HTTPException 404 "Game not found."), aw) ∧
  rooms.join_room U str_exception room_id player now aw
    = (Failed (HTTPException 500
                 ("An unexpected error occurred: "
                    +:+ str_exception (HTTPException 404 "Room not found."))), aw).
Proof.
  intros Hmiss.
  assert (get_room U room_id (process aw) = (Ok None, process aw)) as Hget.
  { unfold get_room, mbind, io_bind, io_get. by rewrite Hmiss. }
  assert (api_call (get_room U room_id) aw = (Returned None, aw)) as Hcall.
  { rewrite api_call_get_room. by rewrite Hget. }
  split; [|split; [|split]].
  - unfold rooms.get_room_info, mbind, api_bind. by rewrite Hcall.
  - unfold rooms.make_move, mbind, api_bind. by rewrite Hcall.
  - unfold rooms.surrender_game, mbind, api_bind. by rewrite Hcall.
  - unfold rooms.join_room, rooms.guarded, mbind, api_bind, api_call.
    unfold join_room, mbind, io_bind. rewrite Hget. cbn [mret io_ret].
    by destruct aw.
Qed.

(** X25 (api/rooms.py, surrender_game): on a room that is found, a player
    who is no participant gets 400 with the message of the ValueError and
    nothing is written or published; a participant gets the stored room,
    resigned, and the new state is published to the room's channel. *)
Theorem surrender_game_answers room_id player now aw room :
  (get_room U room_id (process aw)).1 = Ok (Some room) →
  let is_participant :=
    uuid_str player = str_optional_UUID (GameRoomInfo.player1_id room) ∨
    uuid_str player = str_optional_UUID (GameRoomInfo.player2_id room) in
  (¬ is_participant →
   rooms.surrender_game U str_exception room_id player now aw
     = (Failed (HTTPException 400 "Player is not a participant of this room."), aw)) ∧
  (is_participant →
   let room' := resigned player now room in
   rooms.surrender_game U str_exception room_id player now aw
     = (Returned (Some (room_record room')),
        {| process :=
             set_published
               (published (process aw) ++
                  [(channel_name room_id,
                    GameStateUpdate
                      (to_json_serializable (GameRoomInfo.board_state room')))])
               (stored room' (process aw));
           room_updates := room_updates aw |})).
Proof.
  intros Hget part.
  assert (api_call (get_room U room_id) aw = (Returned (Some room), aw)) as Hcall.
  { rewrite api_call_get_room. by rewrite Hget. }
  apply get_room_found in Hget.
  unfold rooms.surrender_game, mbind, api_bind. rewrite Hcall.
  unfold rooms.guarded, api_call, surrender_room, mbind, io_bind. rewrite Hget.
  split.
  - intros Hno. rewrite decide_True by (subst part; tauto).
    unfold io_raise. by destruct aw.
  - intros Hyes. rewrite decide_False by (subst part; tauto). reflexivity.
Qed.

(** X26 (api/rooms.py, join_room): on a room that is found, a full room
    gives 400 "Room is already full." with nothing written or published; a
    room with a free black seat, joined by a player other than white, is
    stored in progress with black bound, a room update naming both players is
    published, and the stored room is returned. *)
Theorem join_room_answers room_id player2_id now aw room :
  (get_room U room_id (process aw)).1 = Ok (Some room) →
  (GameRoomInfo.player2_id room ≠ None →
   rooms.join_room U str_exception room_id player2_id now aw
     = (Failed (HTTPException 400 "Room is already full."), aw)) ∧
  (GameRoomInfo.player2_id room = None →
   GameRoomInfo.player1_id room ≠ Some player2_id →
   let room' := joined player2_id now room in
   rooms.join_room U str_exception room_id player2_id now aw
     = (Returned (room_record room'),
        {| process := stored room' (process aw);
           room_updates :=
             room_updates aw ++
               [(channel_name room_id,
                 {| update_room_id := uuid_str (GameRoomInfo.id room);
                    update_status := "in_progress";
                    update_player1_id :=
                      str_optional_UUID (GameRoomInfo.player1_id room);
                    update_player2_id := uuid_str player2_id;
                    update_board_state :=
                      to_json_serializable (GameRoomInfo.board_state room');
                    update_message :=
                      "Player " +:+ uuid_str player2_id +:+ " joined the room." |})]
        |})).
Proof.
  intros Hget. apply get_room_found in Hget. split.
  - intros Hfull.
    unfold rooms.join_room, rooms.guarded, mbind, api_bind, api_call.
    unfold join_room, mbind, io_bind. rewrite Hget.
    rewrite decide_True by done. unfold io_raise. by destruct aw.
  - intros Hfree Hother. cbv zeta.
    unfold rooms.join_room, rooms.guarded, mbind, api_bind, api_call.
    rewrite (join_room_accepts U room_id player2_id now (process aw) room Hget
               Hfree Hother).
    reflexivity.
Qed.

Lemma read_rooms_cons key rest w :
  read_rooms U (key :: rest) w
    = match redis w !! key with
      | Some room_data =>
          room ← GameRoomInfo_from_json U room_data;
          rooms ← read_rooms U rest w;
          Ok (room :: rooms)
      | None => read_rooms U rest w
      end.
Proof. done. Qed.

(** The rooms that the loop of [get_all_rooms] returns, and when it fails. *)
Lemma read_rooms_spec redis_keys : ∀ w,
  (∀ key, key ∈ redis_keys → is_Some (redis w !! key)) →
  match read_rooms U redis_keys w with
  | Ok rooms =>
      Forall2 (λ key room,
                 ∃ room_data, redis w !! key = Some room_data ∧
                              GameRoomInfo_from_json U room_data = Ok room)
              redis_keys rooms
  | Raise e =>
      ∃ key room_data, key ∈ redis_keys ∧ redis w !! key = Some room_data ∧
                       GameRoomInfo_from_json U room_data = Raise e
  end.
Proof.
  induction redis_keys as [|key rest IH]; intros w Hkeys.
  { constructor. }
  rewrite read_rooms_cons.
  destruct (Hkeys key) as [room_data Hdata]; [by left|]. rewrite Hdata.
  destruct (GameRoomInfo_from_json U room_data) as [room|e] eqn:Hroom;
    cbn [mbind result_bind].
  2:{ exists key, room_data. split; [by left|done]. }
  specialize (IH w). lapply IH; [clear IH; intros IH|].
  2:{ intros k Hk. apply Hkeys. by right. }
  destruct (read_rooms U rest w) as [rooms|e]; cbn [mbind result_bind].
  - constructor; [by exists room_data|exact IH].
  - destruct IH as (k & d & Hk & Hd & He). exists k, d. split; [by right|done].
Qed.

(** X27 (GameManager.get_all_rooms, api get_rooms): whatever order Redis
    lists the room keys in, the listing succeeds exactly when every room
    record can be read back, and then holds one room per key, read from that
    key's record; a single record that cannot be read makes the whole
    listing fail with that record's exception, which the endpoint does not
    catch; nothing is changed either way. *)
Theorem listing_needs_every_record redis_keys aw :
  redis_keys ≡ₚ room_keys (process aw) →
  (get_all_rooms U redis_keys (process aw)).2 = process aw ∧
  match (get_all_rooms U redis_keys (process aw)).1 with
  | Ok rooms =>
      length rooms = length (room_keys (process aw)) ∧
      (∀ key room_data,
         is_room_key key = true → redis (process aw) !! key = Some room_data →
         ∃ room, room ∈ rooms ∧ GameRoomInfo_from_json U room_data = Ok room) ∧
      (∀ room, room ∈ rooms →
         ∃ key room_data,
           is_room_key key = true ∧ redis (process aw) !! key = Some room_data ∧
           GameRoomInfo_from_json U room_data = Ok room) ∧
      ∃ bodies, rooms.get_rooms U redis_keys aw = (Returned bodies, aw) ∧
                length bodies = length rooms
  | Raise e =>
      (∃ key room_data,
         is_room_key key = true ∧ redis (process aw) !! key = Some room_data ∧
         GameRoomInfo_from_json U room_data = Raise e) ∧
      rooms.get_rooms U redis_keys aw = (Failed (Unhandled e), aw)
  end.
Proof.
  intros Hperm. set (w := process aw) in *.
  assert (∀ key, key ∈ redis_keys ↔
                 is_room_key key = true ∧ is_Some (redis w !! key)) as Hkeys.
  { intros key. rewrite Hperm. unfold room_keys.
    rewrite list_elem_of_filter, list_elem_of_fmap. split.
    - intros [Hroom ([k d] & -> & Hin)]. split; [done|].
      apply elem_of_map_to_list in Hin. by exists d.
    - intros [Hroom [d Hd]]. split; [done|].
      exists (key, d). split; [done|]. by apply elem_of_map_to_list. }
  unfold rooms.get_rooms, mbind, api_bind, api_call. fold w.
  unfold get_all_rooms, mbind, io_bind, io_get, io_lift. cbn [fst snd].
  split; [by destruct (read_rooms U redis_keys w)|].
  pose proof (read_rooms_spec redis_keys w) as Hspec.
  lapply Hspec; [clear Hspec; intros Hspec|by intros key [_ ?]%Hkeys].
  destruct (read_rooms U redis_keys w) as [rooms|e]; cbn [fst].
  - split; [|split; [|split]].
    + pose proof (Forall2_length Hspec) as Hlen. by rewrite <-Hlen, Hperm.
    + intros key room_data Hroom Hdata.
      assert (key ∈ redis_keys) as Hin by (apply Hkeys; by split; [|exists room_data]).
      apply list_elem_of_lookup_1 in Hin as [i Hi].
      destruct (Forall2_lookup_l _ _ _ _ _ Hspec Hi) as (room & Hr & d & Hd & Hread).
      exists room. split; [by eapply list_elem_of_lookup_2|]. congruence.
    + intros room Hin. apply list_elem_of_lookup_1 in Hin as [i Hi].
      destruct (Forall2_lookup_r _ _ _ _ _ Hspec Hi) as (key & Hk & d & Hd & Hread).
      exists key, d. split; [|done].
      apply list_elem_of_lookup_2 in Hk. by apply Hkeys in Hk as [? _].
    + eexists. split; [subst w; by destruct aw|]. by rewrite length_fmap.
  - split.
    + destruct Hspec as (key & d & Hin & Hd & Hread). exists key, d.
      split; [|done]. by apply Hkeys in Hin as [? _].
    + subst w. by destruct aw.
Qed.

(** X28 (api/rooms.py, create_room then get_room_info): with pairwise
    distinct generated figure ids, the creating endpoint returns the record of
    a waiting room with the creator as first player and no second player, and
    get_room_info of the new id then returns the same record without changing
    anything. *)
Theorem created_room_is_served gen new_id room_name player1_id t_created t_updated aw :
  NoDup (gen <$> seq 0 32) →
  reads_back U new_id → reads_back U player1_id →
  ∃ body aw',
    rooms.create_room gen new_id room_name player1_id t_created t_updated aw
      = (Returned body, aw') ∧
    RoomJson.id body = uuid_str new_id ∧
    RoomJson.name body = room_name ∧
    RoomJson.status body = "waiting" ∧
    RoomJson.player1_id body = Some (uuid_str player1_id) ∧
    RoomJson.player2_id body = None ∧
    redis (process aw') !! room_key new_id = Some body ∧
    room_updates aw' = room_updates aw ∧
    rooms.get_room_info U new_id aw' = (Returned body, aw').
Proof.
  intros Hgen Hnew Hp1.
  destruct (BoardState_init_spec
              (with_white_player (uuid_str player1_id) (INITIAL_GAME_STATE gen))
              WAITING eq_refl (initial_pieces_distinct gen Hgen))
    as (st & Hinit & Hwf & _ & _ & Hon).
  specialize (Hon (initial_positions_distinct gen)).
  set (room := {| GameRoomInfo.id := new_id;
                  GameRoomInfo.name := room_name;
                  GameRoomInfo.player1_id := Some player1_id;
                  GameRoomInfo.player2_id := None;
                  GameRoomInfo.status := EnumMember WAITING;
                  GameRoomInfo.board_state := st;
                  GameRoomInfo.created_at := int_of_timestamp t_created;
                  GameRoomInfo.updated_at := int_of_timestamp t_updated |}).
  assert (ids_read_back U room) as Hids.
  { split; [exact Hnew|]. split; [by intros p [= <-]|by intros p]. }
  destruct (room_json_read_back U room Hids Hwf Hon)
    as (bs' & _ & Hread & _ & _ & _ & _ & Hsame).
  exists (room_record room),
    {| process := stored room (process aw); room_updates := room_updates aw |}.
  split.
  { unfold rooms.create_room, mbind, api_bind, api_call.
    unfold create_room, mbind, io_bind, io_lift. by rewrite Hinit. }
  do 5 (split; [done|]).
  split; [unfold stored, set_redis; cbn [process redis]; apply lookup_insert_eq|].
  split; [done|].
  unfold rooms.get_room_info, mbind, api_bind. rewrite api_call_get_room.
  cbn [process].
  rewrite (get_room_stored U new_id (room_record room)).
  2:{ unfold stored, set_redis. cbn [redis]. apply lookup_insert_eq. }
  rewrite Hread. cbn [fmap result_fmap fst mret api_ret].
  unfold rooms.room_data. by rewrite Hsame.
Qed.

End endpoints.

Lemma demo_make_move :
  (get_room demo_parse demo_room_id (process demo_api_world)).1 = Ok (Some demo_room) ∧
  wf (GameRoomInfo.board_state demo_room) ∧
  rooms.make_move demo_parse demo_room_id "no-such-piece" 4 0 demo_black 1%Q 2%Q
    demo_api_world
    = (Failed (Unhandled AttributeError), demo_api_world).
Proof.
  split; [exact demo_room_found|]. split; [apply demo_room_wf|].
  apply (make_move_fails_on_a_found_room demo_parse demo_room_id "no-such-piece" 4 0
           demo_black 1%Q 2%Q demo_api_world demo_room demo_room_found).
  apply demo_room_wf.
Defined.

Lemma demo_missing_room_answers :
  redis (process {| process := empty_world; room_updates := [] |})
    !! room_key demo_room_id = None ∧
  rooms.get_room_info demo_parse demo_room_id
    {| process := empty_world; room_updates := [] |}
    = (Failed (HTTPException 404 "Room not found."),
       {| process := empty_world; room_updates := [] |}) ∧
  rooms.make_move demo_parse demo_room_id "pawn-w" 4 0 demo_white 1%Q 2%Q
    {| process := empty_world; room_updates := [] |}
    = (Failed (HTTPException 404 "Game not found."),
       {| process := empty_world; room_updates := [] |}) ∧
  rooms.surrender_game demo_parse demo_str_exception demo_room_id demo_white 1%Q
    {| process := empty_world; room_updates := [] |}
    = (Failed (HTTPException 404 "Game not found."),
       {| process := empty_world; room_updates := [] |}) ∧
  rooms.join_room demo_parse demo_str_exception demo_room_id demo_white 1%Q
    {| process := empty_world; room_updates := [] |}
    = (Failed (HTTPException 500
                 ("An unexpected error occurred: "
                    +:+ demo_str_exception (HTTPException 404 "Room not found."))),
       {| process := empty_world; room_updates := [] |}).
Proof.
  split; [by vm_compute|].
  apply (endpoints_on_a_missing_room demo_parse demo_str_exception demo_room_id
           "pawn-w" 4 0 demo_white 1%Q 2%Q
           {| process := empty_world; room_updates := [] |}).
  by vm_compute.
Defined.

Lemma demo_surrender_game :
  (get_room demo_parse demo_room_id (process demo_api_world)).1 = Ok (Some demo_room) ∧
  let is_participant :=
    uuid_str demo_black = str_optional_UUID (GameRoomInfo.player1_id demo_room) ∨
    uuid_str demo_black = str_optional_UUID (GameRoomInfo.player2_id demo_room) in
  (¬ is_participant →
   rooms.surrender_game demo_parse demo_str_exception demo_room_id demo_black 1%Q
     demo_api_world
     = (Failed (HTTPException 400 "Player is not a participant of this room."),
        demo_api_world)) ∧
  (is_participant →
   let room' := resigned demo_black 1%Q demo_room in
   rooms.surrender_game demo_parse demo_str_exception demo_room_id demo_black 1%Q
     demo_api_world
     = (Returned (Some (room_record room')),
        {| process :=
             set_published
               (published (process demo_api_world) ++
                  [(channel_name demo_room_id,
                    GameStateUpdate
                      (to_json_serializable (GameRoomInfo.board_state room')))])
               (stored room' (process demo_api_world));
           room_updates := room_updates demo_api_world |})).
Proof.
  split; [exact demo_room_found|].
  exact (surrender_game_answers demo_parse demo_str_exception demo_room_id demo_black
           1%Q demo_api_world demo_room demo_room_found).
Defined.

Lemma demo_join_room_answer :
  (get_room demo_parse demo_room_id (process demo_api_world)).1 = Ok (Some demo_room) ∧
  (GameRoomInfo.player2_id demo_room ≠ None →
   rooms.join_room demo_parse demo_str_exception demo_room_id demo_black 1%Q
     demo_api_world
     = (Failed (HTTPException 400 "Room is already full."), demo_api_world)) ∧
  (GameRoomInfo.player2_id demo_room = None →
   GameRoomInfo.player1_id demo_room ≠ Some demo_black →
   let room' := joined demo_black 1%Q demo_room in
   rooms.join_room demo_parse demo_str_exception demo_room_id demo_black 1%Q
     demo_api_world
     = (Returned (room_record room'),
        {| process := stored room' (process demo_api_world);
           room_updates :=
             room_updates demo_api_world ++
               [(channel_name demo_room_id,
                 {| update_room_id := uuid_str (GameRoomInfo.id demo_room);
                    update_status := "in_progress";
                    update_player1_id :=
                      str_optional_UUID (GameRoomInfo.player1_id demo_room);
                    update_player2_id := uuid_str demo_black;
                    update_board_state :=
                      to_json_serializable (GameRoomInfo.board_state room');
                    update_message :=
                      "Player " +:+ uuid_str demo_black +:+ " joined the room." |})]
        |})).
Proof.
  split; [exact demo_room_found|].
  exact (join_room_answers demo_parse demo_str_exception demo_room_id demo_black 1%Q
           demo_api_world demo_room demo_room_found).
Defined.

Lemma demo_listing :
  room_keys (process demo_api_world) ≡ₚ room_keys (process demo_api_world) ∧
  (get_all_rooms demo_parse (room_keys (process demo_api_world))
     (process demo_api_world)).2 = process demo_api_world ∧
  match (get_all_rooms demo_parse (room_keys (process demo_api_world))
           (process demo_api_world)).1 with
  | Ok rooms =>
      length rooms = length (room_keys (process demo_api_world)) ∧
      (∀ key room_data,
         is_room_key key = true →
         redis (process demo_api_world) !! key = Some room_data →
         ∃ room, room ∈ rooms ∧ GameRoomInfo_from_json demo_parse room_data = Ok room) ∧
      (∀ room, room ∈ rooms →
         ∃ key room_data,
           is_room_key key = true ∧
           redis (process demo_api_world) !! key = Some room_data ∧
           GameRoomInfo_from_json demo_parse room_data = Ok room) ∧
      ∃ bodies,
        rooms.get_rooms demo_parse (room_keys (process demo_api_world)) demo_api_world
          = (Returned bodies, demo_api_world) ∧
        length bodies = length rooms
  | Raise e =>
      (∃ key room_data,
         is_room_key key = true ∧
         redis (process demo_api_world) !! key = Some room_data ∧
         GameRoomInfo_from_json demo_parse room_data = Raise e) ∧
      rooms.get_rooms demo_parse (room_keys (process demo_api_world)) demo_api_world
        = (Failed (Unhandled e), demo_api_world)
  end.
Proof.
  split; [reflexivity|].
  apply (listing_needs_every_record demo_parse (room_keys (process demo_api_world))
           demo_api_world).
  reflexivity.
Defined.

Lemma demo_created_room_served :
  NoDup (demo_gen <$> seq 0 32) ∧
  reads_back demo_parse demo_room_id ∧ reads_back demo_parse demo_white ∧
  ∃ body aw',
    rooms.create_room demo_gen demo_room_id "Alpha" demo_white 0%Q 0%Q
      {| process := empty_world; room_updates := [] |}
      = (Returned body, aw') ∧
    RoomJson.id body = uuid_str demo_room_id ∧
    RoomJson.name body = "Alpha" ∧
    RoomJson.status body = "waiting" ∧
    RoomJson.player1_id body = Some (uuid_str demo_white) ∧
    RoomJson.player2_id body = None ∧
    redis (process aw') !! room_key demo_room_id = Some body ∧
    room_updates aw' = room_updates {| process := empty_world; room_updates := [] |} ∧
    rooms.get_room_info demo_parse demo_room_id aw' = (Returned body, aw').
Proof.
  split; [apply demo_gen_distinct|].
  split; [by apply demo_parse_reads_back|]. split; [by apply demo_parse_reads_back|].
  apply (created_room_is_served demo_parse demo_gen demo_room_id "Alpha" demo_white
           0%Q 0%Q {| process := empty_world; room_updates := [] |});
    [apply demo_gen_distinct|by apply demo_parse_reads_back
    |by apply demo_parse_reads_back].
Defined.

Example demo_make_move_accepted :
  first_failed_check (demo_gen 20) 5 4 demo_white (GameRoomInfo.board_state demo_room)
    = None ∧
  (rooms.make_move demo_parse demo_room_id (demo_gen 20) 5 4 demo_white 1%Q 2%Q
     demo_api_world).1
  = Failed (Unhandled AttributeError).
Proof. split; by vm_compute. Qed.

Example demo_str_replace :
  str_replace "ab" "X" "abcabab" = "XcXX" ∧ str_replace "aa" "b" "aaa" = "ba" ∧
  str_replace "Error: " "" "no mark here" = "no mark here".
Proof. by vm_compute. Qed.

(** ** A move from the socket to the store and back *)

Lemma get_room_after_send U room_id s w :
  get_room U room_id (set_sent s w)
    = ((get_room U room_id w).1, set_sent s w).
Proof.
  unfold get_room, mbind, io_bind, io_get. cbn [redis set_sent].
  destruct (redis w !! room_key room_id) as [record|]; [|done].
  unfold fmap, io_fmap, io_lift. by destruct (GameRoomInfo_from_json U record).
Qed.

(** X29 (main.websocket_endpoint, GameManager.update_room_state and
    get_room): a move that the board accepts is lost when it comes through
    the socket. On a room that is found, with a well-formed board, move_piece
    advances the turn on the board that was read, but update_room_state then
    raises AttributeError: the frame is answered with one server-error frame,
    nothing is written or published, and the next get_room reads the room as
    it was before the move. *)
Theorem accepted_move_through_socket_is_lost U untyped ws room_id fid new_row
    new_col player t_move t_store local w room :
  (get_room U room_id w).1 = Ok (Some room) →
  wf (GameRoomInfo.board_state room) →
  first_failed_check fid new_row new_col player (GameRoomInfo.board_state room)
    = None →
  fid ≠ "" → reads_back U player → ws ∉ closed w →
  ∃ st' w',
    move_piece fid new_row new_col player t_move (GameRoomInfo.board_state room)
      = Ok st' ∧
    turn_number st' = turn_number (GameRoomInfo.board_state room) + 1 ∧
    on_received U untyped ws room_id (Decoded (move_frame fid new_row new_col player))
      t_move t_store local w = (Some player, (Ok tt, w')) ∧
    redis w' = redis w ∧
    published w' = published w ∧
    sent w' = sent w ++ [(ws, ServerError AttributeError)] ∧
    get_room U room_id w' = (Ok (Some room), w').
Proof.
  intros Hget Hwf Hk Hfid Hplayer Hopen.
  destruct (move_piece_accepted_spec _ _ _ _ t_move _ Hwf Hk)
    as (piece & b & _ & _ & _ & Hmove & _).
  cbv zeta in Hmove.
  eexists _, _. split; [exact Hmove|]. split.
  { destruct (executed_turn piece
                (row (objects (GameRoomInfo.board_state room) piece))
                (col (objects (GameRoomInfo.board_state room) piece))
                new_row new_col t_move b
                match _get_piece_at new_row new_col (GameRoomInfo.board_state room) with
                | Some target =>
                    append_game_log
                      (msg_capture (objects (GameRoomInfo.board_state room) piece)
                         (objects (GameRoomInfo.board_state room) target)
                         new_row new_col)
                      (removed target (board (GameRoomInfo.board_state room))
                         (GameRoomInfo.board_state room))
                | None => GameRoomInfo.board_state room
                end) as (_ & -> & _).
    by destruct (_get_piece_at _ _ _). }
  split.
  { exact (on_received_move_frame U untyped ws room_id fid new_row new_col player
             t_move t_store local w room _ (get_room_found _ _ _ _ Hget) Hmove
             Hfid Hplayer Hopen). }
  do 3 (split; [done|]).
  rewrite get_room_after_send. by rewrite Hget.
Qed.

Lemma demo_move_lost :
  (get_room demo_parse demo_room_id demo_world).1 = Ok (Some demo_room) ∧
  wf (GameRoomInfo.board_state demo_room) ∧
  first_failed_check (demo_gen 20) 5 4 demo_white (GameRoomInfo.board_state demo_room)
    = None ∧
  demo_gen 20 ≠ "" ∧ reads_back demo_parse demo_white ∧
  (7%nat ∉ closed demo_world) ∧
  ∃ st' w',
    move_piece (demo_gen 20) 5 4 demo_white 1%Q (GameRoomInfo.board_state demo_room)
      = Ok st' ∧
    turn_number st' = turn_number (GameRoomInfo.board_state demo_room) + 1 ∧
    on_received demo_parse demo_untyped 7%nat demo_room_id
      (Decoded (move_frame (demo_gen 20) 5 4 demo_white)) 1%Q 2%Q None demo_world
      = (Some demo_white, (Ok tt, w')) ∧
    redis w' = redis demo_world ∧
    published w' = published demo_world ∧
    sent w' = sent demo_world ++ [(7%nat, ServerError AttributeError)] ∧
    get_room demo_parse demo_room_id w' = (Ok (Some demo_room), w').
Proof.
  assert (7%nat ∉ closed demo_world) as Hopen by (by vm_compute).
  assert (reads_back demo_parse demo_white) as Hwhite
    by (by apply demo_parse_reads_back).
  assert (first_failed_check (demo_gen 20) 5 4 demo_white
            (GameRoomInfo.board_state demo_room) = None) as Hk by (by vm_compute).
  assert (demo_gen 20 ≠ "") as Hfid by (by vm_compute).
  split; [exact demo_room_found|]. split; [apply demo_room_wf|].
  split; [exact Hk|]. split; [exact Hfid|]. split; [exact Hwhite|].
  split; [exact Hopen|].
  exact (accepted_move_through_socket_is_lost demo_parse demo_untyped 7%nat
           demo_room_id (demo_gen 20) 5 4 demo_white 1%Q 2%Q None demo_world demo_room
           demo_room_found (proj1 demo_room_wf) Hk Hfid Hwhite Hopen).
Defined.
